(** * GeminiForge: the staged workflow engine and its response-recovery layer

    A shallow embedding of [geminiforge/api_manager.py],
    [geminiforge/context.py] and [geminiforge/workflow.py], and properties
    of the retry loop, the parsing strategies, the stages and the two entry
    points of the workflow.

    How the program is modelled:

    - A Python [str] is a list of Unicode code points ([list N]); [py] turns
      an ASCII literal into one.
    - A Python value that comes out of [json.loads], or that the code builds
      from such values, is a [value]; a [dict] is the list of its items in
      insertion order.
    - Methods that touch the context, the remote producer or the persisted
      context file are functions in a state-and-exception monad [M]: a
      raised exception keeps the state reached so far, as in Python.  The
      state also keeps a trace of what the run did.
    - The remote producer is an arbitrary function from the index of a
      remote call to its outcome: a text, or an exception (of class
      [Exception], the only ones [call_api] catches).
    - The tasks of the code generation stage are run one after the other:
      [call_api] only yields control in its backoff sleep, and no property
      below depends on how the calls of different tasks interleave.
    - The order in which [list(set(...))] lists the dependencies of the
      code base is left to the interpreter; the stages take it as a
      parameter, and every general statement holds for each order.
    - The file system accepts every write (no [OSError], no encoding
      error); of the functions that write files only the type errors they
      raise on the values they are given are kept.  Prompt texts, logging
      and the reference-context provider are left out: they do not
      influence control flow. *)

From Stdlib Require Import Ascii String.
From Stdlib Require Import List NArith ZArith Bool Lia Arith.
Import ListNotations.

Set Implicit Arguments.
Set Warnings "-register-all".

(* ================================================================== *)
(** * Python strings *)
(* ================================================================== *)

Module PyStr.

Local Open Scope N_scope.

Definition char := N.
Definition str := list char.

(** A literal. *)
Definition py (s : string) : str := map N_of_ascii (list_ascii_of_string s).

(** A literal in which every apostrophe stands for a double quote. *)
Definition pyq (s : string) : str :=
  map (fun c => if c =? 39 then 34 else c) (py s).

Definition dquote : char := 34.
Definition backslash : char := 92.
Definition lbrace : char := 123.
Definition rbrace : char := 125.
Definition newline : char := 10.

Fixpoint str_eqb (a b : str) : bool :=
  match a, b with
  | [], [] => true
  | x :: a', y :: b' => (x =? y) && str_eqb a' b'
  | _, _ => false
  end.

(** [s.startswith(p)] *)
Fixpoint startswith (s p : str) : bool :=
  match p, s with
  | [], _ => true
  | x :: p', y :: s' => (x =? y) && startswith s' p'
  | _ :: _, [] => false
  end.

(** [s.endswith(p)] *)
Definition endswith (s p : str) : bool := startswith (rev s) (rev p).

(** [sub in s] *)
Fixpoint contains (sub s : str) : bool :=
  startswith s sub ||
  match s with
  | [] => false
  | _ :: s' => contains sub s'
  end.

(** [str.isspace] on one code point; it is also what [\s] matches in a
    [str] pattern of [re]. *)
Definition isspace (c : char) : bool :=
  ((9 <=? c) && (c <=? 13)) || ((28 <=? c) && (c <=? 32)) ||
  (c =? 133) || (c =? 160) || (c =? 5760) ||
  ((8192 <=? c) && (c <=? 8202)) || (c =? 8232) || (c =? 8233) ||
  (c =? 8239) || (c =? 8287) || (c =? 12288).

Fixpoint lstrip (s : str) : str :=
  match s with
  | c :: s' => if isspace c then lstrip s' else s
  | [] => []
  end.

Definition rstrip (s : str) : str := rev (lstrip (rev s)).

(** [s.strip()] *)
Definition strip (s : str) : str := rstrip (lstrip s).

(** [s.count(c)] for a one-character [c]. *)
Fixpoint count (c : char) (s : str) : nat :=
  match s with
  | [] => 0%nat
  | x :: s' => if x =? c then S (count c s') else count c s'
  end.

(** [s.find(c)] for a one-character [c]; [None] is Python's [-1]. *)
Fixpoint find (c : char) (s : str) : option nat :=
  match s with
  | [] => None
  | x :: s' => if x =? c then Some 0%nat
               else match find c s' with
                    | Some i => Some (S i)
                    | None => None
                    end
  end.

(** [s.split(sep)] for a non-empty [sep]: left to right, occurrences do not
    overlap.  [skip] counts the characters of a separator still to be
    dropped, [cur] is the piece being read, reversed. *)
Fixpoint split_go (sep : str) (skip : nat) (cur : str) (s : str) : list str :=
  match s with
  | [] => [rev cur]
  | c :: s' =>
      match skip with
      | S k => split_go sep k cur s'
      | O => if startswith s sep
             then rev cur :: split_go sep (length sep - 1) [] s'
             else split_go sep 0 (c :: cur) s'
      end
  end.

Definition split (sep s : str) : list str := split_go sep 0 [] s.

(** [sep.join(l)] *)
Fixpoint join (sep : str) (l : list str) : str :=
  match l with
  | [] => []
  | [x] => x
  | x :: l' => x ++ sep ++ join sep l'
  end.

(** [s[a:b]] for [0 <= a <= b]. *)
Definition slice (a b : nat) (s : str) : str := firstn (b - a) (skipn a s).

End PyStr.
Import PyStr.

(* ================================================================== *)
(** * Python values and [json.loads] *)
(* ================================================================== *)

(** The values [json.loads] builds.  A float keeps the decimal it was read
    from ([VFloat neg m e] is [(-1)^neg * m * 10^e]); dictionary keys are
    values because the code generation stage indexes a dictionary by
    whatever the module list holds. *)
Inductive value : Type :=
| VNone
| VBool (b : bool)
| VInt (z : Z)
| VFloat (neg : bool) (m : N) (e : Z)
| VNaN
| VInf (neg : bool)
| VStr (s : str)
| VList (l : list value)
| VDict (d : list (value * value)).

(** Exceptions the modelled code can raise. *)
Inductive exn : Type :=
| ValueError (msg : str)
| JSONDecodeError
| AttributeError
| TypeError
| KeyError
| IndexError
| RemoteError.

Inductive result (A : Type) : Type :=
| Ok (a : A)
| Raise (e : exn).
Arguments Ok {A} a.
Arguments Raise {A} e.

Module PyValue.

(** Structural equality.  It agrees with Python's [==] on strings; Python
    also identifies numbers of different types ([1 == 1.0 == True]), which
    is not modelled. *)
Fixpoint value_eqb (a b : value) {struct a} : bool :=
  match a, b with
  | VNone, VNone => true
  | VBool x, VBool y => Bool.eqb x y
  | VInt x, VInt y => Z.eqb x y
  | VFloat n1 m1 e1, VFloat n2 m2 e2 => Bool.eqb n1 n2 && N.eqb m1 m2 && Z.eqb e1 e2
  | VNaN, VNaN => true
  | VInf x, VInf y => Bool.eqb x y
  | VStr x, VStr y => str_eqb x y
  | VList x, VList y =>
      (fix go (x y : list value) : bool :=
         match x, y with
         | [], [] => true
         | u :: x', v :: y' => value_eqb u v && go x' y'
         | _, _ => false
         end) x y
  | VDict x, VDict y =>
      (fix go (x y : list (value * value)) : bool :=
         match x, y with
         | [], [] => true
         | (k1, u) :: x', (k2, v) :: y' => value_eqb k1 k2 && value_eqb u v && go x' y'
         | _, _ => false
         end) x y
  | _, _ => false
  end.

(** A float read from the decimal [m * 10^e] is [0.0] when [m] is zero or
    the decimal rounds to zero, that is when it is at most [2^-1075] (half
    the smallest subnormal, the tie going to the even neighbour [0]). *)
Definition float_is_zero (m : N) (e : Z) : bool :=
  (m =? 0)%N ||
  ((e <? 0)%Z && (Z.of_N m * 2 ^ 1075 <=? 10 ^ (- e))%Z).

(** Python truthiness: [bool(v)]. *)
Definition truthy (v : value) : bool :=
  match v with
  | VNone => false
  | VBool b => b
  | VInt z => negb (Z.eqb z 0)
  | VFloat _ m e => negb (float_is_zero m e)
  | VNaN => true
  | VInf _ => true
  | VStr s => match s with [] => false | _ => true end
  | VList l => match l with [] => false | _ => true end
  | VDict d => match d with [] => false | _ => true end
  end.

(** Lists and dictionaries are not hashable. *)
Definition hashable (v : value) : bool :=
  match v with
  | VList _ | VDict _ => false
  | _ => true
  end.

(** [d.get(k)] on the entries of a dictionary. *)
Fixpoint dict_lookup (k : value) (d : list (value * value)) : option value :=
  match d with
  | [] => None
  | (k', v) :: d' => if value_eqb k' k then Some v else dict_lookup k d'
  end.

(** [d[k] = v]: an existing key keeps its place, a new one goes last. *)
Fixpoint dict_set (k v : value) (d : list (value * value)) : list (value * value) :=
  match d with
  | [] => [(k, v)]
  | (k', v') :: d' => if value_eqb k' k then (k', v) :: d'
                      else (k', v') :: dict_set k v d'
  end.

(** [dict(pairs)] *)
Definition dict_of_pairs (pairs : list (value * value)) : list (value * value) :=
  fold_left (fun d kv => dict_set (fst kv) (snd kv) d) pairs [].

(** [x.get(k, default)]: only a [dict] has [get]. *)
Definition py_get (x : value) (k : str) (default : value) : result value :=
  match x with
  | VDict d => Ok (match dict_lookup (VStr k) d with
                   | Some v => v
                   | None => default
                   end)
  | _ => Raise AttributeError
  end.

(** What [for e in x] (and [list.extend(x)]) iterates over. *)
Definition py_iter (x : value) : result (list value) :=
  match x with
  | VList l => Ok l
  | VStr s => Ok (map (fun c => VStr [c]) s)
  | VDict d => Ok (map fst d)
  | _ => Raise TypeError
  end.

(** [k in x] for a string [k]. *)
Definition py_in (k : str) (x : value) : result bool :=
  match x with
  | VDict d => Ok (match dict_lookup (VStr k) d with Some _ => true | None => false end)
  | VList l => Ok (existsb (value_eqb (VStr k)) l)
  | VStr s => Ok (contains k s)
  | _ => Raise TypeError
  end.

(** [x[k]] for a string [k]. *)
Definition py_getitem (x : value) (k : str) : result value :=
  match x with
  | VDict d => match dict_lookup (VStr k) d with
               | Some v => Ok v
               | None => Raise KeyError
               end
  | _ => Raise TypeError
  end.

End PyValue.
Import PyValue.

(* ------------------------------------------------------------------ *)
(** ** [json.loads]

    The decoder of Python's standard library with its default settings
    ([strict], no hooks): the JSON grammar, plus [NaN], [Infinity] and
    [-Infinity]; a repeated key keeps its last value.  The interpreter's
    recursion limit and its bound on the digits of an integer are not
    modelled.  The recursion is on a depth and on a fuel that the length of
    the text bounds; section [DecoderBounds] shows they are never used
    up. *)

Module Json.

Local Open Scope N_scope.

Definition is_json_ws (c : char) : bool :=
  (c =? 32) || (c =? 9) || (c =? 10) || (c =? 13).

Fixpoint skip_ws (s : str) : str :=
  match s with
  | c :: s' => if is_json_ws c then skip_ws s' else s
  | [] => []
  end.

Definition is_digit (c : char) : bool := (48 <=? c) && (c <=? 57).

Definition hex_digit (c : char) : option N :=
  if (48 <=? c) && (c <=? 57) then Some (c - 48)
  else if (97 <=? c) && (c <=? 102) then Some (c - 87)
  else if (65 <=? c) && (c <=? 70) then Some (c - 55)
  else None.

Definition hex4 (a b c d : char) : option N :=
  match hex_digit a, hex_digit b, hex_digit c, hex_digit d with
  | Some x, Some y, Some z, Some w => Some (((x * 16 + y) * 16 + z) * 16 + w)
  | _, _, _, _ => None
  end.

(** The one-character escapes. *)
Definition unescape (e : char) : option char :=
  if e =? 34 then Some 34            (* a double quote *)
  else if e =? 92 then Some 92       (* a backslash *)
  else if e =? 47 then Some 47       (* a slash *)
  else if e =? 98 then Some 8        (* b: backspace *)
  else if e =? 102 then Some 12      (* f: form feed *)
  else if e =? 110 then Some 10      (* n: line feed *)
  else if e =? 114 then Some 13      (* r: carriage return *)
  else if e =? 116 then Some 9       (* t: tab *)
  else None.

(** [scanstring]: [s] starts just after the opening quote; the result is
    the decoded string and what follows the closing quote.  [acc] is the
    decoded prefix, reversed. *)
Fixpoint scanstring (acc : str) (s : str) {struct s} : option (str * str) :=
  match s with
  | [] => None
  | c :: s1 =>
      if c =? 34 then Some (rev acc, s1)
      else if c <? 32 then None
      else if c =? 92 then
        match s1 with
        | [] => None
        | e :: s2 =>
            if e =? 117 then
              match s2 with
              | h1 :: h2 :: h3 :: h4 :: s3 =>
                  match hex4 h1 h2 h3 h4 with
                  | None => None
                  | Some uni =>
                      if (55296 <=? uni) && (uni <=? 56319) then
                        match s3 with
                        | b :: u :: s4 =>
                            if (b =? 92) && (u =? 117) then
                              match s4 with
                              | g1 :: g2 :: g3 :: g4 :: s5 =>
                                  match hex4 g1 g2 g3 g4 with
                                  | None => None
                                  | Some uni2 =>
                                      if (56320 <=? uni2) && (uni2 <=? 57343)
                                      then scanstring
                                             (65536 + ((uni - 55296) * 1024 + (uni2 - 56320)) :: acc) s5
                                      else scanstring (uni :: acc) s3
                                  end
                              | _ => None
                              end
                            else scanstring (uni :: acc) s3
                        | _ => scanstring (uni :: acc) s3
                        end
                      else scanstring (uni :: acc) s3
                  end
              | _ => None
              end
            else
              match unescape e with
              | Some ch => scanstring (ch :: acc) s2
              | None => None
              end
        end
      else scanstring (c :: acc) s1
  end.

(** The digits at the head of [s], and the rest. *)
Fixpoint span_digits (s : str) : str * str :=
  match s with
  | c :: s' => if is_digit c
               then let (ds, r) := span_digits s' in (c :: ds, r)
               else ([], s)
  | [] => ([], [])
  end.

Definition digits_value (ds : str) : N :=
  fold_left (fun acc c => acc * 10 + (c - 48)) ds 0.

(** The integer part: [0] or a non-empty run of digits not starting with [0]. *)
Definition scan_int_part (s : str) : option (str * str) :=
  match s with
  | c :: s' =>
      if c =? 48 then Some ([c], s')
      else if is_digit c then let (ds, r) := span_digits s' in Some (c :: ds, r)
      else None
  | [] => None
  end.

(** The optional fraction: a dot and at least one digit. *)
Definition scan_frac (s : str) : option (str * str) :=
  match s with
  | c :: s' =>
      if c =? 46 then
        match span_digits s' with
        | ([], _) => None
        | (ds, r) => Some (ds, r)
        end
      else None
  | [] => None
  end.

(** The optional exponent: [e] or [E], an optional sign, at least one digit. *)
Definition scan_exp (s : str) : option (Z * str) :=
  match s with
  | c :: s' =>
      if (c =? 101) || (c =? 69) then
        let '(neg, s'') :=
          match s' with
          | sg :: t => if sg =? 45 then (true, t)
                       else if sg =? 43 then (false, t) else (false, s')
          | [] => (false, s')
          end in
        match span_digits s'' with
        | ([], _) => None
        | (ds, r) => Some ((if neg then - Z.of_N (digits_value ds)
                            else Z.of_N (digits_value ds))%Z, r)
        end
      else None
  | [] => None
  end.

(** [NUMBER_RE.match]: an integer when there is no fraction and no
    exponent, a float otherwise. *)
Definition match_number (s : str) : option (value * str) :=
  let '(neg, s0) :=
    match s with
    | c :: t => if c =? 45 then (true, t) else (false, s)
    | [] => (false, s)
    end in
  match scan_int_part s0 with
  | None => None
  | Some (ip, s1) =>
      let '(fp, s2) := match scan_frac s1 with
                       | Some (ds, r) => (Some ds, r)
                       | None => (None, s1)
                       end in
      let '(ep, s3) := match scan_exp s2 with
                       | Some (e, r) => (Some e, r)
                       | None => (None, s2)
                       end in
      match fp, ep with
      | None, None =>
          Some (VInt (if neg then - Z.of_N (digits_value ip)
                      else Z.of_N (digits_value ip))%Z, s3)
      | _, _ =>
          let fd := match fp with Some ds => ds | None => [] end in
          let ex := match ep with Some e => e | None => 0%Z end in
          Some (VFloat neg (digits_value (ip ++ fd))
                       (ex - Z.of_nat (length fd))%Z, s3)
      end
  end.

(** [JSONObject] and [JSONArray] take the scanner of nested values as an
    argument, as the Python functions take [scan_once]. *)
Section Containers.

Variable scan_once : str -> option (value * str).

(** The members of an object; [s] starts just after the opening quote of a
    key.  [fuel] bounds the number of members. *)
Fixpoint object_loop (fuel : nat) (pairs : list (value * value)) (s : str)
  : option (value * str) :=
  match fuel with
  | O => None
  | S fuel' =>
      match scanstring [] s with
      | None => None
      | Some (key, s1) =>
          match skip_ws s1 with
          | c :: s2 =>
              if c =? 58 then
                match scan_once (skip_ws s2) with
                | None => None
                | Some (v, s3) =>
                    let pairs' := pairs ++ [(VStr key, v)] in
                    match skip_ws s3 with
                    | d :: s4 =>
                        if d =? 125 then Some (VDict (dict_of_pairs pairs'), s4)
                        else if d =? 44 then
                          match skip_ws s4 with
                          | q :: s5 => if q =? 34 then object_loop fuel' pairs' s5
                                       else None
                          | [] => None
                          end
                        else None
                    | [] => None
                    end
                end
              else None
          | [] => None
          end
      end
  end.

(** [s] starts just after the opening brace. *)
Definition JSONObject (s : str) : option (value * str) :=
  match skip_ws s with
  | c :: s1 =>
      if c =? 125 then Some (VDict [], s1)
      else if c =? 34 then object_loop (length s) [] s1
      else None
  | [] => None
  end.

(** The elements of an array; [s] starts at an element. *)
Fixpoint array_loop (fuel : nat) (values : list value) (s : str)
  : option (value * str) :=
  match fuel with
  | O => None
  | S fuel' =>
      match scan_once s with
      | None => None
      | Some (v, s1) =>
          let values' := values ++ [v] in
          match skip_ws s1 with
          | d :: s2 =>
              if d =? 93 then Some (VList values', s2)
              else if d =? 44 then array_loop fuel' values' (skip_ws s2)
              else None
          | [] => None
          end
      end
  end.

(** [s] starts just after the opening bracket. *)
Definition JSONArray (s : str) : option (value * str) :=
  match skip_ws s with
  | c :: s1 =>
      if c =? 93 then Some (VList [], s1)
      else array_loop (length s) [] (skip_ws s)
  | [] => None
  end.

End Containers.

(** [scan_once]; [depth] bounds the nesting of containers. *)
Fixpoint scan_once (depth : nat) (s : str) {struct depth} : option (value * str) :=
  match depth with
  | O => None
  | S depth' =>
      match s with
      | [] => None
      | c :: s1 =>
          if c =? 34 then
            match scanstring [] s1 with
            | Some (x, r) => Some (VStr x, r)
            | None => None
            end
          else if c =? 123 then JSONObject (scan_once depth') s1
          else if c =? 91 then JSONArray (scan_once depth') s1
          else if startswith s (py "null") then Some (VNone, skipn 4 s)
          else if startswith s (py "true") then Some (VBool true, skipn 4 s)
          else if startswith s (py "false") then Some (VBool false, skipn 5 s)
          else
            match match_number s with
            | Some r => Some r
            | None =>
                if startswith s (py "NaN") then Some (VNaN, skipn 3 s)
                else if startswith s (py "Infinity") then Some (VInf false, skipn 8 s)
                else if startswith s (py "-Infinity") then Some (VInf true, skipn 9 s)
                else None
            end
      end
  end.

(** [json.loads(s)]: one value between optional whitespace, and nothing
    else; a leading byte order mark is refused. *)
Definition loads (s : str) : result value :=
  match s with
  | 65279 :: _ => Raise JSONDecodeError
  | _ =>
      match scan_once (S (length s)) (skip_ws s) with
      | Some (v, r) => match skip_ws r with
                       | [] => Ok v
                       | _ :: _ => Raise JSONDecodeError
                       end
      | None => Raise JSONDecodeError
      end
  end.

End Json.

(* ================================================================== *)
(** * [context.py]: the shared project context *)
(* ================================================================== *)

Definition vs (s : string) : value := VStr (py s).

Record ProjectContext : Type := {
  project_name : str;
  requirements : value;
  architecture : value;
  codebase : value;
  test_results : value;
  deployment : value;
  created_at : value;
  current_stage : value
}.

(** [__post_init__]; [now] is [datetime.now().isoformat()]. *)
Definition post_init (now : str) (c : ProjectContext) : ProjectContext :=
  if negb (truthy (created_at c))
  then {| project_name := project_name c; requirements := requirements c;
          architecture := architecture c; codebase := codebase c;
          test_results := test_results c; deployment := deployment c;
          created_at := VStr now; current_stage := current_stage c |}
  else c.

(** [ProjectContext(project_name=name)] *)
Definition new_context (now : str) (name : str) : ProjectContext :=
  post_init now
    {| project_name := name; requirements := VNone; architecture := VNone;
       codebase := VNone; test_results := VNone; deployment := VNone;
       created_at := VNone; current_stage := vs "not_started" |}.

(** [dataclasses.asdict] *)
Definition asdict (c : ProjectContext) : value :=
  VDict [ (vs "project_name", VStr (project_name c));
          (vs "requirements", requirements c);
          (vs "architecture", architecture c);
          (vs "codebase", codebase c);
          (vs "test_results", test_results c);
          (vs "deployment", deployment c);
          (vs "created_at", created_at c);
          (vs "current_stage", current_stage c) ].

(* ================================================================== *)
(** * State, events and the monad of the managers *)
(* ================================================================== *)

Inductive stage : Type :=
| Requirements | Architecture | Code | Review | Deployment.

(** What a run does that the claims speak about.  [EvStage s c]: the method
    of stage [s] was entered, the context being [c] at that moment. *)
Inductive event : Type :=
| EvRemoteCall (model_name : str)
| EvSleep (seconds : N)
| EvStage (s : stage) (at_entry : ProjectContext)
| EvStageOutput (s : stage) (data : value)
| EvSaveContext (c : ProjectContext).

(** The content of [project_context.json]. *)
Inductive file : Type :=
| Holds (data : value)
| NotJson.

(** [trace] has the latest event first. *)
Record State : Type := {
  context : ProjectContext;
  trace : list event;
  disk : option file
}.

Definition M (A : Type) : Type := State -> result A * State.

Definition ret {A} (a : A) : M A := fun st => (Ok a, st).
Definition raise {A} (e : exn) : M A := fun st => (Raise e, st).
Definition bind {A B} (c : M A) (k : A -> M B) : M B :=
  fun st => match c st with
            | (Ok a, st') => k a st'
            | (Raise e, st') => (Raise e, st')
            end.
Definition lift {A} (r : result A) : M A := fun st => (r, st).

Declare Scope monad_scope.
Delimit Scope monad_scope with monad.
Notation "x <- c ;; k" := (bind c (fun x => k))
  (at level 61, c at next level, right associativity) : monad_scope.
Notation "c ;;; k" := (bind c (fun _ => k))
  (at level 61, right associativity) : monad_scope.
Local Open Scope monad_scope.

Definition emit (e : event) : M unit :=
  fun st => (Ok tt, {| context := context st; trace := e :: trace st; disk := disk st |}).

Definition get_context : M ProjectContext := fun st => (Ok (context st), st).

Definition modify_context (f : ProjectContext -> ProjectContext) : M unit :=
  fun st => (Ok tt, {| context := f (context st); trace := trace st; disk := disk st |}).

Fixpoint remote_calls (t : list event) : nat :=
  match t with
  | [] => 0
  | EvRemoteCall _ :: t' => S (remote_calls t')
  | _ :: t' => remote_calls t'
  end.

(** The waits of a trace, latest first. *)
Fixpoint sleeps (t : list event) : list N :=
  match t with
  | [] => []
  | EvSleep n :: t' => n :: sleeps t'
  | _ :: t' => sleeps t'
  end.

(* ================================================================== *)
(** * [api_manager.py] *)
(* ================================================================== *)

Module ApiManager.

Local Open Scope N_scope.

(** ** The four parsing strategies *)

Definition parse_clean_json (text : str) : result value :=
  Json.loads (strip text).

Definition fence : str := py "```".
Definition fence_json : str := py "```json".

(** [l[i]] *)
Definition index (l : list str) (i : nat) : result str :=
  match nth_error l i with
  | Some x => Ok x
  | None => Raise IndexError
  end.

Definition parse_markdown_json (text : str) : result value :=
  if contains fence_json text then
    match index (split fence_json text) 1 with
    | Ok part => match index (split fence part) 0 with
                 | Ok json_content => Json.loads (strip json_content)
                 | Raise e => Raise e
                 end
    | Raise e => Raise e
    end
  else if contains fence text then
    match index (split fence text) 1 with
    | Ok part => match index (split fence part) 0 with
                 | Ok json_content => Json.loads (strip json_content)
                 | Raise e => Raise e
                 end
    | Raise e => Raise e
    end
  else Raise (ValueError (py "No markdown JSON found")).

(** The loop of [parse_partial_json] over [text[i:]]: [Some (i + k)] when
    the count returns to zero at the [k]-th character read, [None] when the
    text ends first. *)
Fixpoint brace_scan (brace_count : Z) (i : nat) (s : str) : option nat :=
  match s with
  | [] => None
  | c :: s' =>
      if c =? 123 then brace_scan (brace_count + 1) (S i) s'
      else if c =? 125 then
        if (brace_count - 1 =? 0)%Z then Some (S i)
        else brace_scan (brace_count - 1) (S i) s'
      else brace_scan brace_count (S i) s'
  end.

Definition parse_partial_json (text : str) : result value :=
  match find lbrace text with
  | None => Raise (ValueError (py "No JSON object found"))
  | Some start =>
      match brace_scan 0 start (skipn start text) with
      | None => Raise (ValueError (py "Incomplete JSON object"))
      | Some end_ => Json.loads (slice start end_ text)
      end
  end.

(** ** The repair pass *)

(** Does [s] start with whitespace (possibly none) and a closing brace or
    bracket: the group of the first pattern. *)
Fixpoint closes_after_space (s : str) : bool :=
  match s with
  | [] => false
  | c :: s' => if (c =? 125) || (c =? 93) then true
               else if isspace c then closes_after_space s'
               else false
  end.

(** The first substitution, of the pattern [,(\s*[}\]])] by its group: a
    comma is dropped when only whitespace separates it from a closing brace
    or bracket.  The text a match consumes after its comma holds no comma,
    so scanning on from the character after the comma finds the same
    matches. *)
Fixpoint strip_trailing_commas (s : str) : str :=
  match s with
  | [] => []
  | c :: s' => if (c =? 44) && closes_after_space s'
               then strip_trailing_commas s'
               else c :: strip_trailing_commas s'
  end.

(** The characters the lookahead of the second pattern excludes: a comma, a
    closing bracket or brace, a colon, whitespace. *)
Definition after_quote_ok (c : char) : bool :=
  (c =? 44) || (c =? 93) || (c =? 125) || (c =? 58) || isspace c.

(** The second substitution: a double quote that does not follow a
    backslash (negative lookbehind) and is not followed by one of the
    characters above (negative lookahead, which also holds at the end of the
    text) gets a backslash in front.  [prev] is the character before [s] in
    the text. *)
Fixpoint escape_quotes (prev : option char) (s : str) : str :=
  match s with
  | [] => []
  | c :: s' =>
      let lookbehind := match prev with
                        | Some p => negb (p =? 92)
                        | None => true
                        end in
      let lookahead := match s' with
                       | n :: _ => negb (after_quote_ok n)
                       | [] => true
                       end in
      if (c =? 34) && lookbehind && lookahead
      then 92 :: 34 :: escape_quotes (Some c) s'
      else c :: escape_quotes (Some c) s'
  end.

(** The third substitution removes the code points 0 to 31 and 127 to 159. *)
Definition is_control (c : char) : bool :=
  (c <=? 31) || ((127 <=? c) && (c <=? 159)).

Definition remove_control (s : str) : str :=
  filter (fun c => negb (is_control c)) s.

Definition fix_common_json_issues (json_str : str) : str :=
  let json_str := strip_trailing_commas json_str in
  let json_str := escape_quotes None json_str in
  let json_str := remove_control json_str in
  json_str.

(** The loop of [parse_line_by_line_json]; the result is [json_lines]. *)
Fixpoint accumulate_lines (in_json : bool) (lines : list str) : list str :=
  match lines with
  | [] => []
  | line :: rest =>
      if startswith (strip line) [lbrace] || in_json then
        if endswith (strip line) [rbrace] && (count lbrace line <=? count rbrace line)%nat
        then [line]
        else line :: accumulate_lines true rest
      else accumulate_lines in_json rest
  end.

Definition parse_line_by_line_json (text : str) : result value :=
  let lines := split [newline] text in
  let json_lines := accumulate_lines false lines in
  match json_lines with
  | [] => Raise (ValueError (py "No JSON content found"))
  | _ :: _ =>
      let json_str := join [newline] json_lines in
      let json_str := fix_common_json_issues json_str in
      Json.loads json_str
  end.

(** ** [parse_json_response] *)

Definition parsing_strategies : list (str -> result value) :=
  [ parse_clean_json; parse_markdown_json; parse_partial_json;
    parse_line_by_line_json ].

(** A strategy that raises, or whose result is falsy, hands over to the
    next one. *)
Fixpoint try_strategies (strategies : list (str -> result value)) (response_text : str)
  : option value :=
  match strategies with
  | [] => None
  | strategy :: rest =>
      match strategy response_text with
      | Ok result => if truthy result then Some result
                     else try_strategies rest response_text
      | Raise _ => try_strategies rest response_text
      end
  end.

Definition parse_json_response (response_text : str) : option value :=
  try_strategies parsing_strategies response_text.

(** ** The default records *)

Definition default_planner : value :=
  VDict [
    (vs "requirements", VList [vs "Parse failed - manual review needed"]);
    (vs "user_stories", VList [vs "Parse failed - manual review needed"]);
    (vs "acceptance_criteria",
     VList [vs "Parse failed - manual review needed"]);
    (vs "timeline", vs "Parse failed - manual review needed");
    (vs "status", vs "partial_failure")].

Definition default_architect : value :=
  VDict [
    (vs "architecture_type", vs "microservices");
    (vs "tech_stack",
     VDict [
      (vs "backend", vs "FastAPI");
      (vs "frontend", vs "React");
      (vs "database", vs "PostgreSQL")]);
    (vs "database_schema", vs "Parse failed - manual review needed");
    (vs "api_design", vs "Parse failed - manual review needed");
    (vs "status", vs "partial_failure")].

Definition default_developer : value :=
  VDict [
    (vs "modules", VList [vs "backend"; vs "frontend"; vs "database"]);
    (vs "file_structure",
     VDict [
      (vs "backend/", vs "FastAPI application structure");
      (vs "frontend/", vs "React application structure");
      (vs "database/", vs "Database migration files")]);
    (vs "code_files",
     VDict [
      (vs "README.md",
       vs "# Project generated with parsing issues\nManual review required.");
      (vs "main.py",
       vs "# Basic FastAPI app\nfrom fastapi import FastAPI\napp = FastAPI()\n\n@app.get('/')\ndef read_root():\n    return {'Hello': 'World'}");
      (vs "requirements.txt", vs "fastapi\nuvicorn\nsqlalchemy\npsycopg2")]);
    (vs "dependencies", VList [vs "fastapi"; vs "react"; vs "postgresql"]);
    (vs "status", vs "partial_failure")].

Definition default_reviewer : value :=
  VDict [
    (vs "code_quality_score", VInt 0);
    (vs "issues",
     VList [vs "JSON parsing failed - manual code review required"]);
    (vs "suggestions",
     VList [vs "Fix JSON parsing issues"; vs "Manual code review needed"]);
    (vs "test_files",
     VDict [
      (vs "test_main.py",
       vs "import pytest\nfrom fastapi.testclient import TestClient\nfrom main import app\n\nclient = TestClient(app)\n\ndef test_read_root():\n    response = client.get('/')\n    assert response.status_code == 200\n    assert response.json() == {'Hello': 'World'}")]);
    (vs "security_report", vs "Parse failed - manual review needed");
    (vs "status", vs "partial_failure")].

Definition default_devops : value :=
  VDict [
    (vs "docker_files",
     VDict [
      (vs "Dockerfile",
       VStr (py "FROM python:3.9\nWORKDIR /app\nCOPY requirements.txt .\nRUN pip install -r requirements.txt\nCOPY . .\nEXPOSE 8000\nCMD [" ++ [dquote] ++ py "uvicorn" ++ [dquote] ++ py ", " ++ [dquote] ++ py "main:app" ++ [dquote] ++ py ", " ++ [dquote] ++ py "--host" ++ [dquote] ++ py ", " ++ [dquote] ++ py "0.0.0.0" ++ [dquote] ++ py ", " ++ [dquote] ++ py "--port" ++ [dquote] ++ py ", " ++ [dquote] ++ py "8000" ++ [dquote] ++ py "]"));
      (vs "docker-compose.yml",
       VStr (py "version: '3.8'\nservices:\n  web:\n    build: .\n    ports:\n      - " ++ [dquote] ++ py "8000:8000" ++ [dquote] ++ py "\n  db:\n    image: postgres:13\n    environment:\n      POSTGRES_DB: app\n      POSTGRES_USER: user\n      POSTGRES_PASSWORD: password"))]);
    (vs "ci_cd_config",
     VDict [
      (vs ".github/workflows/deploy.yml",
       vs "name: Deploy\non:\n  push:\n    branches: [main]\njobs:\n  deploy:\n    runs-on: ubuntu-latest\n    steps:\n      - uses: actions/checkout@v2\n      - name: Build and Deploy\n        run: |\n          docker build -t app .\n          docker run -d -p 8000:8000 app")]);
    (vs "k8s_manifests",
     VDict [
      (vs "deployment.yaml",
       vs "apiVersion: apps/v1\nkind: Deployment\nmetadata:\n  name: app\nspec:\n  replicas: 3\n  selector:\n    matchLabels:\n      app: app\n  template:\n    metadata:\n      labels:\n        app: app\n    spec:\n      containers:\n      - name: app\n        image: app:latest\n        ports:\n        - containerPort: 8000")]);
    (vs "deployment_guide", vs "Parse failed - manual review needed");
    (vs "status", vs "partial_failure")].

Definition default_unknown : value :=
  VDict [ (vs "error", vs "Unknown model"); (vs "status", vs "failure") ].

Definition planner : str := py "planner".
Definition architect : str := py "architect".
Definition developer : str := py "developer".
Definition reviewer : str := py "reviewer".
Definition devops : str := py "devops".

(** The keys of [system_prompts], in the order [setup_models] uses. *)
Definition role_names : list str := [planner; architect; developer; reviewer; devops].

Definition get_default_structure (model_name : str) : value :=
  if str_eqb model_name planner then default_planner
  else if str_eqb model_name architect then default_architect
  else if str_eqb model_name developer then default_developer
  else if str_eqb model_name reviewer then default_reviewer
  else if str_eqb model_name devops then default_devops
  else default_unknown.

(** ** [call_api] *)

(** What one call of the remote producer gives: the text of the response,
    or an exception, raised by the call or by reading the text of the
    response. *)
Inductive reply : Type :=
| Text (t : str)
| Fails.

(** [models]: the names [setup_models] gave a model to; [producer]: the
    outcome of the [i]-th remote call of the run. *)
Record GeminiAPIManager : Type := {
  models : list str;
  producer : nat -> reply
}.

(** [setup_models]: the [i]-th key goes to the [i]-th role; a sixth key
    raises. *)
Definition setup_models (api_keys : nat) : result (list str) :=
  if (api_keys <=? 5)%nat then Ok (firstn api_keys role_names)
  else Raise IndexError.

Definition mem (x : str) (l : list str) : bool := existsb (str_eqb x) l.

(** [model.generate_content(...)] and [response.text] *)
Definition generate_content (self : GeminiAPIManager) (model_name : str) : M str :=
  fun st =>
    let st' := {| context := context st;
                  trace := EvRemoteCall model_name :: trace st;
                  disk := disk st |} in
    match producer self (remote_calls (trace st)) with
    | Text t => (Ok t, st')
    | Fails => (Raise RemoteError, st')
    end.

(** The body of the [try] of one attempt: the parsed response, if any. *)
Definition attempt_body (self : GeminiAPIManager) (model_name : str) : M (option value) :=
  if negb (mem model_name role_names) then raise KeyError
  else if negb (mem model_name (models self)) then raise KeyError
  else
    text <- generate_content self model_name ;;
    let response_text := strip text in
    ret (parse_json_response response_text).

Definition sleep (seconds : N) : M unit := emit (EvSleep seconds).

(** The [for attempt in range(max_retries)] loop and what follows it. *)
Fixpoint call_api_loop (self : GeminiAPIManager) (model_name : str)
    (max_retries : nat) (attempts : list nat) : M value :=
  match attempts with
  | [] => ret (get_default_structure model_name)
  | attempt :: rest =>
      fun st =>
        match attempt_body self model_name st with
        | (Ok (Some result), st1) =>
            if truthy result then (Ok result, st1)
            else call_api_loop self model_name max_retries rest st1
        | (Ok None, st1) => call_api_loop self model_name max_retries rest st1
        | (Raise _, st1) =>
            if (attempt <? max_retries - 1)%nat
            then (sleep (2 ^ N.of_nat attempt) ;;;
                  call_api_loop self model_name max_retries rest) st1
            else (Ok (get_default_structure model_name), st1)
        end
  end.

Definition max_retries : nat := 3.

Definition call_api (self : GeminiAPIManager) (model_name : str) : M value :=
  call_api_loop self model_name max_retries (seq 0 max_retries).

End ApiManager.

(* ================================================================== *)
(** * [workflow.py] *)
(* ================================================================== *)

Module Workflow.

Import ApiManager.

Definition set_requirements (v : value) (c : ProjectContext) : ProjectContext :=
  {| project_name := project_name c; requirements := v;
     architecture := architecture c; codebase := codebase c;
     test_results := test_results c; deployment := deployment c;
     created_at := created_at c; current_stage := current_stage c |}.

Definition set_architecture (v : value) (c : ProjectContext) : ProjectContext :=
  {| project_name := project_name c; requirements := requirements c;
     architecture := v; codebase := codebase c;
     test_results := test_results c; deployment := deployment c;
     created_at := created_at c; current_stage := current_stage c |}.

Definition set_codebase (v : value) (c : ProjectContext) : ProjectContext :=
  {| project_name := project_name c; requirements := requirements c;
     architecture := architecture c; codebase := v;
     test_results := test_results c; deployment := deployment c;
     created_at := created_at c; current_stage := current_stage c |}.

Definition set_test_results (v : value) (c : ProjectContext) : ProjectContext :=
  {| project_name := project_name c; requirements := requirements c;
     architecture := architecture c; codebase := codebase c;
     test_results := v; deployment := deployment c;
     created_at := created_at c; current_stage := current_stage c |}.

Definition set_deployment (v : value) (c : ProjectContext) : ProjectContext :=
  {| project_name := project_name c; requirements := requirements c;
     architecture := architecture c; codebase := codebase c;
     test_results := test_results c; deployment := v;
     created_at := created_at c; current_stage := current_stage c |}.

Definition set_current_stage (v : value) (c : ProjectContext) : ProjectContext :=
  {| project_name := project_name c; requirements := requirements c;
     architecture := architecture c; codebase := codebase c;
     test_results := test_results c; deployment := deployment c;
     created_at := created_at c; current_stage := v |}.

(** [data.get(k)] and [data.get(k, default)] on the entries of the file. *)
Definition file_get (d : list (value * value)) (k : string) (default : value) : value :=
  match dict_lookup (vs k) d with
  | Some v => v
  | None => default
  end.

(** [load_existing_context]: without a file nothing happens; whatever
    [json.load] or the first [data.get] raises is caught, nothing having
    been assigned. *)
Definition load_existing_context : M unit :=
  fun st =>
    match disk st with
    | Some (Holds (VDict d)) =>
        let c := context st in
        (Ok tt,
         {| context :=
              {| project_name := project_name c;
                 requirements := file_get d "requirements" VNone;
                 architecture := file_get d "architecture" VNone;
                 codebase := file_get d "codebase" VNone;
                 test_results := file_get d "test_results" VNone;
                 deployment := file_get d "deployment" VNone;
                 created_at := created_at c;
                 current_stage := file_get d "current_stage" (vs "not_started") |};
            trace := trace st; disk := disk st |})
    | _ => (Ok tt, st)
    end.

(** [ProjectWorkflowManager.__init__] at the time [now], in a project
    directory whose context file is [disk0]. *)
Definition init (now : str) (name : str) (disk0 : option file) : State :=
  snd (load_existing_context
         {| context := new_context now name; trace := []; disk := disk0 |}).

(** [save_context]: the file is overwritten with the context. *)
Definition save_context : M unit :=
  fun st =>
    (Ok tt, {| context := context st;
               trace := EvSaveContext (context st) :: trace st;
               disk := Some (Holds (asdict (context st))) |}).

Definition save_stage_output (s : stage) (data : value) : M unit :=
  emit (EvStageOutput s data).

(** Entering a stage method: the event, then [current_stage]. *)
Definition enter (s : stage) (name : string) : M unit :=
  c <- get_context ;;
  emit (EvStage s c) ;;;
  modify_context (set_current_stage (vs name)).

Section Stages.

Variable api_manager : GeminiAPIManager.

Definition stage_1_requirements : M value :=
  enter Requirements "requirements" ;;;
  result <- call_api api_manager planner ;;
  modify_context (set_requirements result) ;;;
  save_stage_output Requirements result ;;;
  save_context ;;;
  ret result.

Definition stage_2_architecture : M value :=
  enter Architecture "architecture" ;;;
  result <- call_api api_manager architect ;;
  modify_context (set_architecture result) ;;;
  save_stage_output Architecture result ;;;
  save_context ;;;
  ret result.

(** *** Stage 3 *)

Definition default_modules : value :=
  VList [vs "backend"; vs "frontend"; vs "database"].

Definition generate_module_code (module_name : value) : M value :=
  call_api api_manager developer.

(** [asyncio.gather] with [return_exceptions=True]: every task runs,
    an exception becomes the result of its task.  The tasks are run one
    after the other; they only share the remote producer.  The [except]
    around the call is not reachable by an exception of a task. *)
Fixpoint gather (tasks : list (M value)) : M (list (result value)) :=
  match tasks with
  | [] => ret []
  | task :: rest =>
      fun st =>
        let (r, st1) := task st in
        match gather rest st1 with
        | (Ok rs, st2) => (Ok (r :: rs), st2)
        | (Raise e, st2) => (Raise e, st2)
        end
  end.

(** One order [list(set(l))] can have: the first occurrences, in order. *)
Fixpoint py_list_set (l : list value) : list value :=
  match l with
  | [] => []
  | x :: l' => x :: filter (fun y => negb (value_eqb x y)) (py_list_set l')
  end.

(** [list(set(l))]: the distinct elements of [l], in the order in which
    the interpreter iterates over the set.  Python leaves that order
    unspecified (it changes from run to run for strings), so the stages
    take it as a parameter. *)
Variable list_of_set : list value -> list value.

(** The loop that combines the results: [mods], [deps] and [status] are
    the entries [modules], [dependencies] and [status] of
    [combined_result]. *)
Fixpoint combine_loop (modules : list value) (results : list (result value))
    (mods : list (value * value)) (deps : list value) (status : value)
  : result (list (value * value) * list value * value) :=
  match modules with
  | [] => Ok (mods, deps, status)
  | module :: modules' =>
      match results with
      | [] => Raise IndexError
      | Raise _ :: results' =>
          if hashable module
          then combine_loop modules' results'
                 (dict_set module (get_default_structure developer) mods)
                 deps (vs "partial_failure")
          else Raise TypeError
      | Ok r :: results' =>
          if hashable module then
            match py_get r (py "dependencies") (VList []) with
            | Raise e => Raise e
            | Ok module_deps =>
                match py_iter module_deps with
                | Raise e => Raise e
                | Ok l => combine_loop modules' results'
                            (dict_set module r mods) (deps ++ l) status
                end
            end
          else Raise TypeError
      end
  end.

Definition combine (modules : list value) (results : list (result value))
  : result value :=
  match combine_loop modules results [] [] (vs "completed") with
  | Raise e => Raise e
  | Ok (mods, deps, status) =>
      if forallb hashable deps
      then Ok (VDict [ (vs "modules", VDict mods);
                       (vs "file_structure", VDict []);
                       (vs "dependencies", VList (list_of_set deps));
                       (vs "status", status) ])
      else Raise TypeError
  end.

(** Writing [files.items()]: a path and a content must be strings. *)
Fixpoint write_files (files : list (value * value)) : result unit :=
  match files with
  | [] => Ok tt
  | (VStr _, VStr _) :: rest => write_files rest
  | _ :: _ => Raise TypeError
  end.

(** The loop of [create_code_files] over the items of the [modules]
    entry. *)
Fixpoint create_code_files_loop (mods : list (value * value)) : result unit :=
  match mods with
  | [] => Ok tt
  | (VStr _, module_data) :: rest =>
      match py_in (py "code_files") module_data with
      | Raise e => Raise e
      | Ok false => create_code_files_loop rest
      | Ok true =>
          match py_getitem module_data (py "code_files") with
          | Raise e => Raise e
          | Ok (VDict files) =>
              match write_files files with
              | Raise e => Raise e
              | Ok _ => create_code_files_loop rest
              end
          | Ok _ => Raise AttributeError
          end
      end
  | _ :: _ => Raise TypeError
  end.

Definition create_code_files (codebase_data : value) : result unit :=
  match py_get codebase_data (py "modules") (VDict []) with
  | Raise e => Raise e
  | Ok (VDict mods) => create_code_files_loop mods
  | Ok _ => Raise AttributeError
  end.

(** The stage over any way of generating one module. *)
Definition stage_3_with (generate : value -> M value) : M value :=
  enter Code "code" ;;;
  c <- get_context ;;
  modules <- lift (py_get (architecture c) (py "modules") default_modules) ;;
  modules <- lift (py_iter modules) ;;
  results <- gather (map generate modules) ;;
  combined_result <- lift (combine modules results) ;;
  modify_context (set_codebase combined_result) ;;;
  save_stage_output Code combined_result ;;;
  lift (create_code_files combined_result) ;;;
  save_context ;;;
  ret combined_result.

Definition stage_3_code_generation : M value :=
  stage_3_with generate_module_code.

(** *** Stages 4 and 5 *)

Definition create_test_files (test_data : value) : result unit :=
  match test_data with
  | VDict files => write_files files
  | _ => Raise AttributeError
  end.

Definition stage_4_review_and_test : M value :=
  enter Review "review" ;;;
  result <- call_api api_manager reviewer ;;
  modify_context (set_test_results result) ;;;
  save_stage_output Review result ;;;
  has <- lift (py_in (py "test_files") result) ;;
  (if has : bool
   then test_files <- lift (py_getitem result (py "test_files")) ;;
        lift (create_test_files test_files)
   else ret tt) ;;;
  save_context ;;;
  ret result.

(** [create_deployment_files_safe]: writing a file is guarded, looking the
    three keys up is not. *)
Fixpoint create_deployment_files_safe_loop (keys : list str) (deployment_data : value)
  : result unit :=
  match keys with
  | [] => Ok tt
  | data_key :: rest =>
      match py_in data_key deployment_data with
      | Raise e => Raise e
      | Ok false => create_deployment_files_safe_loop rest deployment_data
      | Ok true =>
          match py_getitem deployment_data data_key with
          | Raise e => Raise e
          | Ok _ => create_deployment_files_safe_loop rest deployment_data
          end
      end
  end.

Definition create_deployment_files_safe (deployment_data : value) : result unit :=
  create_deployment_files_safe_loop
    [py "docker_files"; py "ci_cd_config"; py "k8s_manifests"] deployment_data.

Definition stage_5_deployment : M value :=
  enter Deployment "deployment" ;;;
  result <- call_api api_manager devops ;;
  modify_context (set_deployment result) ;;;
  save_stage_output Deployment result ;;;
  lift (create_deployment_files_safe result) ;;;
  save_context ;;;
  ret result.

(** *** The entry points *)

(** [not user_input] *)
Definition no_input (user_input : option str) : bool :=
  match user_input with
  | None => true
  | Some [] => true
  | Some (_ :: _) => false
  end.

Definition missing_input : exn :=
  ValueError (py "User input required for requirements stage").

(** [if not self.context.<field>: await <stage>] *)
Definition unless_present (field : ProjectContext -> value) (run : M value) : M unit :=
  c <- get_context ;;
  if negb (truthy (field c)) then run ;;; ret tt else ret tt.

Definition resume_workflow (user_input : option str) : M ProjectContext :=
  c <- get_context ;;
  (if negb (truthy (requirements c))
   then if no_input user_input then raise missing_input
        else stage_1_requirements ;;; ret tt
   else ret tt) ;;;
  unless_present architecture stage_2_architecture ;;;
  unless_present codebase stage_3_code_generation ;;;
  unless_present test_results stage_4_review_and_test ;;;
  unless_present deployment stage_5_deployment ;;;
  modify_context (set_current_stage (vs "completed")) ;;;
  save_context ;;;
  get_context.

(** [try: c  except Exception: h; raise] *)
Definition on_exception {A} (c : M A) (h : M unit) : M A :=
  fun st =>
    match c st with
    | (Ok a, st') => (Ok a, st')
    | (Raise e, st') =>
        match h st' with
        | (Ok _, st'') => (Raise e, st'')
        | (Raise e', st'') => (Raise e', st'')
        end
    end.

Definition run_full_workflow (user_input : option str) : M ProjectContext :=
  on_exception
    (c <- get_context ;;
     if negb (value_eqb (current_stage c) (vs "not_started"))
     then resume_workflow user_input
     else
       stage_1_requirements ;;;
       stage_2_architecture ;;;
       stage_3_code_generation ;;;
       stage_4_review_and_test ;;;
       stage_5_deployment ;;;
       modify_context (set_current_stage (vs "completed")) ;;;
       save_context ;;;
       get_context)
    save_context.

End Stages.

End Workflow.

(* ================================================================== *)
(** * Vocabulary of the properties *)
(* ================================================================== *)

Import ApiManager Workflow.

Unset Implicit Arguments.

(** The events [call_api] can add to a trace. *)
Definition api_event (e : event) : Prop :=
  match e with
  | EvRemoteCall _ | EvSleep _ => True
  | _ => False
  end.

(** A scanner makes progress when what it leaves is shorter than what it
    was given. *)
Definition progresses (scan : str -> option (value * str)) : Prop :=
  forall s v r, scan s = Some (v, r) -> (length r < length s)%nat.

(** The [i]-th remote call gives nothing usable: it raises, or no strategy
    parses its text. *)
Definition fails (self : GeminiAPIManager) (i : nat) : Prop :=
  match producer self i with
  | Fails => True
  | Text t => parse_json_response (strip t) = None
  end.

(** The [i]-th remote call raises. *)
Definition raised (self : GeminiAPIManager) (i : nat) : bool :=
  match producer self i with
  | Fails => true
  | Text _ => false
  end.

(** The text of the [i]-th remote call parses to a truthy value. *)
Definition parsed (self : GeminiAPIManager) (i : nat) : bool :=
  match producer self i with
  | Fails => false
  | Text t => match parse_json_response (strip t) with
              | Some _ => true
              | None => false
              end
  end.

(** An interior wrapped in a fenced block, with or without the tag. *)
Definition fenced (tagged : bool) (interior : str) : str :=
  (if tagged then fence_json else fence) ++ [newline] ++ interior ++ [newline] ++ fence.

(** The context field that holds the result of a stage. *)
Definition field_of (s : stage) : ProjectContext -> value :=
  match s with
  | Requirements => requirements
  | Architecture => architecture
  | Code => codebase
  | Review => test_results
  | Deployment => deployment
  end.

(** The stage before a stage. *)
Definition previous (s : stage) : option stage :=
  match s with
  | Requirements => None
  | Architecture => Some Requirements
  | Code => Some Architecture
  | Review => Some Code
  | Deployment => Some Review
  end.

(** The stages a trace entered, in the order they were entered. *)
Fixpoint stages_entered (t : list event) : list stage :=
  match t with
  | [] => []
  | EvStage s _ :: t' => stages_entered t' ++ [s]
  | _ :: t' => stages_entered t'
  end.

(** A stage is entered only with the result of the stage before it in the
    context. *)
Definition entry_ok (e : event) : Prop :=
  match e with
  | EvStage s c => match previous s with
                   | Some p => field_of p c <> VNone
                   | None => True
                   end
  | _ => True
  end.

Definition not_value_error (e : exn) : Prop :=
  match e with
  | ValueError _ => False
  | _ => True
  end.

Definition is_str (v : value) : bool :=
  match v with
  | VStr _ => true
  | _ => false
  end.

(** An optional entry that is a list of strings. *)
Definition strings (v : option value) : bool :=
  match v with
  | None => true
  | Some (VList l) => forallb is_str l
  | Some _ => false
  end.

(** An optional entry that maps paths to texts. *)
Definition texts (v : option value) : bool :=
  match v with
  | None => true
  | Some (VDict files) =>
      forallb (fun kv => is_str (fst kv) && is_str (snd kv)) files
  | Some _ => false
  end.

(** A record of the developer role as the code generation stage consumes
    it: a dictionary whose [dependencies], when present, are a list of
    strings and whose [code_files], when present, map paths to texts. *)
Definition module_record (r : value) : bool :=
  match r with
  | VDict d => strings (dict_lookup (vs "dependencies") d) &&
               texts (dict_lookup (vs "code_files") d)
  | _ => false
  end.

(** A record as the stages consume the results of all roles: moreover its
    [modules], when present, are a list of strings and its [test_files],
    when present, map paths to texts. *)
Definition well_formed (r : value) : bool :=
  match r with
  | VDict d => strings (dict_lookup (vs "modules") d) &&
               texts (dict_lookup (vs "test_files") d) &&
               module_record r
  | _ => false
  end.

(** The items of the [modules] entry while the results are combined: the
    names are strings and the records well-formed. *)
Definition module_items (mods : list (value * value)) : Prop :=
  Forall (fun kv => is_str (fst kv) = true /\ module_record (snd kv) = true) mods.

(** A producer each of whose calls fails or gives a text that parses to a
    well-formed record. *)
Definition tame (self : GeminiAPIManager) : Prop :=
  forall i, match producer self i with
            | Fails => True
            | Text t => match parse_json_response (strip t) with
                        | None => True
                        | Some r => well_formed r = true
                        end
            end.

(** The code generation stage has nothing to read from an architecture it
    cannot use: the code base is there, or the architecture is still to be
    produced, or it is a well-formed record. *)
Definition architecture_usable (c : ProjectContext) : Prop :=
  truthy (codebase c) = true \/ truthy (architecture c) = false \/
  well_formed (architecture c) = true.

(** All five stage results are there, as [resume_workflow] tests them. *)
Definition all_results (c : ProjectContext) : Prop :=
  truthy (requirements c) = true /\ truthy (architecture c) = true /\
  truthy (codebase c) = true /\ truthy (test_results c) = true /\
  truthy (deployment c) = true.

(** What every step of a run guarantees between the state it starts in and
    the state it leaves: the trace only grows, by events that respect the
    order of the stages; a stage result that is there stays there; the
    name and the creation time of the context do not change. *)
Record advances (st st' : State) : Prop := {
  adv_trace : exists new, trace st' = new ++ trace st /\ Forall entry_ok new;
  adv_requirements : truthy (requirements (context st)) = true ->
                     truthy (requirements (context st')) = true;
  adv_architecture : truthy (architecture (context st)) = true ->
                     truthy (architecture (context st')) = true;
  adv_codebase : truthy (codebase (context st)) = true ->
                 truthy (codebase (context st')) = true;
  adv_test_results : truthy (test_results (context st)) = true ->
                     truthy (test_results (context st')) = true;
  adv_deployment : truthy (deployment (context st)) = true ->
                   truthy (deployment (context st')) = true;
  adv_created_at : created_at (context st') = created_at (context st);
  adv_project_name : project_name (context st') = project_name (context st)
}.

(** A computation started in [st] ends in a state that [advances] [st],
    with [Q] of its result and that state. *)
Definition spec {A} (c : M A) (st : State) (Q : result A -> State -> Prop) : Prop :=
  forall r st', c st = (r, st') -> advances st st' /\ Q r st'.

(** What a stage guarantees on return: its field holds a result; what it
    raises, if it raises, is not a [ValueError]. *)
Definition stage_post (s : stage) : result value -> State -> Prop :=
  fun r st' =>
    match r with
    | Ok _ => truthy (field_of s (context st')) = true
    | Raise e => not_value_error e
    end.

(** What [resume_workflow], started in [st] with [input], guarantees. *)
Definition resume_post (st : State) (input : option str)
  : result ProjectContext -> State -> Prop :=
  fun r st' =>
    match r with
    | Ok c => c = context st' /\ all_results (context st') /\
              current_stage (context st') = vs "completed" /\
              disk st' = Some (Holds (asdict (context st')))
    | Raise e => (e = missing_input /\ st' = st /\
                  truthy (requirements (context st)) = false /\
                  no_input input = true) \/
                 not_value_error e
    end.

(** The code base the code generation stage builds when every remote call
    fails: the three default modules, each with the default record of the
    developer role. *)
Definition degraded_codebase (order : list value -> list value) : value :=
  VDict [ (vs "modules",
           VDict [ (vs "backend", default_developer);
                   (vs "frontend", default_developer);
                   (vs "database", default_developer) ]);
          (vs "file_structure", VDict []);
          (vs "dependencies",
           VList (order [vs "fastapi"; vs "react"; vs "postgresql";
                         vs "fastapi"; vs "react"; vs "postgresql";
                         vs "fastapi"; vs "react"; vs "postgresql"]));
          (vs "status", vs "completed") ].

(** The context a resumed run ends with when every remote call fails: a
    result that was there is kept, one that was missing is the default
    record. *)
Definition degraded (order : list value -> list value) (c : ProjectContext)
  : ProjectContext :=
  {| project_name := project_name c;
     requirements := if truthy (requirements c) then requirements c
                     else default_planner;
     architecture := if truthy (architecture c) then architecture c
                     else default_architect;
     codebase := if truthy (codebase c) then codebase c
                 else degraded_codebase order;
     test_results := if truthy (test_results c) then test_results c
                     else default_reviewer;
     deployment := if truthy (deployment c) then deployment c
                   else default_devops;
     created_at := created_at c;
     current_stage := vs "completed" |}.


(** ** Managers and states of the examples *)

(** A producer that raises at every call. *)
Definition silent_manager : GeminiAPIManager :=
  {| models := role_names; producer := fun _ => Fails |}.

(** A producer whose texts never parse. *)
Definition babbling_manager : GeminiAPIManager :=
  {| models := role_names; producer := fun _ => Text (py "no json here") |}.

(** A producer that answers the planner with a record and everyone after
    with a well-formed text that is a list. *)
Definition list_manager : GeminiAPIManager :=
  {| models := role_names;
     producer := fun i => match i with
                          | O => Text (pyq "{'requirements': ['a shop']}")
                          | S _ => Text (py "[1]")
                          end |}.

(** A new project. *)
Definition fresh_state : State :=
  {| context := new_context (py "2025-01-01T00:00:00") (py "shop");
     trace := []; disk := None |}.

(** A project whose five stages have run, degraded. *)
Definition finished_state : State :=
  {| context := degraded py_list_set (context fresh_state);
     trace := []; disk := Some (Holds (asdict (degraded py_list_set (context fresh_state)))) |}.

(** A project with an architecture of three modules, and a way of
    generating them in which the second one raises. *)
Definition three_modules_state : State :=
  {| context :=
       {| project_name := py "shop"; requirements := default_planner;
          architecture := VDict [(vs "modules", VList [vs "api"; vs "web"; vs "db"])];
          codebase := VNone; test_results := VNone; deployment := VNone;
          created_at := vs "2025-01-01T00:00:00"; current_stage := vs "architecture" |};
     trace := []; disk := None |}.

Definition api_record : value :=
  VDict [ (vs "dependencies", VList [vs "fastapi"]);
          (vs "code_files", VDict [(vs "main.py", vs "app = 1")]) ].

Definition db_record : value :=
  VDict [ (vs "dependencies", VList [vs "postgresql"; vs "fastapi"]) ].

Definition second_fails (module_name : value) : M value :=
  if value_eqb module_name (vs "api") then ret api_record
  else if value_eqb module_name (vs "web") then raise RemoteError
  else ret db_record.
(* ================================================================== *)
(** * Further vocabulary *)
(* ================================================================== *)

(** What the [i]-th remote call gives [call_api]: the value its text parses
    to, if it returns a text and a strategy parses it. *)
Definition answer (self : GeminiAPIManager) (i : nat) : option value :=
  match producer self i with
  | Text t => parse_json_response (strip t)
  | Fails => None
  end.

(** ** The stages of a run *)

(** The stages in the order the workflow runs them. *)
Definition all_stages : list stage :=
  [Requirements; Architecture; Code; Review; Deployment].

(** The method of a stage. *)
Definition stage_method (api : GeminiAPIManager) (order : list value -> list value)
    (s : stage) : M value :=
  match s with
  | Requirements => stage_1_requirements api
  | Architecture => stage_2_architecture api
  | Code => stage_3_code_generation api order
  | Review => stage_4_review_and_test api
  | Deployment => stage_5_deployment api
  end.

(** What a stage method writes into [current_stage]. *)
Definition stage_name (s : stage) : value :=
  match s with
  | Requirements => vs "requirements"
  | Architecture => vs "architecture"
  | Code => vs "code"
  | Review => vs "review"
  | Deployment => vs "deployment"
  end.

(** The result of a stage is missing, as [resume_workflow] tests it. *)
Definition missing (c : ProjectContext) (s : stage) : bool :=
  negb (truthy (field_of s c)).

(** The number of modules the code generation stage generates from an
    architecture: the length of its [modules] entry, three when it has
    none; no module is generated when the stage cannot read the entry. *)
Definition module_count (arch : value) : nat :=
  match py_get arch (py "modules") default_modules with
  | Ok modules => match py_iter modules with
                  | Ok names => length names
                  | Raise _ => 0
                  end
  | Raise _ => 0
  end.

(** The remote calls a stage entered with the context [c] can make: three
    attempts, for each module in the code generation stage. *)
Definition call_budget (s : stage) (c : ProjectContext) : nat :=
  match s with
  | Code => 3 * module_count (architecture c)
  | _ => 3
  end.

(** What running the method of stage [s] from [st] does, [r] being its
    outcome and [st'] the state it leaves: the stage is entered first and
    no other stage is; the remote calls are within the budget; the results
    of the other stages are left alone; its own result is the old one or a
    truthy one; when the method returns, its result is what it returns, a
    truthy value, and the context file holds the context; and, no write
    failing, what it raises, if it raises, is not a [ValueError]. *)
Record stage_effect (s : stage) (st : State) (r : result value) (st' : State)
  : Prop := {
  se_trace : exists new, trace st' = new ++ EvStage s (context st) :: trace st /\
                         stages_entered new = [] /\
                         remote_calls new <= call_budget s (context st);
  se_others : forall s', s' <> s ->
                field_of s' (context st') = field_of s' (context st);
  se_field : field_of s (context st') = field_of s (context st) \/
             truthy (field_of s (context st')) = true;
  se_ok : forall v, r = Ok v ->
            field_of s (context st') = v /\ truthy v = true /\
            current_stage (context st') = stage_name s /\
            disk st' = Some (Holds (asdict (context st')));
  se_raise : forall e, r = Raise e -> not_value_error e
}.

(** What a run that entered the stages [l], in this order, does between
    the state [st] it starts in and the state [st'] it leaves. *)
Record run_effect (l : list stage) (st st' : State) : Prop := {
  re_trace : exists new, trace st' = new ++ trace st /\
                         stages_entered new = l /\
                         remote_calls new <=
                           list_sum (map (fun s => call_budget s (context st')) l);
  re_others : forall s, ~ In s l ->
                field_of s (context st') = field_of s (context st);
  re_fields : forall s, field_of s (context st') = field_of s (context st) \/
                        truthy (field_of s (context st')) = true
}.

(** ** The results of the module tasks *)

(** The record the code generation stage keeps for a task: what the task
    returned, or the default record of the developer role when it raised. *)
Definition settled (r : result value) : value :=
  match r with
  | Ok v => v
  | Raise _ => get_default_structure developer
  end.

Definition raised_task (r : result value) : bool :=
  match r with
  | Raise _ => true
  | Ok _ => false
  end.

(** The dependencies the result of a task adds to those of the code
    base. *)
Definition dependencies_of (r : result value) : list value :=
  match r with
  | Ok (VDict d) => match dict_lookup (vs "dependencies") d with
                    | Some (VList l) => l
                    | _ => []
                    end
  | _ => []
  end.

(** ** File names of the deployment stage *)

(** The characters [create_deployment_files_safe] replaces in a file
    name: the class of its pattern, that is the angle brackets, the colon,
    the double quote, the slash, the backslash, the bar, the question mark
    and the star. *)
Definition unsafe_char (c : char) : bool :=
  existsb (N.eqb c) [60; 62; 58; 34; 47; 92; 124; 63; 42]%N.

(** [re.sub] of that class by an underscore. *)
Definition safe_file_name (file_name : str) : str :=
  map (fun c => if unsafe_char c then 95%N else c) file_name.

(** ** Values as a decoder builds them *)

(** No key occurs twice. *)
Fixpoint distinct (keys : list value) : bool :=
  match keys with
  | [] => true
  | k :: keys' => negb (existsb (value_eqb k) keys') && distinct keys'
  end.

(** A value as [json.loads] builds them: the keys of every dictionary in
    it are strings, and no dictionary has a key twice. *)
Fixpoint proper (v : value) : bool :=
  match v with
  | VList l => forallb proper l
  | VDict d => forallb (fun kv => is_str (fst kv) && proper (snd kv)) d &&
               distinct (map fst d)
  | _ => true
  end.

(** The key of the context file under which the result of a stage is
    saved: the name of its field. *)
Definition stage_key (s : stage) : value :=
  match s with
  | Requirements => vs "requirements"
  | Architecture => vs "architecture"
  | Code => vs "codebase"
  | Review => vs "test_results"
  | Deployment => vs "deployment"
  end.

(** ** Runs *)

(** What [resume_workflow] does: it raises for want of an input before
    anything happens, or it runs, in their order, the stages whose results
    were missing at the start, up to the one that raises if one does. *)
Definition resume_effect (input : option str) (st : State)
    (r : result ProjectContext) (st' : State) : Prop :=
  (r = Raise missing_input /\ st' = st /\
   missing (context st) Requirements = true /\ no_input input = true) \/
  (exists P rest, all_stages = P ++ rest /\
     run_effect (filter (missing (context st)) P) st st' /\
     (forall c, r = Ok c -> rest = [] /\ c = context st' /\
                            current_stage c = vs "completed" /\
                            disk st' = Some (Holds (asdict c)))).

(** What the body of [run_full_workflow] does on a context that has not
    started: it runs the stages in order, up to the one that raises if one
    does. *)
Definition first_run_effect (st : State) (r : result ProjectContext) (st' : State)
  : Prop :=
  exists n, 1 <= n /\ run_effect (firstn n all_stages) st st' /\
            (forall e, r = Raise e -> not_value_error e) /\
            (forall c, r = Ok c -> n = 5 /\ c = context st' /\
                                   current_stage c = vs "completed" /\
                                   disk st' = Some (Holds (asdict c))).

(** ** Scanners *)

(** Every value a scanner returns is proper. *)
Definition scans_proper (scan : str -> option (value * str)) : Prop :=
  forall s v r, scan s = Some (v, r) -> proper v = true.

Definition proper_items (d : list (value * value)) : bool :=
  forallb (fun kv => is_str (fst kv) && proper (snd kv)) d.

(* ------------------------------------------------------------------ *)
(** ** [json.dumps]

    The encoder of Python's standard library as [save_context] calls it,
    with [indent=2] and [ensure_ascii=False]: items on lines of their own,
    indented by two spaces for each level; a comma between items, a colon
    and a space after a key; characters written as they are, except the
    double quote, the backslash and the control characters below the
    space, which are escaped.  A key that is not a string is written as
    the string of its text.  The text of a float is the shortest decimal
    that reads back as the same float, which is a matter of the
    interpreter's arithmetic: the encoder takes it as a parameter. *)

Module JsonEncoder.

Local Open Scope N_scope.

(** The number of binary digits of a positive number: enough fuel for its
    decimal digits. *)
Fixpoint bits (p : positive) : nat :=
  match p with
  | xH => 1
  | xO p' | xI p' => S (bits p')
  end.

(** The decimal digits of [n] in front of [acc]. *)
Fixpoint digits_fuel (fuel : nat) (n : N) (acc : str) : str :=
  match fuel with
  | O => acc
  | S fuel' =>
      let acc' := 48 + n mod 10 :: acc in
      if n <? 10 then acc' else digits_fuel fuel' (n / 10) acc'
  end.

Definition digits (p : positive) : str := digits_fuel (bits p) (Npos p) [].

(** [int.__repr__], for the integers that CPython converts: it raises a
    [ValueError] beyond 4300 digits, a limit that statements about
    integers carry as a hypothesis. *)
Definition int_str (z : Z) : str :=
  match z with
  | Z0 => [48]
  | Zpos p => digits p
  | Zneg p => 45 :: digits p
  end.

Definition hex_char (d : N) : char := if d <? 10 then 48 + d else 87 + d.

(** What [encode_basestring] writes for one character. *)
Definition escape_char (c : char) : str :=
  if c =? 34 then [92; 34]
  else if c =? 92 then [92; 92]
  else if c =? 10 then [92; 110]
  else if c =? 13 then [92; 114]
  else if c =? 9 then [92; 116]
  else if c =? 12 then [92; 102]
  else if c =? 8 then [92; 98]
  else if c <? 32 then [92; 117; 48; 48; hex_char (c / 16); hex_char (c mod 16)]
  else [c].

Definition encode_basestring (s : str) : str :=
  34 :: flat_map escape_char s ++ [34].

(** A line feed and the indentation of a level. *)
Definition newline_indent (level : nat) : str :=
  10 :: repeat 32 (2 * level).

Section Encoder.

(** [float.__repr__] of the float read from the decimal [m * 10^e], with
    its sign. *)
Variable float_repr : bool -> N -> Z -> str.

(** The text of a scalar, [None] for a list or a dictionary. *)
Definition scalar_text (v : value) : option str :=
  match v with
  | VNone => Some (py "null")
  | VBool true => Some (py "true")
  | VBool false => Some (py "false")
  | VInt z => Some (int_str z)
  | VFloat neg m e => Some (float_repr neg m e)
  | VNaN => Some (py "NaN")
  | VInf false => Some (py "Infinity")
  | VInf true => Some (py "-Infinity")
  | VStr _ | VList _ | VDict _ => None
  end.

(** The string a key is written as: a string as it is, a number, a truth
    value or [None] as its text. *)
Definition key_text (k : value) : result str :=
  match k with
  | VStr s => Ok s
  | _ => match scalar_text k with
         | Some t => Ok t
         | None => Raise TypeError
         end
  end.

(** The texts of the items of a list, [enc] being the encoder of an
    item. *)
Fixpoint encode_all (enc : value -> result str) (l : list value)
  : result (list str) :=
  match l with
  | [] => Ok []
  | x :: l' =>
      match enc x with
      | Raise e => Raise e
      | Ok t => match encode_all enc l' with
                | Raise e => Raise e
                | Ok ts => Ok (t :: ts)
                end
      end
  end.

(** The texts of the members of a dictionary: the key, a colon and a
    space, the value. *)
Fixpoint encode_members (enc : value -> result str) (d : list (value * value))
  : result (list str) :=
  match d with
  | [] => Ok []
  | (k, x) :: d' =>
      match key_text k with
      | Raise e => Raise e
      | Ok key =>
          match enc x with
          | Raise e => Raise e
          | Ok t => match encode_members enc d' with
                    | Raise e => Raise e
                    | Ok ts => Ok ((encode_basestring key ++ [58; 32] ++ t) :: ts)
                    end
          end
      end
  end.

(** The items of a list or a dictionary between its brackets, each on a
    line of its own. *)
Definition bracketed (level : nat) (opening closing : char) (ts : list str) : str :=
  [opening] ++ newline_indent (S level) ++
  join (44 :: newline_indent (S level)) ts ++
  newline_indent level ++ [closing].

(** The text of a value whose opening bracket stands at [level]. *)
Fixpoint encode (level : nat) (v : value) {struct v} : result str :=
  match v with
  | VStr s => Ok (encode_basestring s)
  | VList [] => Ok (py "[]")
  | VList l =>
      match encode_all (encode (S level)) l with
      | Raise e => Raise e
      | Ok ts => Ok (bracketed level 91 93 ts)
      end
  | VDict [] => Ok (py "{}")
  | VDict d =>
      match encode_members (encode (S level)) d with
      | Raise e => Raise e
      | Ok ts => Ok (bracketed level 123 125 ts)
      end
  | _ => match scalar_text v with
         | Some t => Ok t
         | None => Raise TypeError
         end
  end.

(** [json.dumps(v, indent=2, ensure_ascii=False)] *)
Definition dumps (v : value) : result str := encode 0 v.

End Encoder.

End JsonEncoder.










(* ------------------------------------------------------------------ *)
(** ** The limits of the interpreter *)








(* ------------------------------------------------------------------ *)
(** ** A run in which every call fails, on an architecture that is there *)

(** The names over which the code generation stage iterates: the
    [modules] entry of the architecture, the three default names when it
    has none. *)
Definition module_names (arch : value) : list value :=
  match py_get arch (py "modules") default_modules with
  | Ok modules => match py_iter modules with
                  | Ok names => names
                  | Raise _ => []
                  end
  | Raise _ => []
  end.

(** The [dependencies] of the default record of the developer role. *)
Definition default_dependencies : list value :=
  [vs "fastapi"; vs "react"; vs "postgresql"].

(** The code base the code generation stage builds for the modules
    [names] when every remote call fails: each name has the default
    record of the developer role (a name that occurs twice has one
    entry), and the dependencies of that record are added once for each
    name before [list(set(...))]. *)
Definition degraded_codebase_of (order : list value -> list value)
    (names : list value) : value :=
  VDict [ (vs "modules",
           VDict (fold_left (fun d name => dict_set name default_developer d)
                            names []));
          (vs "file_structure", VDict []);
          (vs "dependencies",
           VList (order (flat_map (fun _ => default_dependencies) names)));
          (vs "status", vs "completed") ].

(** The context a resumed run ends with when every remote call fails: a
    result that was there is kept, one that was missing is the default
    record of its role; the code base, when it was missing, is built for
    the modules of the architecture, the one that was there or else the
    default one. *)
Definition degraded_from (order : list value -> list value) (c : ProjectContext)
  : ProjectContext :=
  {| project_name := project_name c;
     requirements := if truthy (requirements c) then requirements c
                     else default_planner;
     architecture := if truthy (architecture c) then architecture c
                     else default_architect;
     codebase := if truthy (codebase c) then codebase c
                 else degraded_codebase_of order
                        (module_names (if truthy (architecture c)
                                       then architecture c
                                       else default_architect));
     test_results := if truthy (test_results c) then test_results c
                     else default_reviewer;
     deployment := if truthy (deployment c) then deployment c
                   else default_devops;
     created_at := created_at c;
     current_stage := vs "completed" |}.

(* ------------------------------------------------------------------ *)
(** ** [list(set(...))] *)

(** What Python guarantees of the order [list(set(l))] lists a list of
    strings in: each string of [l] is listed, once, and nothing else. *)
Definition set_order (order : list value -> list value) : Prop :=
  forall l, forallb is_str l = true ->
            NoDup (order l) /\ forall x, In x (order l) <-> In x l.

(* ================================================================== *)
(** * Properties of [api_manager.py] *)
(* ================================================================== *)

(** ** The parser on the two scenario texts *)

(** C10: the text of the empty record is well-formed, every strategy that
    parses it gives the empty record, which is falsy, and so
    [parse_json_response] reports absence; whatever [parse_json_response]
    does return is truthy, a record among these being non-empty. *)
Theorem parse_json_response_empty_record :
  Json.loads (py "{}") = Ok (VDict []) /\
  map (fun strategy => strategy (py "{}")) parsing_strategies =
    [ Ok (VDict []); Raise (ValueError (py "No markdown JSON found"));
      Ok (VDict []); Ok (VDict []) ] /\
  truthy (VDict []) = false /\
  parse_json_response (py "{}") = None /\
  (forall text, match parse_json_response text with
                | Some (VDict d) => d <> []
                | Some r => truthy r = true
                | None => True
                end).
Proof.
  repeat split; try reflexivity.
  intros text. unfold parse_json_response.
  induction parsing_strategies as [|f l IH]; simpl; [exact I|].
  destruct (f text) as [r|e]; [|exact IH].
  destruct (truthy r) eqn:T; [|exact IH].
  destruct r; try exact T. destruct d; [discriminate T|discriminate].
Qed.

(** C7: on the text of the scenario the repair pass does drop the trailing
    comma, and the text would parse after that step; the step that escapes
    quotes then puts a backslash before the opening quote of the key, and
    [json.loads] refuses the result.  The strategy raises, and so does the
    whole parser report absence. *)
Theorem line_by_line_trailing_comma :
  let text := pyq "{'a':1,}" in
  strip_trailing_commas text = pyq "{'a':1}" /\
  Json.loads (strip_trailing_commas text) = Ok (VDict [(vs "a", VInt 1)]) /\
  fix_common_json_issues text = [lbrace; backslash] ++ pyq "'a':1}" /\
  parse_line_by_line_json text = Raise JSONDecodeError /\
  parse_json_response text = None.
Proof. repeat split; reflexivity. Qed.

(** Whatever [parse_json_response] returns is truthy. *)
Lemma parse_json_response_truthy text r :
  parse_json_response text = Some r -> truthy r = true.
Proof.
  unfold parse_json_response.
  induction parsing_strategies as [|f l IH]; simpl; [discriminate|].
  destruct (f text) as [x|e]; [|exact IH].
  destruct (truthy x) eqn:T; [|exact IH].
  intros [= <-]. exact T.
Qed.

(** ** Retry and backoff *)

Lemma truthy_default (name : str) : truthy (get_default_structure name) = true.
Proof.
  unfold get_default_structure.
  repeat match goal with |- context [if ?b then _ else _] => destruct b end;
    reflexivity.
Qed.

Lemma remote_calls_app (a b : list event) :
  remote_calls (a ++ b) = remote_calls a + remote_calls b.
Proof.
  induction a as [|e a IH]; simpl; [reflexivity|].
  destruct e; simpl; rewrite IH; reflexivity.
Qed.

Lemma attempt_body_spec self name st :
  exists r new, attempt_body self name st =
    (r, {| context := context st; trace := new ++ trace st; disk := disk st |})
    /\ Forall api_event new /\ remote_calls new <= 1.
Proof.
  unfold attempt_body.
  destruct (negb (mem name role_names)).
  { exists (Raise KeyError), []. destruct st; simpl. auto. }
  destruct (negb (mem name (models self))).
  { exists (Raise KeyError), []. destruct st; simpl. auto. }
  unfold bind, generate_content, ret.
  destruct (producer self (remote_calls (trace st)));
    eexists _, [EvRemoteCall name]; simpl; repeat split; auto;
    repeat constructor.
Qed.

(** [call_api] always returns, a truthy value; it leaves the context and the
    file alone and adds only remote calls and waits to the trace, at most
    one call per attempt. *)
Lemma call_api_loop_spec self name mr attempts : forall st,
  exists v new, call_api_loop self name mr attempts st =
    (Ok v, {| context := context st; trace := new ++ trace st; disk := disk st |})
    /\ truthy v = true /\ Forall api_event new
    /\ remote_calls new <= length attempts.
Proof.
  induction attempts as [|a rest IH]; intros st; simpl.
  - exists (get_default_structure name), []. destruct st; simpl.
    repeat split; auto using truthy_default.
  - destruct (attempt_body_spec self name st) as (r & new & E & Hev & Hn).
    rewrite E.
    assert (K: forall st1,
       st1 = {| context := context st; trace := new ++ trace st; disk := disk st |} ->
       exists v new', call_api_loop self name mr rest st1 =
         (Ok v, {| context := context st; trace := new' ++ trace st; disk := disk st |})
         /\ truthy v = true /\ Forall api_event new'
         /\ remote_calls new' <= S (length rest)).
    { intros st1 ->.
      destruct (IH {| context := context st; trace := new ++ trace st; disk := disk st |})
        as (v & new' & E' & Hv & Hev' & Hn').
      exists v, (new' ++ new). simpl in E'. rewrite E', app_assoc.
      repeat split; auto.
      - apply Forall_app; auto.
      - rewrite remote_calls_app. lia. }
    destruct r as [[result|]|e].
    + destruct (truthy result) eqn:T.
      * exists result, new. repeat split; auto. lia.
      * apply K; reflexivity.
    + apply K; reflexivity.
    + destruct (a <? mr - 1).
      * unfold bind, sleep, emit. simpl.
        destruct (IH {| context := context st;
                        trace := EvSleep (2 ^ N.of_nat a) :: new ++ trace st;
                        disk := disk st |})
          as (v & new' & E' & Hv & Hev' & Hn').
        exists v, (new' ++ EvSleep (2 ^ N.of_nat a) :: new). simpl in E'.
        rewrite E', <- app_assoc. simpl. repeat split; auto.
        -- apply Forall_app; split; auto. constructor; simpl; auto.
        -- rewrite remote_calls_app. simpl. lia.
      * exists (get_default_structure name), new.
        repeat split; auto using truthy_default. lia.
Qed.

Lemma call_api_spec self name st :
  exists v new, call_api self name st =
    (Ok v, {| context := context st; trace := new ++ trace st; disk := disk st |})
    /\ truthy v = true /\ Forall api_event new /\ remote_calls new <= 3.
Proof. apply (call_api_loop_spec self name max_retries (seq 0 max_retries) st). Qed.

(** When every attempt left fails, the loop ends on the default record. *)
Lemma call_api_loop_all_fail self name mr attempts : forall st,
  (forall i, remote_calls (trace st) <= i < remote_calls (trace st) + length attempts ->
             fails self i) ->
  fst (call_api_loop self name mr attempts st) = Ok (get_default_structure name).
Proof.
  induction attempts as [|a rest IH]; intros st H; simpl; [reflexivity|].
  unfold attempt_body.
  destruct (negb (mem name role_names)).
  { unfold raise. destruct (a <? mr - 1); [|reflexivity].
    unfold bind, sleep, emit. apply IH. simpl. intros i Hi. apply H. simpl. lia. }
  destruct (negb (mem name (models self))).
  { unfold raise. destruct (a <? mr - 1); [|reflexivity].
    unfold bind, sleep, emit. apply IH. simpl. intros i Hi. apply H. simpl. lia. }
  unfold bind, generate_content, ret.
  pose proof (H (remote_calls (trace st))) as H0. unfold fails in H0.
  destruct (producer self (remote_calls (trace st))) as [t|].
  - rewrite H0 by (simpl; lia). apply IH. simpl. intros i Hi. apply H. simpl. lia.
  - destruct (a <? mr - 1); [|reflexivity].
    unfold sleep, emit. apply IH. simpl. intros i Hi. apply H. simpl. lia.
Qed.

Lemma default_of_role role :
  In role role_names ->
  get_default_structure role <> default_unknown /\
  dict_lookup (vs "status") match get_default_structure role with
                            | VDict d => d
                            | _ => []
                            end = Some (vs "partial_failure").
Proof.
  intros H. simpl in H.
  repeat (destruct H as [<-|H]; [split; [discriminate|reflexivity]|]).
  destruct H.
Qed.

(** C1: for each of the five roles and whatever the remote producer does,
    one [call_api] returns a value (it does not raise) after at most three
    remote calls; when each of its attempts fails, by an exception or by a
    text no strategy parses, the value is the default record of the role. *)
Theorem call_api_retry_bound (self : GeminiAPIManager) (role : str) (st : State) :
  In role role_names ->
  (exists v, fst (call_api self role st) = Ok v) /\
  remote_calls (trace (snd (call_api self role st))) <= remote_calls (trace st) + 3 /\
  ((forall i, remote_calls (trace st) <= i < remote_calls (trace st) + 3 ->
              fails self i) ->
   fst (call_api self role st) = Ok (get_default_structure role) /\
   get_default_structure role <> default_unknown).
Proof.
  intros Hrole.
  assert (F: (forall i, remote_calls (trace st) <= i < remote_calls (trace st) + 3 ->
                        fails self i) ->
             fst (call_api self role st) = Ok (get_default_structure role)).
  { intros Hf. apply call_api_loop_all_fail. exact Hf. }
  destruct (call_api_spec self role st) as (v & new & E & _ & _ & Hn).
  rewrite E in *. simpl in *. split; [eauto|]. split.
  - rewrite remote_calls_app. lia.
  - intros Hf. split; [auto|apply (default_of_role role Hrole)].
Qed.

Lemma call_api_retry_bound_witness :
  In planner role_names /\
  (exists v, fst (call_api silent_manager planner fresh_state) = Ok v) /\
  remote_calls (trace (snd (call_api silent_manager planner fresh_state))) <= 0 + 3 /\
  fst (call_api silent_manager planner fresh_state) = Ok default_planner.
Proof.
  pose proof (call_api_retry_bound silent_manager planner fresh_state
                (or_introl eq_refl)) as (H1 & H2 & H3).
  split; [left; reflexivity|]. split; [exact H1|]. split; [exact H2|].
  apply H3. intros i _. exact I.
Defined.

(** C6, as stated, fails: with a producer whose text no strategy parses,
    the first and the second attempt fail while attempts remain, the three
    remote calls follow one another and nothing is waited for. *)
Lemma no_backoff_after_parse_failure :
  parse_json_response (strip (py "no json here")) = None /\
  fst (call_api babbling_manager planner fresh_state) = Ok default_planner /\
  trace (snd (call_api babbling_manager planner fresh_state)) =
    [EvRemoteCall planner; EvRemoteCall planner; EvRemoteCall planner] /\
  sleeps (trace (snd (call_api babbling_manager planner fresh_state))) = [].
Proof. repeat split; reflexivity. Qed.

(** C6, amended: for a role that has a prompt and a model, the waits of one
    [call_api] are these (latest first in [sleeps]): [1] after a first
    attempt that raised, [2] after a second attempt that raised; an attempt
    whose text does not parse is followed by the next attempt at once, and
    after the third attempt nothing is waited for. *)
Theorem call_api_backoff (self : GeminiAPIManager) (role : str) (st : State) :
  mem role role_names = true ->
  mem role (models self) = true ->
  let n := remote_calls (trace st) in
  sleeps (trace (snd (call_api self role st))) =
    (if negb (parsed self n) && raised self (n + 1) then [2%N] else []) ++
    (if raised self n then [1%N] else []) ++
    sleeps (trace st).
Proof.
  intros H1 H2 n. subst n.
  unfold call_api, max_retries, parsed, raised. simpl.
  unfold attempt_body. rewrite H1, H2. simpl.
  unfold bind, generate_content, ret, sleep, emit. simpl.
  rewrite Nat.add_1_r.
  repeat
    (match goal with
     | |- context [producer self ?i] => destruct (producer self i) eqn:?
     | |- context [parse_json_response ?t] =>
         let E := fresh "E" in
         destruct (parse_json_response t) eqn:E;
         [apply parse_json_response_truthy in E; rewrite E|]
     end; simpl; try reflexivity).
Qed.

Lemma call_api_backoff_witness :
  sleeps (trace (snd (call_api silent_manager planner fresh_state))) = [2%N; 1%N].
Proof.
  exact (call_api_backoff silent_manager planner fresh_state eq_refl eq_refl).
Defined.

(** ** Fenced-block parsing and brace-matched parsing *)

Section FencedBlocks.

Local Open Scope N_scope.

Lemma fence_eq : fence = [96; 96; 96].
Proof. reflexivity. Qed.

Lemma fence_json_eq : fence_json = [96; 96; 96; 106; 115; 111; 110].
Proof. reflexivity. Qed.

Lemma contains_cons sub c s :
  contains sub (c :: s) = startswith (c :: s) sub || contains sub s.
Proof. reflexivity. Qed.

(** A fence cannot begin before a line feed that comes within its first
    three characters. *)
Lemma startswith_nil s : startswith s [] = true.
Proof. destruct s; reflexivity. Qed.

Lemma startswith_fence_app y t :
  startswith y fence = false -> startswith (y ++ newline :: t) fence = false.
Proof.
  rewrite fence_eq.
  destruct y as [|a [|b [|c y]]]; cbn [startswith app]; intros H.
  - reflexivity.
  - change (96 =? newline) with false. apply andb_false_r.
  - change (96 =? newline) with false. cbn [andb]. rewrite !andb_false_r. reflexivity.
  - rewrite startswith_nil in *. exact H.
Qed.

Lemma startswith_fence_json s :
  startswith s fence = false -> startswith s fence_json = false.
Proof.
  rewrite fence_eq, fence_json_eq.
  destruct s as [|a [|b [|c s]]]; cbn [startswith]; auto.
  rewrite startswith_nil, andb_true_r. intros H.
  destruct (96 =? a); cbn [andb] in *; auto.
  destruct (96 =? b); cbn [andb] in *; auto.
  rewrite H. reflexivity.
Qed.

Lemma split_go_fence_close J : forall cur,
  contains fence J = false ->
  split_go fence 0 cur (J ++ newline :: fence) = [rev cur ++ J ++ [newline]; []].
Proof.
  induction J as [|c J IH]; intros cur H.
  - reflexivity.
  - rewrite contains_cons in H. apply orb_false_iff in H. destruct H as [H1 H2].
    change ((c :: J) ++ newline :: fence) with (c :: (J ++ newline :: fence)).
    cbn [split_go].
    change (c :: J ++ newline :: fence) with ((c :: J) ++ newline :: fence).
    rewrite (startswith_fence_app _ _ H1).
    rewrite (IH (c :: cur) H2). simpl. rewrite <- app_assoc. reflexivity.
Qed.

Lemma split_go_fence_json_none J : forall cur,
  contains fence J = false ->
  split_go fence_json 0 cur (J ++ newline :: fence) = [rev cur ++ J ++ newline :: fence].
Proof.
  induction J as [|c J IH]; intros cur H.
  - cbn. rewrite <- !app_assoc. reflexivity.
  - rewrite contains_cons in H. apply orb_false_iff in H. destruct H as [H1 H2].
    change ((c :: J) ++ newline :: fence) with (c :: (J ++ newline :: fence)).
    cbn [split_go].
    change (c :: J ++ newline :: fence) with ((c :: J) ++ newline :: fence).
    rewrite (startswith_fence_json _ (startswith_fence_app _ _ H1)).
    rewrite (IH (c :: cur) H2). simpl. rewrite <- app_assoc. reflexivity.
Qed.

Lemma split_go_fence_none J : forall cur,
  contains fence J = false ->
  split_go fence 0 cur (J ++ [newline]) = [rev cur ++ J ++ [newline]].
Proof.
  induction J as [|c J IH]; intros cur H.
  - reflexivity.
  - rewrite contains_cons in H. apply orb_false_iff in H. destruct H as [H1 H2].
    change ((c :: J) ++ [newline]) with (c :: (J ++ [newline])).
    cbn [split_go].
    change (c :: J ++ [newline]) with ((c :: J) ++ [newline]).
    rewrite (startswith_fence_app _ _ H1).
    rewrite (IH (c :: cur) H2). simpl. rewrite <- app_assoc. reflexivity.
Qed.

Lemma contains_fence_json_none J :
  contains fence J = false ->
  contains fence_json (J ++ newline :: fence) = false.
Proof.
  induction J as [|c J IH]; intros H.
  - reflexivity.
  - rewrite contains_cons in H. apply orb_false_iff in H. destruct H as [H1 H2].
    change ((c :: J) ++ newline :: fence) with (c :: (J ++ newline :: fence)).
    rewrite contains_cons.
    change (c :: J ++ newline :: fence) with ((c :: J) ++ newline :: fence).
    rewrite (startswith_fence_json _ (startswith_fence_app _ _ H1)).
    exact (IH H2).
Qed.

Lemma lstrip_suffix s : exists p, s = p ++ lstrip s.
Proof.
  induction s as [|c s [p IH]]; [exists []; reflexivity|].
  simpl. destruct (isspace c).
  - exists (c :: p). simpl. congruence.
  - exists []. reflexivity.
Qed.

Lemma rstrip_prefix s : exists t, s = rstrip s ++ t.
Proof.
  unfold rstrip. destruct (lstrip_suffix (rev s)) as [p H].
  exists (rev p). rewrite <- rev_app_distr, <- H, rev_involutive. reflexivity.
Qed.

Lemma rstrip_newline s : rstrip (s ++ [newline]) = rstrip s.
Proof. unfold rstrip. rewrite rev_app_distr. reflexivity. Qed.

Lemma strip_between_newlines J : strip (newline :: J ++ [newline]) = strip J.
Proof.
  unfold strip. change (lstrip (newline :: J ++ [newline])) with (lstrip (J ++ [newline])).
  induction J as [|c J IH]; [reflexivity|].
  simpl. destruct (isspace c); [exact IH|].
  change (c :: J ++ [newline]) with ((c :: J) ++ [newline]).
  apply rstrip_newline.
Qed.

Lemma find_lbrace_lstrip J :
  startswith (lstrip J) [lbrace] = true ->
  exists start, find lbrace J = Some start /\ skipn start J = lstrip J.
Proof.
  induction J as [|c J IH]; simpl; [discriminate|].
  destruct (isspace c) eqn:W.
  - intros H. destruct (IH H) as (start & F & K).
    exists (S start). rewrite F. split; [|exact K].
    destruct (c =? lbrace) eqn:E; [|reflexivity].
    apply N.eqb_eq in E. subst c. discriminate W.
  - cbn [startswith]. intros H. apply andb_prop in H. destruct H as [H _].
    rewrite N.eqb_sym in H. rewrite H. exists 0%nat. split; reflexivity.
Qed.

Lemma brace_scan_shift s : forall c i j,
  brace_scan c (i + j) s = option_map (Nat.add i) (brace_scan c j s).
Proof.
  induction s as [|x s IH]; intros c i j; simpl; [reflexivity|].
  rewrite !plus_n_Sm.
  destruct (x =? 123); [apply (IH _ i (S j))|].
  destruct (x =? 125); [|apply (IH _ i (S j))].
  destruct (c - 1 =? 0)%Z; [reflexivity|apply (IH _ i (S j))].
Qed.

Lemma brace_scan_app a b : forall c i k,
  brace_scan c i a = Some k -> brace_scan c i (a ++ b) = Some k.
Proof.
  induction a as [|x a IH]; intros c i k; simpl; [discriminate|].
  destruct (x =? 123); [apply IH|].
  destruct (x =? 125); [|apply IH].
  destruct (c - 1 =? 0)%Z; [auto|apply IH].
Qed.

Lemma startswith_app s t p :
  startswith s p = true -> startswith (s ++ t) p = true.
Proof.
  revert s. induction p as [|x p IH]; intros s; [intros _; apply startswith_nil|].
  destruct s as [|y s]; simpl; [discriminate|].
  intros H. apply andb_prop in H. destruct H as [H1 H2].
  rewrite H1. simpl. apply IH. exact H2.
Qed.

(** When the stripped text starts with a brace that is closed by its last
    character, the brace-matched strategy parses exactly the stripped
    text. *)
Lemma parse_partial_json_balanced J :
  startswith (strip J) [lbrace] = true ->
  brace_scan 0 0 (strip J) = Some (length (strip J)) ->
  parse_partial_json J = Json.loads (strip J).
Proof.
  intros H1 H2. unfold strip in *.
  destruct (rstrip_prefix (lstrip J)) as [t Ht].
  assert (H1' : startswith (lstrip J) [lbrace] = true).
  { rewrite Ht. apply startswith_app. exact H1. }
  destruct (find_lbrace_lstrip J H1') as (start & F & K).
  unfold parse_partial_json. rewrite F, K.
  rewrite <- (Nat.add_0_r start) at 1. rewrite brace_scan_shift.
  rewrite Ht at 1. rewrite (brace_scan_app _ t _ _ _ H2). simpl.
  unfold slice. rewrite K.
  replace (start + length (rstrip (lstrip J)) - start)%nat
    with (length (rstrip (lstrip J))) by lia.
  rewrite Ht at 2.
  rewrite firstn_app, Nat.sub_diag, firstn_all. simpl. rewrite app_nil_r.
  reflexivity.
Qed.

Lemma parse_markdown_json_fenced tagged J :
  contains fence J = false ->
  parse_markdown_json (fenced tagged J) = Json.loads (strip J).
Proof.
  intros H. unfold parse_markdown_json, fenced.
  assert (Hn : contains fence (newline :: J) = false).
  { rewrite contains_cons, H. reflexivity. }
  destruct tagged.
  - replace (contains fence_json (fence_json ++ [newline] ++ J ++ [newline] ++ fence))
      with true by reflexivity.
    replace (split fence_json (fence_json ++ [newline] ++ J ++ [newline] ++ fence))
      with ([] :: split_go fence_json 0 [] ((newline :: J) ++ newline :: fence))
      by reflexivity.
    rewrite (split_go_fence_json_none _ [] Hn).
    cbn [index nth_error rev app].
    unfold split.
    change (newline :: J ++ newline :: fence) with ((newline :: J) ++ newline :: fence).
    rewrite (split_go_fence_close _ [] Hn).
    cbn [index nth_error rev app].
    rewrite strip_between_newlines. reflexivity.
  - replace (contains fence_json (fence ++ [newline] ++ J ++ [newline] ++ fence))
      with (contains fence_json (J ++ newline :: fence)) by reflexivity.
    rewrite (contains_fence_json_none _ H).
    replace (contains fence (fence ++ [newline] ++ J ++ [newline] ++ fence))
      with true by reflexivity.
    replace (split fence (fence ++ [newline] ++ J ++ [newline] ++ fence))
      with ([] :: split_go fence 0 [] ((newline :: J) ++ newline :: fence))
      by reflexivity.
    rewrite (split_go_fence_close _ [] Hn).
    cbn [index nth_error rev app].
    unfold split.
    change (newline :: J ++ [newline]) with ((newline :: J) ++ [newline]).
    rewrite (split_go_fence_none _ [] Hn).
    cbn [index nth_error rev app].
    rewrite strip_between_newlines. reflexivity.
Qed.

End FencedBlocks.

(** C8, as stated, fails: the record whose one string holds a closing brace
    is read by the fenced-block strategy from the wrapped text, while the
    brace-matched strategy cuts the interior inside that string and
    raises. *)
Lemma brace_in_string_breaks_agreement :
  let interior := pyq "{'a':'}'}" in
  Json.loads interior = Ok (VDict [(vs "a", vs "}")]) /\
  parse_markdown_json (fenced true interior) = Ok (VDict [(vs "a", vs "}")]) /\
  parse_partial_json interior = Raise JSONDecodeError /\
  parse_partial_json interior <> parse_markdown_json (fenced true interior).
Proof. repeat split; try reflexivity. discriminate. Qed.

(** C8, amended: take an interior that holds no triple backtick, whose
    stripped form starts with an opening brace, and in which the count of
    braces that [parse_partial_json] keeps (all braces, those inside string
    literals too) first returns to zero on the last character of the
    stripped form.  Then brace-matched parsing of the interior and
    fenced-block parsing of the wrapped text, tagged or not, give the same
    result: that of [json.loads] on the stripped interior. *)
Theorem fenced_and_brace_matched_agree (tagged : bool) (interior : str) :
  contains fence interior = false ->
  startswith (strip interior) [lbrace] = true ->
  brace_scan 0 0 (strip interior) = Some (length (strip interior)) ->
  parse_partial_json interior = parse_markdown_json (fenced tagged interior) /\
  parse_markdown_json (fenced tagged interior) = Json.loads (strip interior).
Proof.
  intros H1 H2 H3.
  rewrite (parse_markdown_json_fenced tagged interior H1).
  rewrite (parse_partial_json_balanced interior H2 H3).
  split; reflexivity.
Qed.

Lemma fenced_and_brace_matched_agree_witness :
  parse_partial_json (pyq " {'a': {'b': [1, 2]}} ") =
    parse_markdown_json (fenced false (pyq " {'a': {'b': [1, 2]}} ")) /\
  parse_markdown_json (fenced false (pyq " {'a': {'b': [1, 2]}} ")) =
    Json.loads (strip (pyq " {'a': {'b': [1, 2]}} ")).
Proof.
  apply (fenced_and_brace_matched_agree false (pyq " {'a': {'b': [1, 2]}} "));
    reflexivity.
Defined.

(** ** The bounds of the decoder are never reached

    [scan_once] recurses on a depth and the two loops on a fuel.  What they
    leave is always shorter than what they were given, so a depth or a
    fuel above the length of the text is never used up: raising it does not
    change the result. *)

Section DecoderBounds.

Import Json.
Local Open Scope N_scope.

Lemma skip_ws_length s : (length (skip_ws s) <= length s)%nat.
Proof.
  induction s as [|c s IH]; simpl; [lia|].
  destruct (is_json_ws c); simpl; lia.
Qed.

Lemma scanstring_shorter n : forall s acc k r,
  (length s <= n)%nat -> scanstring acc s = Some (k, r) ->
  (length r < length s)%nat.
Proof.
  induction n as [|n IH]; intros s acc k r Hn.
  - destruct s; [discriminate|simpl in Hn; lia].
  - destruct s as [|c s1]; [discriminate|]. cbn [scanstring].
    repeat match goal with
    | |- Some _ = Some _ -> _ => intros [= <- <-]; simpl in *; lia
    | |- None = Some _ -> _ => discriminate
    | |- scanstring _ ?t = Some _ -> _ =>
        let H := fresh in intros H; apply IH in H; simpl in *; lia
    | |- context [if ?b then _ else _] => destruct b
    | |- context [match ?x with _ => _ end] => destruct x
    end.
Qed.

Lemma span_digits_length s :
  (length (snd (span_digits s)) <= length s)%nat.
Proof.
  induction s as [|c s IH]; simpl; [lia|].
  destruct (is_digit c); [|simpl; lia].
  destruct (span_digits s); simpl in *; lia.
Qed.

Lemma scan_frac_length s ds r :
  scan_frac s = Some (ds, r) -> (length r <= length s)%nat.
Proof.
  destruct s as [|c s]; simpl; [discriminate|].
  destruct (c =? 46); [|discriminate].
  pose proof (span_digits_length s) as L.
  destruct (span_digits s) as [[|d l] t]; [discriminate|].
  intros [= <- <-]. simpl in *. lia.
Qed.

Lemma scan_exp_length s e r :
  scan_exp s = Some (e, r) -> (length r <= length s)%nat.
Proof.
  assert (L : forall t (F : str -> Z),
            match span_digits t with
            | ([], _) => None
            | (ds, r0) => Some (F ds, r0)
            end = Some (e, r) -> (length r <= length t)%nat).
  { intros t F. pose proof (span_digits_length t) as L.
    destruct (span_digits t) as [[|d l] u]; [discriminate|].
    intros [= <- <-]. simpl in *. lia. }
  destruct s as [|c s]; simpl; [discriminate|].
  destruct ((c =? 101) || (c =? 69)); [|discriminate].
  destruct s as [|sg t].
  - intros H. apply (L [] (fun ds => Z.of_N (digits_value ds))) in H.
    simpl in *. lia.
  - destruct (sg =? 45).
    + intros H. apply (L t (fun ds => (- Z.of_N (digits_value ds))%Z)) in H.
      simpl in *. lia.
    + destruct (sg =? 43).
      * intros H. apply (L t (fun ds => Z.of_N (digits_value ds))) in H.
        simpl in *. lia.
      * intros H. apply (L (sg :: t) (fun ds => Z.of_N (digits_value ds))) in H.
        simpl in *. lia.
Qed.

Lemma match_number_shorter s v r :
  match_number s = Some (v, r) -> (length r < length s)%nat.
Proof.
  unfold match_number.
  assert (K : forall neg s0, (length s0 <= length s)%nat ->
    match scan_int_part s0 with
    | None => None
    | Some (ip, s1) =>
        let '(fp, s2) := match scan_frac s1 with
                         | Some (ds, r) => (Some ds, r)
                         | None => (None, s1)
                         end in
        let '(ep, s3) := match scan_exp s2 with
                         | Some (e, r) => (Some e, r)
                         | None => (None, s2)
                         end in
        match fp, ep with
        | None, None =>
            Some (VInt (if neg : bool then - Z.of_N (digits_value ip)
                        else Z.of_N (digits_value ip))%Z, s3)
        | _, _ =>
            let fd := match fp with Some ds => ds | None => [] end in
            let ex := match ep with Some e => e | None => 0%Z end in
            Some (VFloat neg (digits_value (ip ++ fd))
                         (ex - Z.of_nat (length fd))%Z, s3)
        end
    end = Some (v, r) -> (length r < length s)%nat).
  { intros neg s0 H0. unfold scan_int_part.
    destruct s0 as [|c t]; [discriminate|].
    assert (I1 : forall ip s1, (length s1 < length s)%nat ->
      (let '(fp, s2) := match scan_frac s1 with
                         | Some (ds, r) => (Some ds, r)
                         | None => (None, s1)
                         end in
        let '(ep, s3) := match scan_exp s2 with
                         | Some (e, r) => (Some e, r)
                         | None => (None, s2)
                         end in
        match fp, ep with
        | None, None =>
            Some (VInt (if neg : bool then - Z.of_N (digits_value ip)
                        else Z.of_N (digits_value ip))%Z, s3)
        | _, _ =>
            let fd := match fp with Some ds => ds | None => [] end in
            let ex := match ep with Some e => e | None => 0%Z end in
            Some (VFloat neg (digits_value (ip ++ fd))
                         (ex - Z.of_nat (length fd))%Z, s3)
        end) = Some (v, r) -> (length r < length s)%nat).
    { intros ip s1 H1.
      destruct (scan_frac s1) as [[ds u]|] eqn:F.
      - apply scan_frac_length in F.
        destruct (scan_exp u) as [[e w]|] eqn:X.
        + apply scan_exp_length in X. intros [= <- <-]. lia.
        + intros [= <- <-]. lia.
      - destruct (scan_exp s1) as [[e w]|] eqn:X.
        + apply scan_exp_length in X. intros [= <- <-]. lia.
        + intros [= <- <-]. lia. }
    destruct (c =? 48); [apply I1; simpl in *; lia|].
    destruct (is_digit c); [|discriminate].
    pose proof (span_digits_length t) as L.
    destruct (span_digits t) as [ds u]. apply I1. simpl in *. lia. }
  destruct s as [|c t]; [apply (K false); lia|].
  destruct (c =? 45); [apply (K true); simpl; lia|apply (K false); lia].
Qed.

Lemma object_loop_shorter scan : progresses scan ->
  forall fuel pairs s v r,
    object_loop scan fuel pairs s = Some (v, r) -> (length r < length s)%nat.
Proof.
  intros P. induction fuel as [|fuel IH]; intros pairs s v r; [discriminate|].
  cbn [object_loop].
  destruct (scanstring [] s) as [[key s1]|] eqn:K; [|discriminate].
  apply (scanstring_shorter _ _ _ _ _ (le_n _)) in K.
  pose proof (skip_ws_length s1) as L1.
  destruct (skip_ws s1) as [|c s2]; [discriminate|].
  destruct (c =? 58); [|discriminate].
  pose proof (skip_ws_length s2) as L2.
  destruct (scan (skip_ws s2)) as [[x s3]|] eqn:V; [|discriminate].
  apply P in V. pose proof (skip_ws_length s3) as L3.
  destruct (skip_ws s3) as [|d0 s4]; [discriminate|].
  destruct (d0 =? 125); [intros [= <- <-]; simpl in *; lia|].
  destruct (d0 =? 44); [|discriminate].
  pose proof (skip_ws_length s4) as L4.
  destruct (skip_ws s4) as [|q s5]; [discriminate|].
  destruct (q =? 34); [|discriminate].
  intros H. apply IH in H. simpl in *. lia.
Qed.

Lemma array_loop_shorter scan : progresses scan ->
  forall fuel values s v r,
    array_loop scan fuel values s = Some (v, r) -> (length r < length s)%nat.
Proof.
  intros P. induction fuel as [|fuel IH]; intros values s v r; [discriminate|].
  cbn [array_loop].
  destruct (scan s) as [[x s1]|] eqn:V; [|discriminate].
  apply P in V. pose proof (skip_ws_length s1) as L1.
  destruct (skip_ws s1) as [|d0 s2]; [discriminate|].
  destruct (d0 =? 93); [intros [= <- <-]; simpl in *; lia|].
  destruct (d0 =? 44); [|discriminate].
  pose proof (skip_ws_length s2) as L2.
  intros H. apply IH in H. simpl in *. lia.
Qed.

Ltac skipped Sk :=
  first [ exact (Sk 3%nat ltac:(lia)) | exact (Sk 4%nat ltac:(lia))
        | exact (Sk 5%nat ltac:(lia)) | exact (Sk 8%nat ltac:(lia))
        | exact (Sk 9%nat ltac:(lia)) ].

Lemma scan_once_progresses depth : progresses (scan_once depth).
Proof.
  induction depth as [|depth IH]; intros s v r; [discriminate|].
  cbn [scan_once]. destruct s as [|c s1]; [discriminate|].
  destruct (c =? 34).
  { destruct (scanstring [] s1) as [[x t]|] eqn:K; [|discriminate].
    apply (scanstring_shorter _ _ _ _ _ (le_n _)) in K.
    intros [= <- <-]. simpl. lia. }
  destruct (c =? 123).
  { unfold JSONObject. pose proof (skip_ws_length s1) as L.
    destruct (skip_ws s1) as [|b t]; [discriminate|].
    destruct (b =? 125); [intros [= <- <-]; simpl in *; lia|].
    destruct (b =? 34); [|discriminate].
    intros H. apply (object_loop_shorter _ IH) in H. simpl in *. lia. }
  destruct (c =? 91).
  { unfold JSONArray. pose proof (skip_ws_length s1) as L.
    destruct (skip_ws s1) as [|b t] eqn:W; [discriminate|].
    destruct (b =? 93); [intros [= <- <-]; simpl in *; lia|].
    intros H. apply (array_loop_shorter _ IH) in H. simpl in *. lia. }
  assert (Sk : forall k, (0 < k)%nat -> (length (skipn k (c :: s1)) < length (c :: s1))%nat).
  { intros [|k] Hk; [lia|]. simpl. pose proof (length_skipn k s1). lia. }
  destruct (startswith (c :: s1) (py "null"));
    [intros [= <- <-]; skipped Sk|].
  destruct (startswith (c :: s1) (py "true"));
    [intros [= <- <-]; skipped Sk|].
  destruct (startswith (c :: s1) (py "false"));
    [intros [= <- <-]; skipped Sk|].
  destruct (match_number (c :: s1)) as [[x t]|] eqn:Nn.
  { apply match_number_shorter in Nn. intros H. inversion H. subst. exact Nn. }
  destruct (startswith (c :: s1) (py "NaN"));
    [intros [= <- <-]; skipped Sk|].
  destruct (startswith (c :: s1) (py "Infinity"));
    [intros [= <- <-]; skipped Sk|].
  destruct (startswith (c :: s1) (py "-Infinity"));
    [intros [= <- <-]; skipped Sk|].
  discriminate.
Qed.

Lemma progresses_nil scan : progresses scan -> scan [] = None.
Proof.
  intros P. destruct (scan []) as [[v r]|] eqn:E; [|reflexivity].
  apply P in E. simpl in E. lia.
Qed.

(** More fuel than the length of the text does not change what a loop
    returns. *)
Lemma object_loop_fuel scan : progresses scan ->
  forall fuel pairs s, (length s <= fuel)%nat ->
    object_loop scan (S fuel) pairs s = object_loop scan fuel pairs s.
Proof.
  intros P. induction fuel as [|fuel IH]; intros pairs s Hs.
  - destruct s; [reflexivity|simpl in Hs; lia].
  - cbn [object_loop].
    destruct (scanstring [] s) as [[key s1]|] eqn:K; [|reflexivity].
    apply (scanstring_shorter _ _ _ _ _ (le_n _)) in K.
    pose proof (skip_ws_length s1) as L1.
    destruct (skip_ws s1) as [|c s2]; [reflexivity|].
    destruct (c =? 58); [|reflexivity].
    pose proof (skip_ws_length s2) as L2.
    destruct (scan (skip_ws s2)) as [[x s3]|] eqn:V; [|reflexivity].
    apply P in V. pose proof (skip_ws_length s3) as L3.
    destruct (skip_ws s3) as [|d0 s4]; [reflexivity|].
    destruct (d0 =? 125); [reflexivity|].
    destruct (d0 =? 44); [|reflexivity].
    pose proof (skip_ws_length s4) as L4.
    destruct (skip_ws s4) as [|q s5]; [reflexivity|].
    destruct (q =? 34); [|reflexivity].
    apply IH. simpl in *. lia.
Qed.

Lemma array_loop_fuel scan : progresses scan ->
  forall fuel values s, (length s <= fuel)%nat ->
    array_loop scan (S fuel) values s = array_loop scan fuel values s.
Proof.
  intros P. induction fuel as [|fuel IH]; intros values s Hs.
  - destruct s; [|simpl in Hs; lia]. cbn [array_loop].
    rewrite (progresses_nil _ P). reflexivity.
  - cbn [array_loop].
    destruct (scan s) as [[x s1]|] eqn:V; [|reflexivity].
    apply P in V. pose proof (skip_ws_length s1) as L1.
    destruct (skip_ws s1) as [|d0 s2]; [reflexivity|].
    destruct (d0 =? 93); [reflexivity|].
    destruct (d0 =? 44); [|reflexivity].
    pose proof (skip_ws_length s2) as L2.
    apply IH. simpl in *. lia.
Qed.

(** Two scanners that agree on the texts up to a length give loops that
    agree on the texts up to that length. *)
Lemma object_loop_ext f g n : progresses f ->
  (forall s, (length s <= n)%nat -> f s = g s) ->
  forall fuel pairs s, (length s <= n)%nat ->
    object_loop f fuel pairs s = object_loop g fuel pairs s.
Proof.
  intros P A. induction fuel as [|fuel IH]; intros pairs s Hs; [reflexivity|].
  cbn [object_loop].
  destruct (scanstring [] s) as [[key s1]|] eqn:K; [|reflexivity].
  apply (scanstring_shorter _ _ _ _ _ (le_n _)) in K.
  pose proof (skip_ws_length s1) as L1.
  destruct (skip_ws s1) as [|c s2]; [reflexivity|].
  destruct (c =? 58); [|reflexivity].
  pose proof (skip_ws_length s2) as L2.
  rewrite <- (A (skip_ws s2)) by (simpl in *; lia).
  destruct (f (skip_ws s2)) as [[x s3]|] eqn:V; [|reflexivity].
  apply P in V. pose proof (skip_ws_length s3) as L3.
  destruct (skip_ws s3) as [|d0 s4]; [reflexivity|].
  destruct (d0 =? 125); [reflexivity|].
  destruct (d0 =? 44); [|reflexivity].
  pose proof (skip_ws_length s4) as L4.
  destruct (skip_ws s4) as [|q s5]; [reflexivity|].
  destruct (q =? 34); [|reflexivity].
  apply IH. simpl in *. lia.
Qed.

Lemma array_loop_ext f g n : progresses f ->
  (forall s, (length s <= n)%nat -> f s = g s) ->
  forall fuel values s, (length s <= n)%nat ->
    array_loop f fuel values s = array_loop g fuel values s.
Proof.
  intros P A. induction fuel as [|fuel IH]; intros values s Hs; [reflexivity|].
  cbn [array_loop]. rewrite <- (A s) by exact Hs.
  destruct (f s) as [[x s1]|] eqn:V; [|reflexivity].
  apply P in V. pose proof (skip_ws_length s1) as L1.
  destruct (skip_ws s1) as [|d0 s2]; [reflexivity|].
  destruct (d0 =? 93); [reflexivity|].
  destruct (d0 =? 44); [|reflexivity].
  pose proof (skip_ws_length s2) as L2.
  apply IH. simpl in *. lia.
Qed.

(** A depth above the length of the text is never used up: one more level
    changes nothing. *)
Lemma scan_once_stable depth : forall s,
  (length s < depth)%nat -> scan_once (S depth) s = scan_once depth s.
Proof.
  induction depth as [|depth IH]; intros s Hs; [lia|].
  destruct s as [|c s1]; [reflexivity|].
  assert (A : forall t, (length t <= length s1)%nat ->
                        scan_once (S depth) t = scan_once depth t).
  { intros t Ht. apply IH. simpl in Hs. lia. }
  cbn [scan_once].
  destruct (c =? 34); [reflexivity|].
  destruct (c =? 123).
  { unfold JSONObject. pose proof (skip_ws_length s1) as L.
    destruct (skip_ws s1) as [|b t]; [reflexivity|].
    destruct (b =? 125); [reflexivity|].
    destruct (b =? 34); [|reflexivity].
    apply (object_loop_ext _ _ (length s1) (scan_once_progresses _) A).
    simpl in L. lia. }
  destruct (c =? 91); [|reflexivity].
  unfold JSONArray. pose proof (skip_ws_length s1) as L.
  destruct (skip_ws s1) as [|b t] eqn:W; [reflexivity|].
  destruct (b =? 93); [reflexivity|].
  apply (array_loop_ext _ _ (length s1) (scan_once_progresses _) A).
  exact L.
Qed.

(** The depth [json.loads] starts with is enough: any larger one gives the
    same result. *)
Lemma scan_once_depth_enough s : forall depth,
  (length s < depth)%nat -> scan_once depth s = scan_once (S (length s)) s.
Proof.
  induction depth as [|depth IH]; intros H; [lia|].
  destruct (Nat.eq_dec depth (length s)) as [->|N]; [reflexivity|].
  rewrite scan_once_stable by lia. apply IH. lia.
Qed.

(** So is the fuel of the two loops. *)
Lemma object_loop_fuel_enough scan s : progresses scan ->
  forall fuel pairs, (length s <= fuel)%nat ->
    object_loop scan fuel pairs s = object_loop scan (length s) pairs s.
Proof.
  intros P. induction fuel as [|fuel IH]; intros pairs H.
  - replace (length s) with 0%nat by lia. reflexivity.
  - destruct (Nat.eq_dec (S fuel) (length s)) as [->|N]; [reflexivity|].
    rewrite (object_loop_fuel _ P) by lia. apply IH. lia.
Qed.

Lemma array_loop_fuel_enough scan s : progresses scan ->
  forall fuel values, (length s <= fuel)%nat ->
    array_loop scan fuel values s = array_loop scan (length s) values s.
Proof.
  intros P. induction fuel as [|fuel IH]; intros values H.
  - replace (length s) with 0%nat by lia. reflexivity.
  - destruct (Nat.eq_dec (S fuel) (length s)) as [->|N]; [reflexivity|].
    rewrite (array_loop_fuel _ P) by lia. apply IH. lia.
Qed.

Lemma loads_depth_enough s depth :
  (length s < depth)%nat ->
  scan_once depth (skip_ws s) = scan_once (S (length s)) (skip_ws s).
Proof.
  intros H. pose proof (skip_ws_length s) as L.
  rewrite (scan_once_depth_enough (skip_ws s) depth) by lia.
  rewrite (scan_once_depth_enough (skip_ws s) (S (length s))) by lia.
  reflexivity.
Qed.

End DecoderBounds.

(* ================================================================== *)
(** * Properties of [workflow.py] *)
(* ================================================================== *)

Local Open Scope monad_scope.

Lemma truthy_not_none v : truthy v = true -> v <> VNone.
Proof. intros H ->. discriminate H. Qed.

Lemma advances_refl st : advances st st.
Proof. split; auto. exists []. split; [reflexivity|constructor]. Qed.

Lemma advances_trans st1 st2 st3 :
  advances st1 st2 -> advances st2 st3 -> advances st1 st3.
Proof.
  intros [(n1 & T1 & F1) ? ? ? ? ? C1 P1] [(n2 & T2 & F2) ? ? ? ? ? C2 P2].
  split; auto; try congruence.
  exists (n2 ++ n1). rewrite T2, T1, app_assoc. split; [reflexivity|].
  apply Forall_app; auto.
Qed.

(** ** Rules for [spec] *)

Lemma spec_ret {A} (a : A) st (Q : result A -> State -> Prop) :
  Q (Ok a) st -> spec (ret a) st Q.
Proof. intros H r st' [= <- <-]. split; [apply advances_refl|exact H]. Qed.

Lemma spec_raise {A} e st (Q : result A -> State -> Prop) :
  Q (Raise e) st -> spec (raise e) st Q.
Proof. intros H r st' [= <- <-]. split; [apply advances_refl|exact H]. Qed.

Lemma spec_get_context st (Q : result ProjectContext -> State -> Prop) :
  Q (Ok (context st)) st -> spec get_context st Q.
Proof. intros H r st' [= <- <-]. split; [apply advances_refl|exact H]. Qed.

Lemma spec_weaken {A} (c : M A) st (Q Q' : result A -> State -> Prop) :
  spec c st Q -> (forall r st', advances st st' -> Q r st' -> Q' r st') ->
  spec c st Q'.
Proof. intros H W r st' E. destruct (H _ _ E). split; auto. Qed.

(** Sequencing after a computation with a stated specification. *)
Lemma spec_bind {A B} (c : M A) (k : A -> M B) st
    (Q1 : result A -> State -> Prop) (Q : result B -> State -> Prop) :
  spec c st Q1 ->
  (forall e st1, advances st st1 -> Q1 (Raise e) st1 -> Q (Raise e) st1) ->
  (forall a st1, advances st st1 -> Q1 (Ok a) st1 -> spec (k a) st1 Q) ->
  spec (bind c k) st Q.
Proof.
  intros Hc He Hk r st'. unfold bind.
  destruct (c st) as [[a|e] st1] eqn:E; destruct (Hc _ _ E) as [Ha Hq].
  - intros E2. destruct (Hk a st1 Ha Hq _ _ E2) as [Ha2 Hq2].
    split; [eapply advances_trans; eauto|exact Hq2].
  - intros [= <- <-]. split; [exact Ha|apply He; assumption].
Qed.

(** Sequencing after a step whose outcome is known. *)
Lemma spec_step {A B} (c : M A) (k : A -> M B) st a st1
    (Q : result B -> State -> Prop) :
  c st = (Ok a, st1) -> advances st st1 -> spec (k a) st1 Q ->
  spec (bind c k) st Q.
Proof.
  intros E Ha Hk r st'. unfold bind. rewrite E. intros E2.
  destruct (Hk _ _ E2). split; [eapply advances_trans; eauto|assumption].
Qed.

Lemma spec_bind_lift {A B} (x : result A) (k : A -> M B) st
    (Q : result B -> State -> Prop) :
  match x with
  | Ok a => spec (k a) st Q
  | Raise e => Q (Raise e) st
  end ->
  spec (bind (lift x) k) st Q.
Proof.
  intros H r st'. unfold bind, lift. destruct x as [a|e].
  - apply H.
  - intros [= <- <-]. split; [apply advances_refl|exact H].
Qed.

(** ** The steps of a stage *)

Lemma advances_event e c t d :
  entry_ok e ->
  advances {| context := c; trace := t; disk := d |}
           {| context := c; trace := e :: t; disk := d |}.
Proof.
  intros He. split; simpl; auto. exists [e]. split; [reflexivity|].
  constructor; auto.
Qed.

Lemma advances_events new c t d d' :
  Forall entry_ok new ->
  advances {| context := c; trace := t; disk := d |}
           {| context := c; trace := new ++ t; disk := d' |}.
Proof. intros He. split; simpl; auto. exists new. auto. Qed.

Lemma advances_save_context c t d :
  advances {| context := c; trace := t; disk := d |}
           {| context := c; trace := EvSaveContext c :: t;
              disk := Some (Holds (asdict c)) |}.
Proof.
  apply (advances_events [EvSaveContext c]).
  constructor; [exact I|constructor].
Qed.

Lemma advances_set_current_stage v c t d :
  advances {| context := c; trace := t; disk := d |}
           {| context := set_current_stage v c; trace := t; disk := d |}.
Proof. split; simpl; auto. exists []. split; [reflexivity|constructor]. Qed.

Lemma advances_enter s name c t d :
  entry_ok (EvStage s c) ->
  advances {| context := c; trace := t; disk := d |}
           {| context := set_current_stage (vs name) c;
              trace := EvStage s c :: t; disk := d |}.
Proof.
  intros He. split; simpl; auto. exists [EvStage s c].
  split; [reflexivity|]. constructor; auto.
Qed.

Lemma advances_set_result (set : value -> ProjectContext -> ProjectContext) v c t d :
  truthy v = true ->
  In set [set_requirements; set_architecture; set_codebase; set_test_results;
          set_deployment] ->
  advances {| context := c; trace := t; disk := d |}
           {| context := set v c; trace := t; disk := d |}.
Proof.
  intros Hv Hin. simpl in Hin.
  repeat (destruct Hin as [<-|Hin];
          [split; simpl; auto; exists []; split; [reflexivity|constructor]|]).
  destruct Hin.
Qed.

Lemma api_events_entry_ok new : Forall api_event new -> Forall entry_ok new.
Proof.
  intros H. eapply Forall_impl; [|exact H].
  intros [] He; simpl in *; auto; contradiction.
Qed.

(** Sequencing after [call_api]: the continuation runs on a truthy value,
    in a state that differs by remote calls and waits only. *)
Lemma spec_bind_call_api {B} api name (k : value -> M B) st
    (Q : result B -> State -> Prop) :
  (forall v new, truthy v = true -> Forall api_event new ->
     spec (k v) {| context := context st; trace := new ++ trace st;
                   disk := disk st |} Q) ->
  spec (bind (call_api api name) k) st Q.
Proof.
  intros H.
  destruct (call_api_spec api name st) as (v & new & E & Hv & Hev & _).
  eapply spec_step; [exact E| |apply H; assumption].
  destruct st. apply advances_events, api_events_entry_ok, Hev.
Qed.

Lemma spec_bind_assoc {A B C} (c : M A) (f : A -> M B) (k : B -> M C) st
    (Q : result C -> State -> Prop) :
  spec (bind c (fun a => bind (f a) k)) st Q ->
  spec (bind (bind c f) k) st Q.
Proof.
  intros H r st' E. apply H. revert E. unfold bind.
  destruct (c st) as [[a|e] st1]; auto.
Qed.

(** ** What the stages raise *)

Lemma py_get_nve x k d e : py_get x k d = Raise e -> not_value_error e.
Proof. destruct x; simpl; intros [= <-]; exact I. Qed.

Lemma py_iter_nve x e : py_iter x = Raise e -> not_value_error e.
Proof. destruct x; simpl; intros [= <-]; exact I. Qed.

Lemma py_in_nve k x e : py_in k x = Raise e -> not_value_error e.
Proof. destruct x; simpl; intros [= <-]; exact I. Qed.

Lemma py_getitem_nve x k e : py_getitem x k = Raise e -> not_value_error e.
Proof.
  destruct x; simpl; try (intros [= <-]; exact I).
  destruct (dict_lookup (VStr k) d); intros [= <-]; exact I.
Qed.

Lemma write_files_nve files e : write_files files = Raise e -> not_value_error e.
Proof.
  induction files as [|[k v] files IH]; simpl; [discriminate|].
  destruct k; try (intros [= <-]; exact I).
  destruct v; try (intros [= <-]; exact I). exact IH.
Qed.

Lemma create_test_files_nve x e : create_test_files x = Raise e -> not_value_error e.
Proof.
  destruct x; simpl; try (intros [= <-]; exact I). apply write_files_nve.
Qed.

Lemma create_code_files_nve x e : create_code_files x = Raise e -> not_value_error e.
Proof.
  unfold create_code_files.
  destruct (py_get x (py "modules") (VDict [])) as [m|e'] eqn:G;
    [|intros [= <-]; eapply py_get_nve; eauto].
  destruct m; try (intros [= <-]; exact I). clear G.
  induction d as [|[k v] d IH]; simpl; [discriminate|].
  destruct k; try (intros [= <-]; exact I).
  destruct (py_in (py "code_files") v) as [[|]|e'] eqn:I1;
    [| exact IH | intros [= <-]; eapply py_in_nve; eauto].
  destruct (py_getitem v (py "code_files")) as [f|e'] eqn:I2;
    [|intros [= <-]; eapply py_getitem_nve; eauto].
  destruct f; try (intros [= <-]; exact I).
  destruct (write_files d0) as [|e'] eqn:W;
    [exact IH|intros [= <-]; eapply write_files_nve; eauto].
Qed.

Lemma create_deployment_files_safe_nve x e :
  create_deployment_files_safe x = Raise e -> not_value_error e.
Proof.
  unfold create_deployment_files_safe.
  generalize [py "docker_files"; py "ci_cd_config"; py "k8s_manifests"].
  intros keys. induction keys as [|k keys IH]; simpl; [discriminate|].
  destruct (py_in k x) as [[|]|e'] eqn:I1;
    [| exact IH | intros [= <-]; eapply py_in_nve; eauto].
  destruct (py_getitem x k) as [f|e'] eqn:I2;
    [exact IH|intros [= <-]; eapply py_getitem_nve; eauto].
Qed.

Lemma combine_loop_nve modules : forall results mods deps status e,
  combine_loop modules results mods deps status = Raise e -> not_value_error e.
Proof.
  induction modules as [|m modules IH]; intros results mods deps status e; simpl;
    [discriminate|].
  destruct results as [|[r|e'] results]; try (intros [= <-]; exact I).
  - destruct (hashable m); [|intros [= <-]; exact I].
    destruct (py_get r (py "dependencies") (VList [])) as [d|e''] eqn:G;
      [|intros [= <-]; eapply py_get_nve; eauto].
    destruct (py_iter d) as [l|e''] eqn:It;
      [apply IH|intros [= <-]; eapply py_iter_nve; eauto].
  - destruct (hashable m); [apply IH|intros [= <-]; exact I].
Qed.

Lemma combine_post order modules results :
  match combine order modules results with
  | Ok v => truthy v = true
  | Raise e => not_value_error e
  end.
Proof.
  unfold combine.
  destruct (combine_loop modules results [] [] (vs "completed"))
    as [[[mods deps] status]|e] eqn:E; [|eapply combine_loop_nve; eauto].
  destruct (forallb hashable deps); [reflexivity|exact I].
Qed.

(** ** The stages *)

Lemma gather_call_api api names : forall st,
  exists rs new,
    gather (map (generate_module_code api) names) st =
      (Ok rs, {| context := context st; trace := new ++ trace st; disk := disk st |})
    /\ Forall api_event new.
Proof.
  induction names as [|n names IH]; intros st; simpl.
  - exists [], []. destruct st; auto.
  - unfold generate_module_code at 1.
    destruct (call_api_spec api developer st) as (v & new & E & _ & Hev & _).
    rewrite E.
    destruct (IH {| context := context st; trace := new ++ trace st; disk := disk st |})
      as (rs & new' & E' & Hev').
    rewrite E'. simpl. exists (Ok v :: rs), (new' ++ new).
    rewrite app_assoc. split; [reflexivity|]. apply Forall_app; auto.
Qed.

Ltac known_step adv :=
  eapply spec_step;
  [ reflexivity
  | cbn [context trace disk]; adv
  | cbn [context trace disk] ].

Lemma stage_1_requirements_spec api st :
  spec (stage_1_requirements api) st (stage_post Requirements).
Proof.
  unfold stage_1_requirements. destruct st as [c t d]; cbn [context] in *.
  known_step ltac:(apply advances_enter; exact I).
  apply spec_bind_call_api. intros v new Hv Hev.
  known_step ltac:(apply advances_set_result; [exact Hv|simpl; tauto]).
  known_step ltac:(apply advances_event; exact I).
  known_step ltac:(apply advances_save_context).
  apply spec_ret. exact Hv.
Qed.

Lemma stage_2_architecture_spec api st :
  truthy (requirements (context st)) = true ->
  spec (stage_2_architecture api) st (stage_post Architecture).
Proof.
  intros Hp. unfold stage_2_architecture. destruct st as [c t d]; cbn [context] in *.
  known_step ltac:(apply advances_enter; apply truthy_not_none, Hp).
  apply spec_bind_call_api. intros v new Hv Hev.
  known_step ltac:(apply advances_set_result; [exact Hv|simpl; tauto]).
  known_step ltac:(apply advances_event; exact I).
  known_step ltac:(apply advances_save_context).
  apply spec_ret. exact Hv.
Qed.

Lemma stage_3_code_generation_spec api order st :
  truthy (architecture (context st)) = true ->
  spec (stage_3_code_generation api order) st (stage_post Code).
Proof.
  intros Hp. unfold stage_3_code_generation, stage_3_with.
  destruct st as [c t d]; cbn [context] in *.
  known_step ltac:(apply advances_enter; apply truthy_not_none, Hp).
  known_step ltac:(apply advances_refl).
  apply spec_bind_lift. cbn [context set_current_stage architecture].
  destruct (py_get (architecture c) (py "modules") default_modules)
    as [modules|e] eqn:G; [|eapply py_get_nve; eauto].
  apply spec_bind_lift.
  destruct (py_iter modules) as [names|e] eqn:It; [|eapply py_iter_nve; eauto].
  match goal with |- spec _ ?s _ =>
    destruct (gather_call_api api names s) as (rs & new & E & Hev) end.
  cbn [context trace disk] in E.
  eapply spec_step;
    [exact E | apply advances_events, api_events_entry_ok, Hev |].
  apply spec_bind_lift. pose proof (combine_post order names rs) as Hc.
  destruct (combine order names rs) as [combined|e]; [|exact Hc].
  known_step ltac:(apply advances_set_result; [exact Hc|simpl; tauto]).
  known_step ltac:(apply advances_event; exact I).
  apply spec_bind_lift.
  destruct (create_code_files combined) as [[]|e] eqn:Cf;
    [|eapply create_code_files_nve; eauto].
  known_step ltac:(apply advances_save_context).
  apply spec_ret. exact Hc.
Qed.

Lemma stage_4_review_and_test_spec api st :
  truthy (codebase (context st)) = true ->
  spec (stage_4_review_and_test api) st (stage_post Review).
Proof.
  intros Hp. unfold stage_4_review_and_test. destruct st as [c t d]; cbn [context] in *.
  known_step ltac:(apply advances_enter; apply truthy_not_none, Hp).
  apply spec_bind_call_api. intros v new Hv Hev.
  known_step ltac:(apply advances_set_result; [exact Hv|simpl; tauto]).
  known_step ltac:(apply advances_event; exact I).
  apply spec_bind_lift.
  destruct (py_in (py "test_files") v) as [[|]|e] eqn:I1;
    [| | eapply py_in_nve; eauto].
  - apply spec_bind_assoc, spec_bind_lift.
    destruct (py_getitem v (py "test_files")) as [tf|e] eqn:I2;
      [|eapply py_getitem_nve; eauto].
    apply spec_bind_lift.
    destruct (create_test_files tf) as [[]|e] eqn:Ct;
      [|eapply create_test_files_nve; eauto].
    known_step ltac:(apply advances_save_context).
    apply spec_ret. exact Hv.
  - known_step ltac:(apply advances_refl).
    known_step ltac:(apply advances_save_context).
    apply spec_ret. exact Hv.
Qed.

Lemma stage_5_deployment_spec api st :
  truthy (test_results (context st)) = true ->
  spec (stage_5_deployment api) st (stage_post Deployment).
Proof.
  intros Hp. unfold stage_5_deployment. destruct st as [c t d]; cbn [context] in *.
  known_step ltac:(apply advances_enter; apply truthy_not_none, Hp).
  apply spec_bind_call_api. intros v new Hv Hev.
  known_step ltac:(apply advances_set_result; [exact Hv|simpl; tauto]).
  known_step ltac:(apply advances_event; exact I).
  apply spec_bind_lift.
  destruct (create_deployment_files_safe v) as [[]|e] eqn:Cf;
    [|eapply create_deployment_files_safe_nve; eauto].
  known_step ltac:(apply advances_save_context).
  apply spec_ret. exact Hv.
Qed.

(** ** [resume_workflow] and [run_full_workflow] *)

Lemma spec_bind_raise {A B} e (k : A -> M B) st (Q : result B -> State -> Prop) :
  Q (Raise e) st -> spec (bind (raise e) k) st Q.
Proof. intros H r st' [= <- <-]. split; [apply advances_refl|exact H]. Qed.

Lemma spec_bind_ret {A B} (a : A) (k : A -> M B) st (Q : result B -> State -> Prop) :
  spec (k a) st Q -> spec (bind (ret a) k) st Q.
Proof. intros H r st' E. apply H. exact E. Qed.

Lemma spec_bind_get_context {B} (k : ProjectContext -> M B) st
    (Q : result B -> State -> Prop) :
  spec (k (context st)) st Q -> spec (bind get_context k) st Q.
Proof. intros H r st' E. apply H. exact E. Qed.

(** Sequencing after [if not self.context.<field>: await <stage>]: a stage
    that raises ends the run; otherwise the field holds a result. *)
Lemma spec_bind_unless_present {B} (s : stage) (run : M value) (k : unit -> M B) st
    (Q : result B -> State -> Prop) :
  (truthy (field_of s (context st)) = false -> spec run st (stage_post s)) ->
  (forall e st1, not_value_error e -> Q (Raise e) st1) ->
  (forall st1, advances st st1 ->
               truthy (field_of s (context st1)) = true -> spec (k tt) st1 Q) ->
  spec (bind (unless_present (field_of s) run) k) st Q.
Proof.
  intros Hrun He Hk. unfold unless_present.
  apply spec_bind_assoc, spec_bind_get_context.
  destruct (truthy (field_of s (context st))) eqn:T; cbn [negb].
  - apply spec_bind_ret, Hk; [apply advances_refl|exact T].
  - apply spec_bind_assoc.
    apply (spec_bind _ _ _ (stage_post s)); [apply Hrun; reflexivity| |].
    + intros e st1 _ Hq. apply He. exact Hq.
    + intros v st1 Ha Hq. apply spec_bind_ret, spec_bind_ret, Hk; assumption.
Qed.

Lemma resume_workflow_spec api order input st :
  spec (resume_workflow api order input) st (resume_post st input).
Proof.
  assert (Hraise : forall e st1, not_value_error e ->
                                 resume_post st input (Raise e) st1).
  { intros e st1 H. right. exact H. }
  unfold resume_workflow. apply spec_bind_get_context.
  (* the requirements *)
  assert (Hrest : forall st1, advances st st1 ->
            truthy (requirements (context st1)) = true ->
            spec (unless_present architecture (stage_2_architecture api) ;;;
                  unless_present codebase (stage_3_code_generation api order) ;;;
                  unless_present test_results (stage_4_review_and_test api) ;;;
                  unless_present deployment (stage_5_deployment api) ;;;
                  modify_context (set_current_stage (vs "completed")) ;;;
                  save_context ;;; get_context) st1 (resume_post st input)).
  { clear. intros st1 _ R1.
    assert (Hraise : forall e st', not_value_error e ->
                                   resume_post st input (Raise e) st').
    { intros e st' H. right. exact H. }
    apply (spec_bind_unless_present Architecture);
      [intros _; apply stage_2_architecture_spec, R1 | exact Hraise |].
    intros st2 A2 R2. pose proof (adv_requirements _ _ A2 R1) as R1'.
    apply (spec_bind_unless_present Code);
      [intros _; apply stage_3_code_generation_spec, R2 | exact Hraise |].
    intros st3 A3 R3. pose proof (adv_requirements _ _ A3 R1') as R1''.
    pose proof (adv_architecture _ _ A3 R2) as R2'.
    apply (spec_bind_unless_present Review);
      [intros _; apply stage_4_review_and_test_spec, R3 | exact Hraise |].
    intros st4 A4 R4. pose proof (adv_requirements _ _ A4 R1'') as R1'''.
    pose proof (adv_architecture _ _ A4 R2') as R2''.
    pose proof (adv_codebase _ _ A4 R3) as R3'.
    apply (spec_bind_unless_present Deployment);
      [intros _; apply stage_5_deployment_spec, R4 | exact Hraise |].
    intros st5 A5 R5.
    pose proof (adv_requirements _ _ A5 R1''').
    pose proof (adv_architecture _ _ A5 R2'').
    pose proof (adv_codebase _ _ A5 R3').
    pose proof (adv_test_results _ _ A5 R4).
    destruct st5 as [c t d]; cbn [context field_of] in *.
    known_step ltac:(apply advances_set_current_stage).
    known_step ltac:(apply advances_save_context).
    apply spec_get_context. cbn.
    repeat split; assumption. }
  destruct (truthy (requirements (context st))) eqn:T; cbn [negb].
  - apply spec_bind_ret, Hrest; [apply advances_refl|exact T].
  - destruct (no_input input) eqn:NI.
    + apply spec_bind_raise. left. auto.
    + apply spec_bind_assoc.
      apply (spec_bind _ _ _ (stage_post Requirements));
        [apply stage_1_requirements_spec| |].
      * intros e st1 _ Hq. apply Hraise, Hq.
      * intros v st1 Ha Hq. apply spec_bind_ret, Hrest; assumption.
Qed.

Lemma run_full_workflow_advances api order input st :
  advances st (snd (run_full_workflow api order input st)).
Proof.
  unfold run_full_workflow, on_exception.
  match goal with |- context [match ?c st with _ => _ end] =>
    assert (H : spec c st (fun _ _ => True)) end.
  { apply spec_bind_get_context.
    destruct (negb (value_eqb (current_stage (context st)) (vs "not_started"))).
    - eapply spec_weaken; [apply resume_workflow_spec|]. intros; exact I.
    - apply (spec_bind _ _ _ (stage_post Requirements));
        [apply stage_1_requirements_spec|intros; exact I|].
      intros v1 st1 _ R1.
      apply (spec_bind _ _ _ (stage_post Architecture));
        [apply stage_2_architecture_spec, R1|intros; exact I|].
      intros v2 st2 _ R2.
      apply (spec_bind _ _ _ (stage_post Code));
        [apply stage_3_code_generation_spec, R2|intros; exact I|].
      intros v3 st3 _ R3.
      apply (spec_bind _ _ _ (stage_post Review));
        [apply stage_4_review_and_test_spec, R3|intros; exact I|].
      intros v4 st4 _ R4.
      apply (spec_bind _ _ _ (stage_post Deployment));
        [apply stage_5_deployment_spec, R4|intros; exact I|].
      intros v5 st5 _ R5. destruct st5 as [c t d].
      known_step ltac:(apply advances_set_current_stage).
      known_step ltac:(apply advances_save_context).
      apply spec_get_context. exact I. }
  match goal with |- context [match ?c st with _ => _ end] =>
    destruct (c st) as [[a|e] st1] eqn:E end;
    destruct (H _ _ E) as [Ha _]; cbn [snd]; [exact Ha|].
  eapply advances_trans; [exact Ha|]. destruct st1. apply advances_save_context.
Qed.

(** C3: in every run of [resume_workflow] and of [run_full_workflow],
    whatever the context, the input and the remote producer, each stage
    from the second on is entered with the result of the stage before it in
    the context: the events a run adds to the trace all satisfy
    [entry_ok]. *)
Theorem stage_entry_order (api : GeminiAPIManager)
    (order : list value -> list value) (input : option str) (st : State) :
  (exists new, trace (snd (resume_workflow api order input st)) = new ++ trace st /\
               Forall entry_ok new) /\
  (exists new, trace (snd (run_full_workflow api order input st)) = new ++ trace st /\
               Forall entry_ok new).
Proof.
  split.
  - destruct (resume_workflow api order input st) as [r st'] eqn:E.
    exact (adv_trace _ _ (proj1 (resume_workflow_spec api order input st _ _ E))).
  - exact (adv_trace _ _ (run_full_workflow_advances api order input st)).
Qed.

(** A second [resume_workflow] finds every result in place. *)
Lemma resume_workflow_again api order input st :
  all_results (context st) ->
  current_stage (context st) = vs "completed" ->
  disk st = Some (Holds (asdict (context st))) ->
  resume_workflow api order input st =
    (Ok (context st),
     {| context := context st; trace := EvSaveContext (context st) :: trace st;
        disk := disk st |}).
Proof.
  intros (R1 & R2 & R3 & R4 & R5) Hc Hd.
  unfold resume_workflow, unless_present, bind, get_context, ret.
  rewrite R1. cbn. rewrite R2. cbn. rewrite R3. cbn. rewrite R4. cbn.
  rewrite R5. cbn. rewrite Hd.
  destruct st as [c t d]; cbn in *. destruct c; cbn in *. subst.
  reflexivity.
Qed.

(** C2: when [resume_workflow] has returned on a context in which the five
    results were present, a second [resume_workflow], whatever its input
    and the remote producer, returns the same context, makes no remote
    call, and leaves the context and the persisted file as they were. *)
Theorem resume_workflow_idempotent
    (api api' : GeminiAPIManager) (order order' : list value -> list value)
    (input input' : option str)
    (st st1 : State) (c1 : ProjectContext) :
  requirements (context st) <> VNone ->
  architecture (context st) <> VNone ->
  codebase (context st) <> VNone ->
  test_results (context st) <> VNone ->
  deployment (context st) <> VNone ->
  resume_workflow api order input st = (Ok c1, st1) ->
  fst (resume_workflow api' order' input' st1) = Ok c1 /\
  context (snd (resume_workflow api' order' input' st1)) = context st1 /\
  asdict (context (snd (resume_workflow api' order' input' st1))) = asdict (context st1) /\
  disk (snd (resume_workflow api' order' input' st1)) = disk st1 /\
  remote_calls (trace (snd (resume_workflow api' order' input' st1))) =
    remote_calls (trace st1).
Proof.
  intros _ _ _ _ _ E.
  destruct (resume_workflow_spec api order input st _ _ E) as [_ (-> & Ha & Hc & Hd)].
  rewrite (resume_workflow_again api' order' input' st1 Ha Hc Hd).
  repeat split; reflexivity.
Qed.

(** ** The fan-out of the code generation stage *)


Lemma str_eqb_eq a : forall b, str_eqb a b = true <-> a = b.
Proof.
  induction a as [|x a IH]; intros [|y b]; simpl; split; try discriminate; auto.
  - intros H. apply andb_prop in H. destruct H as [H1 H2].
    apply N.eqb_eq in H1. apply IH in H2. congruence.
  - intros [= -> ->]. rewrite N.eqb_refl. apply IH. reflexivity.
Qed.

Lemma str_eqb_refl a : str_eqb a a = true.
Proof. apply str_eqb_eq. reflexivity. Qed.

Lemma str_eqb_neq a b : a <> b -> str_eqb a b = false.
Proof.
  intros H. destruct (str_eqb a b) eqn:E; [|reflexivity].
  apply str_eqb_eq in E. contradiction.
Qed.

Lemma forallb_is_str_hashable l : forallb is_str l = true -> forallb hashable l = true.
Proof.
  induction l as [|x l IH]; simpl; [reflexivity|].
  intros H. apply andb_prop in H. destruct H as [H1 H2].
  rewrite (IH H2). destruct x; try discriminate H1. reflexivity.
Qed.

Lemma write_files_strings files :
  forallb (fun kv => is_str (fst kv) && is_str (snd kv)) files = true ->
  write_files files = Ok tt.
Proof.
  induction files as [|[k v] files IH]; simpl; [reflexivity|].
  intros H. apply andb_prop in H. destruct H as [H1 H2].
  apply andb_prop in H1. destruct H1 as [Hk Hv].
  destruct k; try discriminate Hk. destruct v; try discriminate Hv. auto.
Qed.

(** What the stage does with a well-formed record of a module. *)
Lemma module_record_consumed r :
  module_record r = true ->
  exists l, (py_get r (py "dependencies") (VList []) = Ok (VList l) /\
             forallb is_str l = true) /\
            forall name rest,
              create_code_files_loop ((VStr name, r) :: rest) =
              create_code_files_loop rest.
Proof.
  destruct r; try discriminate. cbn [module_record py_get].
  intros H. apply andb_prop in H. destruct H as [Hd Hf].
  change (VStr (py "dependencies")) with (vs "dependencies").
  assert (F : forall name rest,
            create_code_files_loop ((VStr name, VDict d) :: rest) =
            create_code_files_loop rest).
  { intros name rest. cbn [create_code_files_loop py_in py_getitem].
    change (VStr (py "code_files")) with (vs "code_files").
    destruct (dict_lookup (vs "code_files") d) as [files|]; [|reflexivity].
    destruct files; try discriminate Hf.
    rewrite (write_files_strings _ Hf). reflexivity. }
  destruct (dict_lookup (vs "dependencies") d) as [deps|] eqn:D.
  - destruct deps; try discriminate Hd. exists l. auto.
  - exists []. auto.
Qed.

Ltac run_task task T :=
  match goal with
  | |- context [task ?m ?s] =>
      let x := fresh "x" in let s' := fresh "s" in let E := fresh "E" in
      let H := fresh "H" in
      destruct (task m s) as [x s'] eqn:E;
      pose proof (T s) as H; rewrite E in H; cbn [fst] in H; subst x
  end.

(** C4: the architecture lists three distinct modules; the task of the
    second raises, the tasks of the first and the third return well-formed
    records.  Then the stage returns (and stores as the code base) a
    combined result that maps the first and the third module to their own
    records, the second to the default record of the developer role, and
    whose status is [partial_failure]. *)
Theorem fan_out_isolation (order : list value -> list value)
    (task : value -> M value) (m1 m2 m3 : str) (r1 r3 : value) (e : exn) (st : State) :
  py_get (architecture (context st)) (py "modules") default_modules =
    Ok (VList [VStr m1; VStr m2; VStr m3]) ->
  m1 <> m2 -> m1 <> m3 -> m2 <> m3 ->
  module_record r1 = true -> module_record r3 = true ->
  (forall s, fst (task (VStr m1) s) = Ok r1) ->
  (forall s, fst (task (VStr m2) s) = Raise e) ->
  (forall s, fst (task (VStr m3) s) = Ok r3) ->
  exists combined_result deps,
    fst (stage_3_with order task st) = Ok combined_result /\
    codebase (context (snd (stage_3_with order task st))) = combined_result /\
    combined_result =
      VDict [ (vs "modules",
               VDict [ (VStr m1, r1);
                       (VStr m2, get_default_structure developer);
                       (VStr m3, r3) ]);
              (vs "file_structure", VDict []);
              (vs "dependencies", VList deps);
              (vs "status", vs "partial_failure") ].
Proof.
  intros Hm N12 N13 N23 R1 R3 T1 T2 T3.
  destruct (module_record_consumed r1 R1) as (l1 & (G1 & S1) & F1).
  destruct (module_record_consumed r3 R3) as (l3 & (G3 & S3) & F3).
  destruct (module_record_consumed (get_default_structure developer) eq_refl)
    as (l2 & _ & F2).
  exists (VDict [ (vs "modules",
               VDict [ (VStr m1, r1);
                       (VStr m2, get_default_structure developer);
                       (VStr m3, r3) ]);
              (vs "file_structure", VDict []);
              (vs "dependencies", VList (order (l1 ++ l3)));
              (vs "status", vs "partial_failure") ]), (order (l1 ++ l3)).
  unfold stage_3_with, enter, bind, get_context, emit, modify_context, lift,
    save_stage_output, save_context, ret.
  cbn [context set_current_stage architecture]. rewrite Hm.
  cbn [py_iter map gather].
  run_task task T1. run_task task T2. run_task task T3.
  assert (C : combine order [VStr m1; VStr m2; VStr m3] [Ok r1; Raise e; Ok r3] =
              Ok (VDict [ (vs "modules",
                           VDict [ (VStr m1, r1);
                                   (VStr m2, get_default_structure developer);
                                   (VStr m3, r3) ]);
                          (vs "file_structure", VDict []);
                          (vs "dependencies", VList (order (l1 ++ l3)));
                          (vs "status", vs "partial_failure") ])).
  { unfold combine. cbn [combine_loop hashable]. rewrite G1.
    cbn [py_iter combine_loop hashable]. rewrite G3.
    cbn [py_iter combine_loop hashable dict_set value_eqb].
    repeat (rewrite ?(str_eqb_neq _ _ N12), ?(str_eqb_neq _ _ N13),
              ?(str_eqb_neq _ _ N23);
            cbn [combine_loop dict_set value_eqb app]).
    rewrite forallb_is_str_hashable; [reflexivity|].
    rewrite forallb_app, S1, S3. reflexivity. }
  cbn [ret]. rewrite C. cbn [ret emit]. unfold create_code_files.
  cbn [py_get dict_lookup value_eqb vs].
  rewrite (str_eqb_refl (py "modules")).
  rewrite F1, F2, F3. cbn [create_code_files_loop fst snd context codebase set_codebase].
  repeat split; reflexivity.
Qed.

Lemma fan_out_isolation_witness :
  exists combined_result deps,
    fst (stage_3_with py_list_set second_fails three_modules_state) = Ok combined_result /\
    codebase (context (snd (stage_3_with py_list_set second_fails three_modules_state))) =
      combined_result /\
    combined_result =
      VDict [ (vs "modules",
               VDict [ (vs "api", api_record);
                       (vs "web", get_default_structure developer);
                       (vs "db", db_record) ]);
              (vs "file_structure", VDict []);
              (vs "dependencies", VList deps);
              (vs "status", vs "partial_failure") ].
Proof.
  apply (fan_out_isolation py_list_set second_fails (py "api") (py "web") (py "db")
           api_record db_record RemoteError three_modules_state);
    try reflexivity; try discriminate; intros s; reflexivity.
Defined.

(** ** A run in which every remote call fails *)

Section TotalFailure.

Variable api : GeminiAPIManager.
Variable order : list value -> list value.
Hypothesis all_fail : forall i, fails api i.

Lemma call_api_all_fail role st :
  exists new, call_api api role st =
    (Ok (get_default_structure role),
     {| context := context st; trace := new ++ trace st; disk := disk st |}).
Proof.
  destruct (call_api_spec api role st) as (v & new & E & _).
  exists new. rewrite E. f_equal. 
  pose proof (call_api_loop_all_fail api role max_retries (seq 0 max_retries) st
                (fun i _ => all_fail i)) as F.
  fold (call_api api role) in F. rewrite E in F. exact F.
Qed.

Lemma stage_1_all_fail c t d :
  exists t' d',
    stage_1_requirements api {| context := c; trace := t; disk := d |} =
      (Ok default_planner,
       {| context := set_requirements default_planner
                       (set_current_stage (vs "requirements") c);
          trace := t'; disk := d' |}).
Proof.
  unfold stage_1_requirements, enter, bind, get_context, emit, modify_context,
    save_stage_output, save_context, ret.
  match goal with |- context [call_api api planner ?s] =>
    destruct (call_api_all_fail planner s) as [new E] end.
  rewrite E. change (get_default_structure planner) with default_planner.
  cbn [context trace disk]. eexists _, _. reflexivity.
Qed.

Lemma stage_2_all_fail c t d :
  exists t' d',
    stage_2_architecture api {| context := c; trace := t; disk := d |} =
      (Ok default_architect,
       {| context := set_architecture default_architect
                       (set_current_stage (vs "architecture") c);
          trace := t'; disk := d' |}).
Proof.
  unfold stage_2_architecture, enter, bind, get_context, emit, modify_context,
    save_stage_output, save_context, ret.
  match goal with |- context [call_api api architect ?s] =>
    destruct (call_api_all_fail architect s) as [new E] end.
  rewrite E. change (get_default_structure architect) with default_architect.
  cbn [context trace disk]. eexists _, _. reflexivity.
Qed.

Lemma stage_4_all_fail c t d :
  exists t' d',
    stage_4_review_and_test api {| context := c; trace := t; disk := d |} =
      (Ok default_reviewer,
       {| context := set_test_results default_reviewer
                       (set_current_stage (vs "review") c);
          trace := t'; disk := d' |}).
Proof.
  unfold stage_4_review_and_test, enter, bind, get_context, emit, modify_context,
    save_stage_output, save_context, ret, lift.
  match goal with |- context [call_api api reviewer ?s] =>
    destruct (call_api_all_fail reviewer s) as [new E] end.
  rewrite E. change (get_default_structure reviewer) with default_reviewer.
  replace (py_in (py "test_files") default_reviewer) with (Ok true : result bool)
    by reflexivity.
  destruct (py_getitem default_reviewer (py "test_files")) as [tf|] eqn:G;
    [|discriminate G].
  replace (create_test_files tf) with (Ok tt : result unit)
    by (injection G as <-; reflexivity).
  cbn [context trace disk]. eexists _, _. reflexivity.
Qed.

Lemma stage_5_all_fail c t d :
  exists t' d',
    stage_5_deployment api {| context := c; trace := t; disk := d |} =
      (Ok default_devops,
       {| context := set_deployment default_devops
                       (set_current_stage (vs "deployment") c);
          trace := t'; disk := d' |}).
Proof.
  unfold stage_5_deployment, enter, bind, get_context, emit, modify_context,
    save_stage_output, save_context, ret, lift.
  match goal with |- context [call_api api devops ?s] =>
    destruct (call_api_all_fail devops s) as [new E] end.
  rewrite E. change (get_default_structure devops) with default_devops.
  replace (create_deployment_files_safe default_devops) with (Ok tt : result unit)
    by reflexivity.
  cbn [context trace disk]. eexists _, _. reflexivity.
Qed.

Lemma gather_all_fail names : forall st,
  exists new,
    gather (map (generate_module_code api) names) st =
      (Ok (map (fun _ => Ok default_developer) names),
       {| context := context st; trace := new ++ trace st; disk := disk st |}).
Proof.
  induction names as [|n names IH]; intros st; simpl.
  - exists []. destruct st; reflexivity.
  - unfold generate_module_code at 1.
    destruct (call_api_all_fail developer st) as [new E]. rewrite E.
    change (get_default_structure developer) with default_developer.
    destruct (IH {| context := context st; trace := new ++ trace st; disk := disk st |})
      as [new' E'].
    rewrite E'. simpl. exists (new' ++ new). rewrite app_assoc. reflexivity.
Qed.

Lemma stage_3_all_fail c t d :
  py_get (architecture c) (py "modules") default_modules = Ok default_modules ->
  exists t' d',
    stage_3_code_generation api order {| context := c; trace := t; disk := d |} =
      (Ok (degraded_codebase order),
       {| context := set_codebase (degraded_codebase order)
                       (set_current_stage (vs "code") c);
          trace := t'; disk := d' |}).
Proof.
  intros Hm.
  unfold stage_3_code_generation, stage_3_with, enter, bind, get_context, emit,
    modify_context, save_stage_output, save_context, ret, lift.
  cbn [context set_current_stage architecture]. rewrite Hm.
  change (py_iter default_modules)
    with (Ok [vs "backend"; vs "frontend"; vs "database"]).
  cbv beta iota.
  match goal with |- context [gather ?ts ?s] =>
    destruct (gather_all_fail [vs "backend"; vs "frontend"; vs "database"] s)
      as [new E] end.
  rewrite E.
  replace (combine order [vs "backend"; vs "frontend"; vs "database"]
             (map (fun _ => Ok default_developer)
                  [vs "backend"; vs "frontend"; vs "database"]))
    with (Ok (degraded_codebase order)) by reflexivity.
  replace (create_code_files (degraded_codebase order)) with (Ok tt : result unit)
    by reflexivity.
  cbn [context trace disk]. eexists _, _. reflexivity.
Qed.

Lemma bind_eq {A B} (c : M A) (k : A -> M B) st a st1 :
  c st = (Ok a, st1) -> bind c k st = k a st1.
Proof. intros E. unfold bind. rewrite E. reflexivity. Qed.

Lemma unless_present_all_fail (f : ProjectContext -> value) (run : M value)
    (after : ProjectContext -> ProjectContext) v c t d :
  (truthy (f c) = false ->
   exists t' d', run {| context := c; trace := t; disk := d |} =
                 (Ok v, {| context := after c; trace := t'; disk := d' |})) ->
  exists t' d',
    unless_present f run {| context := c; trace := t; disk := d |} =
      (Ok tt, {| context := if truthy (f c) then c else after c;
                 trace := t'; disk := d' |}).
Proof.
  intros H. unfold unless_present, bind, get_context. cbn [context].
  destruct (truthy (f c)); cbn [negb].
  - eexists _, _. reflexivity.
  - destruct (H eq_refl) as (t' & d' & E). rewrite E. eexists _, _. reflexivity.
Qed.

Lemma resume_workflow_all_fail input c t d :
  truthy (requirements c) = true \/ no_input input = false ->
  truthy (architecture c) = false \/ truthy (codebase c) = true ->
  exists t' d',
    resume_workflow api order input {| context := c; trace := t; disk := d |} =
      (Ok (degraded order c), {| context := degraded order c; trace := t'; disk := d' |}).
Proof.
  intros H1 H2. unfold resume_workflow.
  unfold bind at 1. unfold get_context at 1. cbn [context].
  (* the requirements *)
  assert (S1 : exists t1 d1,
    (if negb (truthy (requirements c))
     then if no_input input then raise missing_input
          else stage_1_requirements api ;;; ret tt
     else ret tt) {| context := c; trace := t; disk := d |} =
    (Ok tt, {| context := if truthy (requirements c) then c
                          else set_requirements default_planner
                                 (set_current_stage (vs "requirements") c);
               trace := t1; disk := d1 |})).
  { destruct (truthy (requirements c)); cbn [negb].
    - eexists _, _. reflexivity.
    - destruct H1 as [H1|H1]; [discriminate H1|]. rewrite H1.
      destruct (stage_1_all_fail c t d) as (t1 & d1 & E).
      rewrite (bind_eq _ _ _ _ _ E). eexists _, _. reflexivity. }
  destruct S1 as (t1 & d1 & E1). rewrite (bind_eq _ _ _ _ _ E1). clear E1. cbv beta.
  match goal with |- context [Build_State ?c1 t1 d1] =>
    destruct (unless_present_all_fail architecture (stage_2_architecture api)
                (fun c => set_architecture default_architect
                            (set_current_stage (vs "architecture") c))
                default_architect c1 t1 d1 (fun _ => stage_2_all_fail c1 t1 d1))
      as (t2 & d2 & E2)
  end.
  rewrite (bind_eq _ _ _ _ _ E2). clear E2. cbv beta.
  match goal with |- context [Build_State ?c2 t2 d2] =>
    destruct (unless_present_all_fail codebase (stage_3_code_generation api order)
                (fun c => set_codebase (degraded_codebase order)
                            (set_current_stage (vs "code") c))
                (degraded_codebase order) c2 t2 d2) as (t3 & d3 & E3)
  end.
  { intros Hc. apply stage_3_all_fail.
    destruct (truthy (requirements c)) eqn:T1; cbn in Hc |- *;
      destruct (truthy (architecture c)) eqn:T2; cbn in Hc |- *;
      try reflexivity;
      destruct H2 as [H2|H2]; try discriminate H2; congruence. }
  rewrite (bind_eq _ _ _ _ _ E3). clear E3. cbv beta.
  match goal with |- context [Build_State ?c3 t3 d3] =>
    destruct (unless_present_all_fail test_results (stage_4_review_and_test api)
                (fun c => set_test_results default_reviewer
                            (set_current_stage (vs "review") c))
                default_reviewer c3 t3 d3 (fun _ => stage_4_all_fail c3 t3 d3))
      as (t4 & d4 & E4)
  end.
  rewrite (bind_eq _ _ _ _ _ E4). clear E4. cbv beta.
  match goal with |- context [Build_State ?c4 t4 d4] =>
    destruct (unless_present_all_fail deployment (stage_5_deployment api)
                (fun c => set_deployment default_devops
                            (set_current_stage (vs "deployment") c))
                default_devops c4 t4 d4 (fun _ => stage_5_all_fail c4 t4 d4))
      as (t5 & d5 & E5)
  end.
  rewrite (bind_eq _ _ _ _ _ E5). clear E5. cbv beta.
  unfold bind, modify_context, save_context, get_context. cbn [context trace disk].
  match goal with |- exists _ _, (Ok ?x, _) = _ =>
    replace x with (degraded order c) end.
  - eexists _, _. reflexivity.
  - unfold degraded. destruct c as [n r a cb tr dp ca cs]. cbn.
    destruct (truthy r); cbn; destruct (truthy a); cbn;
      destruct (truthy cb); cbn; destruct (truthy tr); cbn;
      destruct (truthy dp); cbn; reflexivity.
Qed.

End TotalFailure.

(** ** A run in which every remote call fails or answers a well-formed record *)

Section TameProducer.

Variable api : GeminiAPIManager.
Variable order : list value -> list value.
Hypothesis api_tame : tame api.

Lemma default_well_formed name : well_formed (get_default_structure name) = true.
Proof.
  unfold get_default_structure.
  repeat match goal with |- context [if ?b then _ else _] => destruct b end;
    reflexivity.
Qed.

Lemma call_api_loop_well_formed role mr attempts : forall st,
  match fst (call_api_loop api role mr attempts st) with
  | Ok v => well_formed v = true
  | Raise _ => False
  end.
Proof.
  induction attempts as [|a rest IH]; intros st; simpl.
  - apply default_well_formed.
  - unfold attempt_body.
    destruct (negb (mem role role_names)).
    { unfold raise. destruct (a <? mr - 1); [|apply default_well_formed].
      unfold bind, sleep, emit. apply IH. }
    destruct (negb (mem role (models api))).
    { unfold raise. destruct (a <? mr - 1); [|apply default_well_formed].
      unfold bind, sleep, emit. apply IH. }
    unfold bind, generate_content, ret.
    pose proof (api_tame (remote_calls (trace st))) as T.
    destruct (producer api (remote_calls (trace st))) as [t|].
    + destruct (parse_json_response (strip t)) as [r|]; [|apply IH].
      destruct (truthy r); [exact T|apply IH].
    + destruct (a <? mr - 1); [|apply default_well_formed].
      unfold sleep, emit. apply IH.
Qed.

Lemma call_api_tame role st :
  exists v new,
    call_api api role st =
      (Ok v, {| context := context st; trace := new ++ trace st; disk := disk st |})
    /\ well_formed v = true.
Proof.
  destruct (call_api_spec api role st) as (v & new & E & _).
  exists v, new. split; [exact E|].
  pose proof (call_api_loop_well_formed role max_retries (seq 0 max_retries) st) as W.
  fold (call_api api role) in W. rewrite E in W. exact W.
Qed.

Lemma stage_1_tame c t d :
  exists v t' d',
    stage_1_requirements api {| context := c; trace := t; disk := d |} =
      (Ok v, {| context := set_requirements v
                             (set_current_stage (vs "requirements") c);
                trace := t'; disk := d' |}).
Proof.
  unfold stage_1_requirements, enter, bind, get_context, emit, modify_context,
    save_stage_output, save_context, ret.
  match goal with |- context [call_api api planner ?s] =>
    destruct (call_api_tame planner s) as (v & new & E & W) end.
  rewrite E. cbn [context trace disk]. eexists _, _, _. reflexivity.
Qed.

Lemma stage_2_tame c t d :
  exists v t' d',
    stage_2_architecture api {| context := c; trace := t; disk := d |} =
      (Ok v, {| context := set_architecture v
                             (set_current_stage (vs "architecture") c);
                trace := t'; disk := d' |})
    /\ well_formed v = true.
Proof.
  unfold stage_2_architecture, enter, bind, get_context, emit, modify_context,
    save_stage_output, save_context, ret.
  match goal with |- context [call_api api architect ?s] =>
    destruct (call_api_tame architect s) as (v & new & E & W) end.
  rewrite E. cbn [context trace disk]. eexists _, _, _. split; [reflexivity|exact W].
Qed.

Lemma stage_4_tame c t d :
  exists v t' d',
    stage_4_review_and_test api {| context := c; trace := t; disk := d |} =
      (Ok v, {| context := set_test_results v
                             (set_current_stage (vs "review") c);
                trace := t'; disk := d' |}).
Proof.
  unfold stage_4_review_and_test, enter, bind, get_context, emit, modify_context,
    save_stage_output, save_context, ret, lift.
  match goal with |- context [call_api api reviewer ?s] =>
    destruct (call_api_tame reviewer s) as (v & new & E & W) end.
  rewrite E. destruct v as [| | | | | | | |r]; try discriminate W.
  cbn [well_formed] in W. apply andb_prop in W. destruct W as [W _].
  apply andb_prop in W. destruct W as [_ W].
  cbn [py_in py_getitem].
  change (VStr (py "test_files")) with (vs "test_files").
  destruct (dict_lookup (vs "test_files") r) as [tf|].
  - destruct tf; try discriminate W. cbn [create_test_files texts] in *.
    rewrite (write_files_strings _ W). cbn [context trace disk].
    eexists _, _, _. reflexivity.
  - cbn [context trace disk]. eexists _, _, _. reflexivity.
Qed.

Lemma deployment_files_of_dict keys d :
  create_deployment_files_safe_loop keys (VDict d) = Ok tt.
Proof.
  induction keys as [|k keys IH]; [reflexivity|].
  cbn [create_deployment_files_safe_loop py_in py_getitem].
  destruct (dict_lookup (VStr k) d); exact IH.
Qed.

Lemma stage_5_tame c t d :
  exists v t' d',
    stage_5_deployment api {| context := c; trace := t; disk := d |} =
      (Ok v, {| context := set_deployment v
                             (set_current_stage (vs "deployment") c);
                trace := t'; disk := d' |}).
Proof.
  unfold stage_5_deployment, enter, bind, get_context, emit, modify_context,
    save_stage_output, save_context, ret, lift.
  match goal with |- context [call_api api devops ?s] =>
    destruct (call_api_tame devops s) as (v & new & E & W) end.
  rewrite E. destruct v; try discriminate W.
  unfold create_deployment_files_safe. rewrite deployment_files_of_dict.
  cbn [context trace disk]. eexists _, _, _. reflexivity.
Qed.

Lemma gather_tame names : forall st,
  exists rs new,
    gather (map (generate_module_code api) names) st =
      (Ok (map Ok rs),
       {| context := context st; trace := new ++ trace st; disk := disk st |})
    /\ length rs = length names /\ forallb well_formed rs = true.
Proof.
  induction names as [|n names IH]; intros st; simpl.
  - exists [], []. destruct st; auto.
  - unfold generate_module_code at 1.
    destruct (call_api_tame developer st) as (v & new & E & W). rewrite E.
    destruct (IH {| context := context st; trace := new ++ trace st; disk := disk st |})
      as (rs & new' & E' & L & Ws).
    rewrite E'. simpl. exists (v :: rs), (new' ++ new). rewrite app_assoc.
    simpl. rewrite W, Ws, L. auto.
Qed.

Lemma well_formed_module_record v : well_formed v = true -> module_record v = true.
Proof.
  destruct v; try discriminate. cbn [well_formed].
  intros W. apply andb_prop in W. tauto.
Qed.

Lemma dict_set_module_items k v mods :
  is_str k = true -> module_record v = true -> module_items mods ->
  module_items (dict_set k v mods).
Proof.
  intros Hk Hv. induction 1 as [|[k' v'] mods [H1 H2] Hm IH]; simpl.
  - repeat constructor; assumption.
  - destruct (value_eqb k' k).
    + constructor; [split; assumption|assumption].
    + constructor; [split; assumption|exact IH].
Qed.

Lemma create_code_files_loop_module_items mods :
  module_items mods -> create_code_files_loop mods = Ok tt.
Proof.
  induction 1 as [|[k v] mods [H1 H2] Hm IH]; [reflexivity|].
  cbn [fst snd] in *. destruct k; try discriminate H1.
  destruct (module_record_consumed v H2) as (l & _ & F). rewrite F. exact IH.
Qed.

Lemma combine_loop_well_formed names : forall rs mods deps status,
  forallb is_str names = true -> length rs = length names ->
  forallb well_formed rs = true ->
  module_items mods -> forallb is_str deps = true ->
  exists mods' deps',
    combine_loop names (map Ok rs) mods deps status = Ok (mods', deps', status)
    /\ module_items mods' /\ forallb is_str deps' = true.
Proof.
  induction names as [|n names IH]; intros rs mods deps status Hn L W Hm Hd.
  - exists mods, deps. auto.
  - destruct rs as [|r rs]; [discriminate L|].
    simpl in Hn, L, W. apply andb_prop in Hn. destruct Hn as [Hn1 Hn2].
    apply andb_prop in W. destruct W as [W1 W2].
    apply well_formed_module_record in W1.
    destruct (module_record_consumed r W1) as (l & (G & Sl) & _).
    cbn [combine_loop map]. destruct n; try discriminate Hn1. cbn [hashable].
    rewrite G. cbn [py_iter].
    apply IH; auto.
    + apply dict_set_module_items; auto.
    + rewrite forallb_app, Hd, Sl. reflexivity.
Qed.

Lemma combine_well_formed names rs :
  forallb is_str names = true -> length rs = length names ->
  forallb well_formed rs = true ->
  exists combined_result,
    combine order names (map Ok rs) = Ok combined_result /\
    create_code_files combined_result = Ok tt.
Proof.
  intros Hn L W. unfold combine.
  destruct (combine_loop_well_formed names rs [] [] (vs "completed") Hn L W
              (Forall_nil _) eq_refl) as (mods & deps & E & Hm & Hd).
  rewrite E, (forallb_is_str_hashable _ Hd). eexists. split; [reflexivity|].
  unfold create_code_files. cbn [py_get dict_lookup value_eqb vs].
  rewrite (str_eqb_refl (py "modules")).
  apply create_code_files_loop_module_items, Hm.
Qed.

Lemma well_formed_modules a :
  well_formed a = true ->
  exists names, py_get a (py "modules") default_modules = Ok (VList names) /\
                forallb is_str names = true.
Proof.
  destruct a; try discriminate. cbn [well_formed py_get].
  intros W. apply andb_prop in W. destruct W as [W _].
  apply andb_prop in W. destruct W as [W _].
  change (VStr (py "modules")) with (vs "modules").
  destruct (dict_lookup (vs "modules") d) as [m|].
  - destruct m; try discriminate W. exists l. auto.
  - eexists. split; reflexivity.
Qed.

Lemma stage_3_tame c t d :
  well_formed (architecture c) = true ->
  exists v t' d',
    stage_3_code_generation api order {| context := c; trace := t; disk := d |} =
      (Ok v, {| context := set_codebase v (set_current_stage (vs "code") c);
                trace := t'; disk := d' |}).
Proof.
  intros Wa. destruct (well_formed_modules _ Wa) as (names & G & Hn).
  unfold stage_3_code_generation, stage_3_with, enter, bind, get_context, emit,
    modify_context, save_stage_output, save_context, ret, lift.
  cbn [context set_current_stage architecture]. rewrite G.
  cbn [py_iter]. cbv beta iota.
  match goal with |- context [gather ?ts ?s] =>
    destruct (gather_tame names s) as (rs & new & E & L & W) end.
  rewrite E.
  destruct (combine_well_formed names rs Hn L W) as (cb & Ec & Ef).
  rewrite Ec, Ef. cbn [context trace disk]. eexists _, _, _. reflexivity.
Qed.

Lemma resume_workflow_tame input c t d :
  truthy (requirements c) = true \/ no_input input = false ->
  architecture_usable c ->
  exists c' t' d',
    resume_workflow api order input {| context := c; trace := t; disk := d |} =
      (Ok c', {| context := c'; trace := t'; disk := d' |}).
Proof.
  intros H1 H2. unfold resume_workflow.
  unfold bind at 1. unfold get_context at 1. cbn [context].
  (* the requirements *)
  assert (S1 : exists c1 t1 d1,
    (if negb (truthy (requirements c))
     then if no_input input then raise missing_input
          else stage_1_requirements api ;;; ret tt
     else ret tt) {| context := c; trace := t; disk := d |} =
    (Ok tt, {| context := c1; trace := t1; disk := d1 |}) /\
    architecture_usable c1).
  { destruct (truthy (requirements c)); cbn [negb].
    - eexists _, _, _. split; [reflexivity|exact H2].
    - destruct H1 as [H1|H1]; [discriminate H1|]. rewrite H1.
      destruct (stage_1_tame c t d) as (v & t1 & d1 & E).
      rewrite (bind_eq _ _ _ _ _ E). eexists _, _, _.
      split; [reflexivity|exact H2]. }
  destruct S1 as (c1 & t1 & d1 & E1 & U1).
  rewrite (bind_eq _ _ _ _ _ E1). clear E1. cbv beta.
  (* the architecture *)
  assert (S2 : exists c2 t2 d2,
    unless_present architecture (stage_2_architecture api)
      {| context := c1; trace := t1; disk := d1 |} =
    (Ok tt, {| context := c2; trace := t2; disk := d2 |}) /\
    (truthy (codebase c2) = true \/ well_formed (architecture c2) = true)).
  { unfold unless_present, bind, get_context. cbn [context].
    destruct (truthy (architecture c1)) eqn:Ta; cbn [negb].
    - eexists _, _, _. split; [reflexivity|].
      destruct U1 as [U|[U|U]]; [auto|congruence|auto].
    - destruct (stage_2_tame c1 t1 d1) as (v & t2 & d2 & E & W).
      rewrite E. eexists _, _, _. split; [reflexivity|]. right. exact W. }
  destruct S2 as (c2 & t2 & d2 & E2 & U2).
  rewrite (bind_eq _ _ _ _ _ E2). clear E2. cbv beta.
  (* the code *)
  assert (S3 : exists c3 t3 d3,
    unless_present codebase (stage_3_code_generation api order)
      {| context := c2; trace := t2; disk := d2 |} =
    (Ok tt, {| context := c3; trace := t3; disk := d3 |})).
  { unfold unless_present, bind, get_context. cbn [context].
    destruct (truthy (codebase c2)) eqn:Tc; cbn [negb].
    - eexists _, _, _. reflexivity.
    - destruct U2 as [U|U]; [discriminate U|].
      destruct (stage_3_tame c2 t2 d2 U) as (v & t3 & d3 & E).
      rewrite E. eexists _, _, _. reflexivity. }
  destruct S3 as (c3 & t3 & d3 & E3).
  rewrite (bind_eq _ _ _ _ _ E3). clear E3. cbv beta.
  (* the review *)
  assert (S4 : exists c4 t4 d4,
    unless_present test_results (stage_4_review_and_test api)
      {| context := c3; trace := t3; disk := d3 |} =
    (Ok tt, {| context := c4; trace := t4; disk := d4 |})).
  { unfold unless_present, bind, get_context. cbn [context].
    destruct (truthy (test_results c3)); cbn [negb].
    - eexists _, _, _. reflexivity.
    - destruct (stage_4_tame c3 t3 d3) as (v & t4 & d4 & E).
      rewrite E. eexists _, _, _. reflexivity. }
  destruct S4 as (c4 & t4 & d4 & E4).
  rewrite (bind_eq _ _ _ _ _ E4). clear E4. cbv beta.
  (* the deployment *)
  assert (S5 : exists c5 t5 d5,
    unless_present deployment (stage_5_deployment api)
      {| context := c4; trace := t4; disk := d4 |} =
    (Ok tt, {| context := c5; trace := t5; disk := d5 |})).
  { unfold unless_present, bind, get_context. cbn [context].
    destruct (truthy (deployment c4)); cbn [negb].
    - eexists _, _, _. reflexivity.
    - destruct (stage_5_tame c4 t4 d4) as (v & t5 & d5 & E).
      rewrite E. eexists _, _, _. reflexivity. }
  destruct S5 as (c5 & t5 & d5 & E5).
  rewrite (bind_eq _ _ _ _ _ E5). clear E5. cbv beta.
  unfold bind, modify_context, save_context, get_context. cbn [context trace disk].
  eexists _, _, _. reflexivity.
Qed.

End TameProducer.

(** ** A run in which every remote call fails, on a stored architecture *)

Section TotalFailureStored.

Variable api : GeminiAPIManager.
Variable order : list value -> list value.
Hypothesis all_fail : forall i, fails api i.

Lemma combine_loop_defaults names : forall mods deps status,
  forallb is_str names = true ->
  combine_loop names (map (fun _ => Ok default_developer) names) mods deps status =
    Ok (fold_left (fun d name => dict_set name default_developer d) names mods,
        deps ++ flat_map (fun _ => default_dependencies) names, status).
Proof.
  induction names as [|n names IH]; intros mods deps status Hn.
  - cbn. rewrite app_nil_r. reflexivity.
  - cbn [forallb] in Hn. apply andb_prop in Hn. destruct Hn as [Hn Hs].
    destruct n; try discriminate Hn.
    cbn [map combine_loop hashable].
    change (py_get default_developer (py "dependencies") (VList []))
      with (Ok (VList default_dependencies)).
    cbn [py_iter fold_left flat_map]. rewrite (IH _ _ _ Hs), <- app_assoc.
    reflexivity.
Qed.

Lemma default_module_items names : forall mods,
  forallb is_str names = true -> module_items mods ->
  module_items (fold_left (fun d name => dict_set name default_developer d)
                          names mods).
Proof.
  induction names as [|n names IH]; intros mods Hn Hm; [exact Hm|].
  cbn [forallb] in Hn. apply andb_prop in Hn. destruct Hn as [Hn Hs].
  cbn [fold_left]. apply IH; [exact Hs|].
  apply dict_set_module_items; [exact Hn|reflexivity|exact Hm].
Qed.

Lemma default_dependencies_strings (names : list value) :
  forallb is_str (flat_map (fun _ => default_dependencies) names) = true.
Proof. induction names as [|n names IH]; [reflexivity|exact IH]. Qed.

Lemma combine_defaults names :
  forallb is_str names = true ->
  combine order names (map (fun _ => Ok default_developer) names) =
    Ok (degraded_codebase_of order names) /\
  create_code_files (degraded_codebase_of order names) = Ok tt.
Proof.
  intros Hn. unfold combine. rewrite (combine_loop_defaults names _ _ _ Hn).
  cbn [app].
  rewrite (forallb_is_str_hashable _ (default_dependencies_strings names)).
  split; [reflexivity|].
  unfold create_code_files, degraded_codebase_of.
  cbn [py_get dict_lookup value_eqb vs]. rewrite (str_eqb_refl (py "modules")).
  apply create_code_files_loop_module_items, default_module_items;
    [exact Hn|constructor].
Qed.

Lemma stage_3_all_fail_stored c t d :
  well_formed (architecture c) = true ->
  exists t' d',
    stage_3_code_generation api order {| context := c; trace := t; disk := d |} =
      (Ok (degraded_codebase_of order (module_names (architecture c))),
       {| context := set_codebase
                       (degraded_codebase_of order (module_names (architecture c)))
                       (set_current_stage (vs "code") c);
          trace := t'; disk := d' |}).
Proof.
  intros Wa. destruct (well_formed_modules _ Wa) as (names & G & Hn).
  assert (Em : module_names (architecture c) = names)
    by (unfold module_names; rewrite G; reflexivity).
  rewrite Em.
  unfold stage_3_code_generation, stage_3_with, enter, bind, get_context, emit,
    modify_context, save_stage_output, save_context, ret, lift.
  cbn [context set_current_stage architecture]. rewrite G.
  cbn [py_iter]. cbv beta iota.
  match goal with |- context [gather ?ts ?s] =>
    destruct (gather_all_fail api all_fail names s) as [new E] end.
  rewrite E.
  destruct (combine_defaults names Hn) as [Ec Ef].
  rewrite Ec, Ef. cbn [context trace disk]. eexists _, _. reflexivity.
Qed.

Lemma resume_workflow_all_fail_stored input c t d :
  truthy (requirements c) = true \/ no_input input = false ->
  architecture_usable c ->
  exists t' d',
    resume_workflow api order input {| context := c; trace := t; disk := d |} =
      (Ok (degraded_from order c),
       {| context := degraded_from order c; trace := t'; disk := d' |}).
Proof.
  intros H1 H2. unfold resume_workflow.
  unfold bind at 1. unfold get_context at 1. cbn [context].
  assert (S1 : exists t1 d1,
    (if negb (truthy (requirements c))
     then if no_input input then raise missing_input
          else stage_1_requirements api ;;; ret tt
     else ret tt) {| context := c; trace := t; disk := d |} =
    (Ok tt, {| context := if truthy (requirements c) then c
                          else set_requirements default_planner
                                 (set_current_stage (vs "requirements") c);
               trace := t1; disk := d1 |})).
  { destruct (truthy (requirements c)); cbn [negb].
    - eexists _, _. reflexivity.
    - destruct H1 as [H1|H1]; [discriminate H1|]. rewrite H1.
      destruct (stage_1_all_fail api all_fail c t d) as (t1 & d1 & E).
      rewrite (bind_eq _ _ _ _ _ E). eexists _, _. reflexivity. }
  destruct S1 as (t1 & d1 & E1). rewrite (bind_eq _ _ _ _ _ E1). clear E1. cbv beta.
  match goal with |- context [Build_State ?c1 t1 d1] =>
    destruct (unless_present_all_fail architecture (stage_2_architecture api)
                (fun c => set_architecture default_architect
                            (set_current_stage (vs "architecture") c))
                default_architect c1 t1 d1
                (fun _ => stage_2_all_fail api all_fail c1 t1 d1))
      as (t2 & d2 & E2)
  end.
  rewrite (bind_eq _ _ _ _ _ E2). clear E2. cbv beta.
  match goal with |- context [Build_State ?c2 t2 d2] =>
    destruct (unless_present_all_fail codebase (stage_3_code_generation api order)
                (fun c => set_codebase
                            (degraded_codebase_of order (module_names (architecture c)))
                            (set_current_stage (vs "code") c))
                (degraded_codebase_of order (module_names (architecture c2)))
                c2 t2 d2) as (t3 & d3 & E3)
  end.
  { intros Hc. apply stage_3_all_fail_stored.
    destruct (truthy (requirements c)) eqn:T1; cbn in Hc |- *;
      destruct (truthy (architecture c)) eqn:T2; cbn in Hc |- *;
      try reflexivity;
      destruct H2 as [H2|[H2|H2]]; congruence. }
  rewrite (bind_eq _ _ _ _ _ E3). clear E3. cbv beta.
  match goal with |- context [Build_State ?c3 t3 d3] =>
    destruct (unless_present_all_fail test_results (stage_4_review_and_test api)
                (fun c => set_test_results default_reviewer
                            (set_current_stage (vs "review") c))
                default_reviewer c3 t3 d3
                (fun _ => stage_4_all_fail api all_fail c3 t3 d3))
      as (t4 & d4 & E4)
  end.
  rewrite (bind_eq _ _ _ _ _ E4). clear E4. cbv beta.
  match goal with |- context [Build_State ?c4 t4 d4] =>
    destruct (unless_present_all_fail deployment (stage_5_deployment api)
                (fun c => set_deployment default_devops
                            (set_current_stage (vs "deployment") c))
                default_devops c4 t4 d4
                (fun _ => stage_5_all_fail api all_fail c4 t4 d4))
      as (t5 & d5 & E5)
  end.
  rewrite (bind_eq _ _ _ _ _ E5). clear E5. cbv beta.
  unfold bind, modify_context, save_context, get_context. cbn [context trace disk].
  match goal with |- exists _ _, (Ok ?x, _) = _ =>
    replace x with (degraded_from order c) end.
  - eexists _, _. reflexivity.
  - unfold degraded_from. destruct c as [n r a cb tr dp ca cs]. cbn.
    destruct (truthy r); cbn; destruct (truthy a); cbn;
      destruct (truthy cb); cbn; destruct (truthy tr); cbn;
      destruct (truthy dp); cbn; reflexivity.
Qed.

End TotalFailureStored.

(** ** Two runs on a new project *)

(** With a producer that always raises, the five stages are entered in
    order, each role is called three times (the developer three times per
    module), and the run ends on the degraded context. *)
Lemma degraded_run :
  let run := resume_workflow silent_manager py_list_set (Some (py "a shop")) fresh_state in
  fst run = Ok (degraded py_list_set (context fresh_state)) /\
  stages_entered (trace (snd run)) =
    [Requirements; Architecture; Code; Review; Deployment] /\
  remote_calls (trace (snd run)) = 21 /\
  disk (snd run) = Some (Holds (asdict (degraded py_list_set (context fresh_state)))).
Proof. vm_compute. repeat split; reflexivity. Qed.

(** Without an input the run stops before anything happens. *)
Lemma run_without_input :
  resume_workflow silent_manager py_list_set None fresh_state =
    (Raise missing_input, fresh_state).
Proof. reflexivity. Qed.

(** ** The missing input *)

(** C5, as stated, fails: on a new project with an input, a producer that
    answers the architect with a well-formed text that is a list makes the
    run raise from the code generation stage; the exception is not the one
    for a missing input, and nothing was degraded. *)
Lemma resume_workflow_raises_from_stage :
  truthy (requirements (context fresh_state)) = false /\
  no_input (Some (py "a shop")) = false /\
  fst (resume_workflow list_manager py_list_set (Some (py "a shop")) fresh_state) =
    Raise AttributeError /\
  architecture (context (snd (resume_workflow list_manager py_list_set (Some (py "a shop"))
                                fresh_state))) = VList [VInt 1] /\
  exists c t,
    trace (snd (resume_workflow list_manager py_list_set (Some (py "a shop")) fresh_state)) =
      EvStage Code c :: t.
Proof.
  repeat split; try reflexivity.
  vm_compute. eexists _, _. reflexivity.
Qed.

(** C5, amended: [resume_workflow] raises the error for a missing input
    exactly when the requirements are absent or empty and the input is
    absent or empty, and then nothing has happened: no stage was entered,
    no remote call made, the state is the one it started in.  In the other
    cases, and as long as every write succeeds (writes do not fail here):
    when each remote call fails (it raises, or no strategy parses its
    text) or answers a well-formed record, and the code generation stage
    does not have to read an architecture it cannot use, the run returns,
    with its five results; and when every remote call fails, every result
    that was missing is the default record of its role, the code base
    having the default record of the developer role for each module of the
    architecture: of the one that was there, or else of the default one,
    which names no module, so that the three default modules are
    generated. *)
Theorem resume_workflow_missing_input
    (api : GeminiAPIManager) (order : list value -> list value)
    (input : option str) (st : State) :
  (fst (resume_workflow api order input st) = Raise missing_input <->
   truthy (requirements (context st)) = false /\ no_input input = true) /\
  (fst (resume_workflow api order input st) = Raise missing_input ->
   snd (resume_workflow api order input st) = st) /\
  (tame api ->
   truthy (requirements (context st)) = true \/ no_input input = false ->
   architecture_usable (context st) ->
   exists c, fst (resume_workflow api order input st) = Ok c /\ all_results c) /\
  ((forall i, fails api i) ->
   truthy (requirements (context st)) = true \/ no_input input = false ->
   architecture_usable (context st) ->
   fst (resume_workflow api order input st) =
     Ok (degraded_from order (context st))).
Proof.
  assert (Hraise : fst (resume_workflow api order input st) = Raise missing_input ->
                   snd (resume_workflow api order input st) = st /\
                   truthy (requirements (context st)) = false /\
                   no_input input = true).
  { destruct (resume_workflow api order input st) as [r st'] eqn:E. cbn [fst snd].
    intros ->. destruct (resume_workflow_spec api order input st _ _ E) as [_ H].
    destruct H as [(_ & H1 & H2 & H3)|H]; [auto|destruct H]. }
  split; [split|split; [|split]].
  - intros H. apply Hraise in H. tauto.
  - intros [T NI]. unfold resume_workflow, bind, get_context.
    rewrite T, NI. reflexivity.
  - intros H. apply Hraise in H. tauto.
  - intros Ht H1 H2. destruct st as [c t d].
    destruct (resume_workflow_tame api order Ht input c t d H1 H2) as (c' & t' & d' & E).
    exists c'. rewrite E. split; [reflexivity|].
    destruct (resume_workflow_spec api order input _ _ _ E) as [_ (_ & Ha & _)].
    exact Ha.
  - intros Hf H1 H2. destruct st as [c t d].
    destruct (resume_workflow_all_fail_stored api order Hf input c t d H1 H2)
      as (t' & d' & E).
    rewrite E. reflexivity.
Qed.

Lemma resume_workflow_missing_input_witness :
  fst (resume_workflow silent_manager py_list_set None
         {| context := set_architecture
                         (VDict [(vs "modules",
                                  VList [vs "a"; vs "b"; vs "c"; vs "d"])])
                         (set_requirements default_planner (context fresh_state));
            trace := []; disk := None |}) =
    Ok (degraded_from py_list_set
          (set_architecture
             (VDict [(vs "modules", VList [vs "a"; vs "b"; vs "c"; vs "d"])])
             (set_requirements default_planner (context fresh_state)))).
Proof.
  apply (proj2 (proj2 (proj2 (resume_workflow_missing_input silent_manager py_list_set
                                None
                                {| context := set_architecture
                                     (VDict [(vs "modules",
                                              VList [vs "a"; vs "b"; vs "c"; vs "d"])])
                                     (set_requirements default_planner
                                        (context fresh_state));
                                   trace := []; disk := None |})))).
  - intros i. exact I.
  - left. reflexivity.
  - right. right. reflexivity.
Defined.

Lemma resume_workflow_idempotent_witness :
  fst (resume_workflow babbling_manager py_list_set (Some (py "more")) 
         (snd (resume_workflow silent_manager py_list_set None finished_state))) =
    Ok (degraded py_list_set (context fresh_state)) /\
  remote_calls (trace (snd (resume_workflow babbling_manager py_list_set (Some (py "more"))
                              (snd (resume_workflow silent_manager py_list_set None
                                      finished_state))))) =
    remote_calls (trace (snd (resume_workflow silent_manager py_list_set None finished_state))).
Proof.
  pose proof (resume_workflow_idempotent silent_manager babbling_manager
                py_list_set py_list_set None (Some (py "more")) finished_state
                (snd (resume_workflow silent_manager py_list_set None finished_state))
                (degraded py_list_set (context fresh_state))) as H.
  destruct H as (H1 & _ & _ & _ & H5);
    try (cbn; discriminate); [reflexivity|].
  split; [exact H1|exact H5].
Defined.

(** ** The creation time *)

(** C9: a run does not change [created_at]; but a manager created at the
    time [now] over the file of an earlier run restores the five results
    and the stage from the file and keeps the [created_at] of its own new
    context, so that the next save writes [now] over the persisted creation
    time. *)
Theorem created_at_after_reload
    (api : GeminiAPIManager) (order : list value -> list value)
    (input : option str)
    (now name : str) (saved : ProjectContext) (st : State) :
  created_at (context (snd (resume_workflow api order input st))) =
    created_at (context st) /\
  (let reloaded := init now name (Some (Holds (asdict saved))) in
   requirements (context reloaded) = requirements saved /\
   architecture (context reloaded) = architecture saved /\
   codebase (context reloaded) = codebase saved /\
   test_results (context reloaded) = test_results saved /\
   deployment (context reloaded) = deployment saved /\
   current_stage (context reloaded) = current_stage saved /\
   created_at (context reloaded) = VStr now /\
   exists c, disk (snd (save_context reloaded)) = Some (Holds (asdict c)) /\
             created_at c = VStr now).
Proof.
  split.
  - destruct (resume_workflow api order input st) as [r st'] eqn:E.
    exact (adv_created_at _ _ (proj1 (resume_workflow_spec api order input st _ _ E))).
  - repeat split; try reflexivity.
    eexists. split; reflexivity.
Qed.

(** C9 on a file written on the first of January 2024 and reloaded on the
    first of June 2025: the file then says the context was created in June
    2025. *)
Lemma created_at_overwritten :
  let saved := {| project_name := py "shop"; requirements := default_planner;
                  architecture := VNone; codebase := VNone;
                  test_results := VNone; deployment := VNone;
                  created_at := vs "2024-01-01T00:00:00";
                  current_stage := vs "requirements" |} in
  let reloaded := init (py "2025-06-01T12:00:00") (py "shop")
                       (Some (Holds (asdict saved))) in
  requirements (context reloaded) = default_planner /\
  created_at (context reloaded) = vs "2025-06-01T12:00:00" /\
  match disk (snd (save_context reloaded)) with
  | Some (Holds (VDict d)) =>
      dict_lookup (vs "created_at") d = Some (vs "2025-06-01T12:00:00")
  | _ => False
  end.
Proof. repeat split; reflexivity. Qed.
(* ================================================================== *)
(** * Further properties of the parsing strategies *)
(* ================================================================== *)

Section ParsingStrategies.

Local Open Scope N_scope.

(** [json.loads] raises nothing but its own error. *)
Lemma loads_raises s e : Json.loads s = Raise e -> e = JSONDecodeError.
Proof.
  unfold Json.loads.
  destruct s as [|c s]; [cbn; congruence|].
  destruct (Json.scan_once _ _) as [[v r]|].
  - destruct (Json.skip_ws r);
      repeat match goal with |- context [match ?x with _ => _ end] => destruct x end;
      congruence.
  - repeat match goal with |- context [match ?x with _ => _ end] => destruct x end;
      congruence.
Qed.

Lemma find_none_count c s : find c s = None <-> count c s = 0%nat.
Proof.
  induction s as [|x s IH]; simpl; [tauto|].
  destruct (x =? c); [split; discriminate|].
  destruct (find c s); [split; [discriminate|]|tauto].
  intros H. apply IH in H. discriminate.
Qed.

Lemma find_app_first c pre s :
  count c pre = 0%nat -> startswith s [c] = true ->
  find c (pre ++ s) = Some (length pre).
Proof.
  intros H S. induction pre as [|x pre IH]; simpl in *.
  - destruct s as [|y s]; [discriminate|]. simpl in S.
    apply andb_prop in S. destruct S as [S _]. rewrite N.eqb_sym in S.
    simpl. rewrite S. reflexivity.
  - destruct (x =? c); [discriminate|]. rewrite (IH H). reflexivity.
Qed.

Lemma brace_scan_bound s : forall c i k,
  brace_scan c i s = Some k -> (i < k <= i + length s)%nat.
Proof.
  induction s as [|x s IH]; intros c i k; simpl; [discriminate|].
  destruct (x =? 123); [intros H; apply IH in H; lia|].
  destruct (x =? 125); [|intros H; apply IH in H; lia].
  destruct (c - 1 =? 0)%Z; [intros [= <-]; lia|intros H; apply IH in H; lia].
Qed.

Lemma skipn_app_length {A} (a b : list A) : skipn (length a) (a ++ b) = b.
Proof. induction a; simpl; auto. Qed.

(** X1: an object that stands in the middle of other text is found by the
    brace-matched strategy: when nothing before it holds an opening brace,
    it starts with one, and the count of braces first returns to zero on
    its last character, the strategy parses exactly that object, whatever
    follows it. *)
Theorem parse_partial_json_embedded (pre body post : str) :
  count lbrace pre = 0%nat ->
  startswith body [lbrace] = true ->
  brace_scan 0 0 body = Some (length body) ->
  parse_partial_json (pre ++ body ++ post) = Json.loads body.
Proof.
  intros Hpre Hstart Hbal. unfold parse_partial_json.
  rewrite (find_app_first lbrace pre (body ++ post) Hpre)
    by (apply startswith_app; exact Hstart).
  rewrite skipn_app_length.
  rewrite <- (Nat.add_0_r (length pre)) at 1. rewrite brace_scan_shift.
  rewrite (brace_scan_app _ post _ _ _ Hbal). cbn [option_map].
  unfold slice. rewrite skipn_app_length.
  replace (length pre + length body - length pre)%nat with (length body) by lia.
  rewrite firstn_app, Nat.sub_diag, firstn_all. cbn [firstn]. rewrite app_nil_r.
  reflexivity.
Qed.

Lemma parse_partial_json_embedded_witness :
  parse_partial_json (pyq "Here it is: {'a': {'b': 1}} and {more") =
    Json.loads (pyq "{'a': {'b': 1}}").
Proof.
  apply (parse_partial_json_embedded (py "Here it is: ") (pyq "{'a': {'b': 1}}")
           (py " and {more")); reflexivity.
Defined.

(** X2: the two errors of the brace-matched strategy.  It reports that
    there is no object exactly when the text holds no opening brace; and an
    object that is cut off before its closing brace (a proper prefix of a
    text whose count of braces first returns to zero at its end) is
    reported as incomplete, nothing being parsed. *)
Theorem parse_partial_json_errors (text pre body rest : str) :
  (parse_partial_json text = Raise (ValueError (py "No JSON object found")) <->
   count lbrace text = 0%nat) /\
  (count lbrace pre = 0%nat ->
   startswith body [lbrace] = true ->
   rest <> [] ->
   brace_scan 0 0 (body ++ rest) = Some (length (body ++ rest)) ->
   parse_partial_json (pre ++ body) = Raise (ValueError (py "Incomplete JSON object"))).
Proof.
  split.
  - unfold parse_partial_json. split.
    + destruct (find lbrace text) as [start|] eqn:F;
        [|intros _; apply find_none_count; exact F].
      destruct (brace_scan 0 start (skipn start text)); [|discriminate].
      intros H. apply loads_raises in H. discriminate.
    + intros H. apply find_none_count in H. rewrite H. reflexivity.
  - intros Hpre Hstart Hrest Hbal. unfold parse_partial_json.
    rewrite <- (app_nil_r (pre ++ body)), <- app_assoc.
    rewrite (find_app_first lbrace pre (body ++ []) Hpre)
      by (apply startswith_app; exact Hstart).
    rewrite skipn_app_length, app_nil_r.
    rewrite <- (Nat.add_0_r (length pre)) at 1. rewrite brace_scan_shift.
    destruct (brace_scan 0 0 body) as [k|] eqn:B; [|reflexivity].
    pose proof (brace_scan_bound _ _ _ _ B) as Hk.
    rewrite (brace_scan_app _ rest _ _ _ B) in Hbal.
    injection Hbal as ->. rewrite length_app in Hk.
    destruct rest; [contradiction|simpl in Hk; lia].
Qed.

Lemma parse_partial_json_errors_witness :
  parse_partial_json (pyq "so far: {'a': {'b': 1}") =
    Raise (ValueError (py "Incomplete JSON object")).
Proof.
  apply (proj2 (parse_partial_json_errors [] (py "so far: ") (pyq "{'a': {'b': 1}")
                  (py "}")));
    [reflexivity|reflexivity|discriminate|reflexivity].
Defined.

(** ** Fenced blocks *)

Lemma split_go_not_nil sep s : forall skip cur, split_go sep skip cur s <> [].
Proof.
  induction s as [|c s IH]; intros skip cur; cbn [split_go]; [discriminate|].
  destruct skip as [|k]; [|apply IH].
  destruct (startswith (c :: s) sep); [discriminate|apply IH].
Qed.

(** A text that holds a separator splits into two pieces at least. *)
Lemma split_go_two sep s : sep <> [] -> forall cur,
  contains sep s = true -> (2 <= length (split_go sep 0 cur s))%nat.
Proof.
  intros Hsep. induction s as [|c s IH]; intros cur H.
  - destruct sep; [contradiction|cbn in H; discriminate H].
  - cbn [split_go]. rewrite contains_cons in H.
    destruct (startswith (c :: s) sep).
    + pose proof (split_go_not_nil sep s (length sep - 1) []) as N.
      destruct (split_go sep (length sep - 1) [] s); [contradiction|simpl; lia].
    + apply IH. exact H.
Qed.

Lemma index_first l : l <> [] -> exists x, index l 0 = Ok x.
Proof. destruct l as [|x l]; [contradiction|]. exists x. reflexivity. Qed.

Lemma index_second l : (2 <= length l)%nat -> exists x, index l 1 = Ok x.
Proof.
  destruct l as [|x [|y l]]; simpl; try lia. exists y. reflexivity.
Qed.

Lemma contains_fence_json_fence s :
  contains fence_json s = true -> contains fence s = true.
Proof.
  induction s as [|c s IH]; [discriminate|].
  rewrite !contains_cons. intros H. apply orb_true_iff in H.
  apply orb_true_iff. destruct H as [H|H]; [left|right; auto].
  destruct (startswith (c :: s) fence) eqn:E; [reflexivity|].
  rewrite (startswith_fence_json _ E) in H. discriminate.
Qed.

(** X3: the fenced-block strategy never fails on an index: a text that
    holds a fence splits into two pieces at least.  It reports that there
    is no block exactly when the text holds no triple backtick; what it
    raises otherwise is the error of [json.loads]. *)
Theorem parse_markdown_json_errors (text : str) :
  parse_markdown_json text <> Raise IndexError /\
  (parse_markdown_json text = Raise (ValueError (py "No markdown JSON found")) <->
   contains fence text = false) /\
  (forall e, parse_markdown_json text = Raise e ->
             contains fence text = true -> e = JSONDecodeError).
Proof.
  assert (B : forall sep, sep <> [] -> contains sep text = true ->
            exists json_content,
              match index (split sep text) 1 with
              | Ok part => match index (split fence part) 0 with
                           | Ok json_content => Json.loads (strip json_content)
                           | Raise e => Raise e
                           end
              | Raise e => Raise e
              end = Json.loads (strip json_content)).
  { intros sep Hsep H. unfold split.
    destruct (index_second _ (split_go_two sep text Hsep [] H)) as [part ->].
    destruct (index_first _ (split_go_not_nil fence part 0 [])) as [x E].
    rewrite E. exists x. reflexivity. }
  unfold parse_markdown_json.
  destruct (contains fence_json text) eqn:J.
  - destruct (B fence_json ltac:(discriminate) J) as [x ->].
    rewrite (contains_fence_json_fence _ J).
    repeat split; try discriminate.
    + intros H. apply loads_raises in H. discriminate.
    + intros H. apply loads_raises in H. discriminate.
    + intros e H _. exact (loads_raises _ _ H).
  - destruct (contains fence text) eqn:F.
    + destruct (B fence ltac:(discriminate) F) as [x ->].
      repeat split; try discriminate.
      * intros H. apply loads_raises in H. discriminate.
      * intros H. apply loads_raises in H. discriminate.
      * intros e H _. exact (loads_raises _ _ H).
    + repeat split; try discriminate. 
Qed.

Lemma parse_markdown_json_errors_witness :
  parse_markdown_json (py "no block here") =
    Raise (ValueError (py "No markdown JSON found")) /\
  (forall e, parse_markdown_json (py "```oops```") = Raise e -> e = JSONDecodeError).
Proof.
  split.
  - apply (proj1 (proj2 (parse_markdown_json_errors (py "no block here")))).
    reflexivity.
  - intros e H.
    apply (proj2 (proj2 (parse_markdown_json_errors (py "```oops```"))) e H).
    reflexivity.
Defined.

(** *** A block in the middle of other text *)

Lemma count_cons_zero q x a :
  count q (x :: a) = 0%nat -> (x =? q) = false /\ count q a = 0%nat.
Proof. simpl. destruct (x =? q); [discriminate|auto]. Qed.

(** No separator starts within a text that does not hold its first
    character. *)
Lemma split_go_pass q sep' a s : forall cur,
  count q a = 0%nat ->
  split_go (q :: sep') 0 cur (a ++ s) = split_go (q :: sep') 0 (rev a ++ cur) s.
Proof.
  induction a as [|x a IH]; intros cur H; [reflexivity|].
  apply count_cons_zero in H. destruct H as [H1 H2].
  change ((x :: a) ++ s) with (x :: (a ++ s)). cbn [split_go startswith].
  rewrite N.eqb_sym, H1. cbn [andb]. rewrite (IH _ H2).
  cbn [rev]. rewrite <- app_assoc. reflexivity.
Qed.

Lemma split_go_skip sep a s : forall cur,
  split_go sep (length a) cur (a ++ s) = split_go sep 0 cur s.
Proof. induction a as [|x a IH]; intros cur; [reflexivity|apply IH]. Qed.

Lemma startswith_self s t : startswith (s ++ t) s = true.
Proof.
  induction s as [|x s IH]; [apply startswith_nil|].
  simpl. rewrite N.eqb_refl. exact IH.
Qed.

Lemma split_go_match q sep' s cur :
  split_go (q :: sep') 0 cur ((q :: sep') ++ s) =
    rev cur :: split_go (q :: sep') 0 [] s.
Proof.
  change ((q :: sep') ++ s) with (q :: (sep' ++ s)). cbn [split_go].
  change (q :: sep' ++ s) with ((q :: sep') ++ s).
  rewrite startswith_self.
  replace (length (q :: sep') - 1)%nat with (length sep') by (simpl; lia).
  rewrite split_go_skip. reflexivity.
Qed.

(** The first piece of a split starts with what was read so far. *)
Lemma split_go_head sep s : forall cur,
  exists p r, split_go sep 0 cur s = (rev cur ++ p) :: r.
Proof.
  induction s as [|c s IH]; intros cur.
  - exists [], []. cbn. rewrite app_nil_r. reflexivity.
  - cbn [split_go]. destruct (startswith (c :: s) sep).
    + exists [], (split_go sep (length sep - 1) [] s). rewrite app_nil_r. reflexivity.
    + destruct (IH (c :: cur)) as (p & r & E). exists (c :: p), r.
      rewrite E. cbn [rev]. rewrite <- app_assoc. reflexivity.
Qed.

Lemma contains_app_l sub a s : contains sub s = true -> contains sub (a ++ s) = true.
Proof.
  intros H. induction a as [|x a IH]; [exact H|].
  change ((x :: a) ++ s) with (x :: (a ++ s)). rewrite contains_cons, IH.
  apply orb_true_r.
Qed.

Lemma contains_self sub s : contains sub (sub ++ s) = true.
Proof.
  destruct sub as [|q sub].
  - destruct s; cbn; rewrite ?startswith_nil; reflexivity.
  - change ((q :: sub) ++ s) with (q :: (sub ++ s)). rewrite contains_cons.
    change (q :: sub ++ s) with ((q :: sub) ++ s). rewrite startswith_self. reflexivity.
Qed.

Lemma split_go_step sep cur c s :
  split_go sep 0 cur (c :: s) =
    if startswith (c :: s) sep
    then rev cur :: split_go sep (length sep - 1) [] s
    else split_go sep 0 (c :: cur) s.
Proof. reflexivity. Qed.

Lemma split_go_pass_fence a s cur :
  count 96 a = 0%nat ->
  split_go fence 0 cur (a ++ s) = split_go fence 0 (rev a ++ cur) s.
Proof. exact (split_go_pass 96 [96; 96] a s cur). Qed.

Lemma split_go_pass_fence_json a s cur :
  count 96 a = 0%nat ->
  split_go fence_json 0 cur (a ++ s) = split_go fence_json 0 (rev a ++ cur) s.
Proof. exact (split_go_pass 96 [96; 96; 106; 115; 111; 110] a s cur). Qed.

Lemma split_go_match_fence s cur :
  split_go fence 0 cur (fence ++ s) = rev cur :: split_go fence 0 [] s.
Proof. exact (split_go_match 96 [96; 96] s cur). Qed.

Lemma split_go_match_fence_json s cur :
  split_go fence_json 0 cur (fence_json ++ s) = rev cur :: split_go fence_json 0 [] s.
Proof. exact (split_go_match 96 [96; 96; 106; 115; 111; 110] s cur). Qed.

(** The piece that follows the tagged opening fence, up to the next tagged
    fence: the block, and then nothing or the closing fence. *)
Lemma split_after_fence_json body post :
  count 96 body = 0%nat -> startswith post [96] = false ->
  exists P r, split_go fence_json 0 [] (body ++ fence ++ post) = (body ++ P) :: r /\
              (P = [] \/ exists p, P = fence ++ p).
Proof.
  intros Hb Hp. rewrite (split_go_pass_fence_json _ _ _ Hb).
  rewrite app_nil_r. rewrite fence_eq, fence_json_eq.
  change ([96; 96; 96] ++ post) with (96 :: 96 :: 96 :: post).
  rewrite split_go_step.
  match goal with |- context [if ?b then _ else _] => destruct b end.
  { eexists [], _. rewrite rev_involutive, app_nil_r. split; [reflexivity|auto]. }
  assert (Hx : forall x rest, post = x :: rest -> (96 =? x) = false).
  { intros x rest ->. cbn [startswith] in Hp.
    rewrite startswith_nil, andb_true_r in Hp. exact Hp. }
  do 2 (rewrite split_go_step;
        match goal with |- context [if ?b then _ else _] =>
          let E := fresh "E" in
          assert (E : b = false);
          [ destruct post as [|x rest]; [reflexivity|];
            cbn [startswith]; rewrite (Hx x rest eq_refl), ?andb_false_r; reflexivity
          | rewrite E ]
        end).
  match goal with |- context [split_go ?sep 0 ?cur post] =>
    destruct (split_go_head sep post cur) as (p & r & Ep)
  end.
  rewrite Ep. exists ([96; 96; 96] ++ p), r. split; [|right; exists p; reflexivity].
  cbn [rev]. rewrite rev_involutive, <- !app_assoc. reflexivity.
Qed.

(** X4: a fenced block in the middle of other text.  When neither the text
    before the opening fence nor the block holds a backtick, the
    fenced-block strategy parses the stripped block, whatever follows the
    closing fence: for a tagged fence provided what follows does not start
    with a backtick, for an untagged one provided the text holds no tagged
    fence. *)
Theorem parse_markdown_json_in_prose (tagged : bool) (pre body post : str) :
  count 96 pre = 0%nat ->
  count 96 body = 0%nat ->
  (if tagged then startswith post [96] = false
   else contains fence_json (pre ++ fence ++ body ++ fence ++ post) = false) ->
  parse_markdown_json
    (pre ++ (if tagged then fence_json else fence) ++ body ++ fence ++ post) =
  Json.loads (strip body).
Proof.
  intros Hpre Hbody H. unfold parse_markdown_json, split.
  assert (Hb : split_go fence 0 [] body = [body]).
  { rewrite <- (app_nil_r body) at 1. rewrite (split_go_pass_fence _ _ _ Hbody).
    cbn. rewrite app_nil_r, rev_involutive. reflexivity. }
  destruct tagged.
  - rewrite (contains_app_l _ pre _ (contains_self fence_json _)).
    rewrite (split_go_pass_fence_json _ _ _ Hpre), split_go_match_fence_json.
    destruct (split_after_fence_json body post Hbody H) as (P & r & E & HP).
    rewrite E. cbn [index nth_error].
    rewrite (split_go_pass_fence _ _ _ Hbody).
    destruct HP as [->|[p ->]].
    + cbn. rewrite app_nil_r, rev_involutive. reflexivity.
    + rewrite split_go_match_fence. cbn [index nth_error].
      rewrite app_nil_r, rev_involutive. reflexivity.
  - rewrite H. rewrite (contains_app_l _ pre _ (contains_self fence _)).
    rewrite (split_go_pass_fence _ _ _ Hpre), split_go_match_fence.
    rewrite (split_go_pass_fence _ _ _ Hbody), split_go_match_fence.
    cbn [index nth_error]. rewrite app_nil_r, rev_involutive.
    rewrite Hb. reflexivity.
Qed.

Lemma parse_markdown_json_in_prose_witness :
  parse_markdown_json
    (pyq "Here is the plan: ```json {'a': 1} ``` I hope it helps.") =
  Json.loads (strip (pyq " {'a': 1} ")).
Proof.
  apply (parse_markdown_json_in_prose true (py "Here is the plan: ")
           (pyq " {'a': 1} ") (py " I hope it helps.")); reflexivity.
Defined.

End ParsingStrategies.
Section RepairPass.

Local Open Scope N_scope.

Lemma lstrip_keeps_last a c :
  isspace c = false -> exists b, lstrip (a ++ [c]) = b ++ [c].
Proof.
  intros H. induction a as [|x a [b IH]].
  - exists []. simpl. rewrite H. reflexivity.
  - simpl. destruct (isspace x).
    + exists b. exact IH.
    + exists (x :: a). reflexivity.
Qed.

Lemma strip_keeps_first c s :
  isspace c = false -> exists u, strip (c :: s) = c :: u.
Proof.
  intros H. unfold strip, rstrip. cbn [lstrip]. rewrite H. cbn [rev].
  destruct (lstrip_keeps_last (rev s) c H) as [b ->].
  exists (rev b). rewrite rev_app_distr. reflexivity.
Qed.

Lemma split_go_newline_step cur c s :
  (10 =? c) = false ->
  split_go [newline] 0 cur (c :: s) = split_go [newline] 0 (c :: cur) s.
Proof.
  intros H. rewrite split_go_step. cbn [startswith].
  change newline with 10. rewrite H. reflexivity.
Qed.

Lemma join_cons sep x l : exists y, join sep (x :: l) = x ++ y.
Proof.
  destruct l as [|z l].
  - exists []. cbn. rewrite app_nil_r. reflexivity.
  - eexists. reflexivity.
Qed.

Lemma loads_brace_backslash s :
  Json.loads (123 :: 92 :: s) = Raise JSONDecodeError.
Proof. reflexivity. Qed.

(** X5: the repair pass of the line-by-line strategy spoils every object
    whose text starts with an opening brace, a double quote and a key
    character that the pattern of the second substitution does not excuse
    (a comma, a closing bracket or brace, a colon, whitespace): the opening
    quote of the key gets a backslash, and [json.loads] refuses the
    repaired text. *)
Theorem parse_line_by_line_json_first_key (k : char) (rest : str) :
  after_quote_ok k = false ->
  exists repaired,
    fix_common_json_issues (lbrace :: dquote :: k :: rest) =
      lbrace :: backslash :: dquote :: repaired /\
    parse_line_by_line_json (lbrace :: dquote :: k :: rest) = Raise JSONDecodeError.
Proof.
  intros Hk.
  assert (K : (k =? 44) = false /\ isspace k = false).
  { unfold after_quote_ok in Hk. repeat (apply orb_false_iff in Hk; destruct Hk as [Hk ?]).
    auto. }
  destruct K as [K1 K2].
  assert (F : forall Y, exists W,
            fix_common_json_issues (lbrace :: dquote :: k :: Y) =
              lbrace :: backslash :: dquote :: W).
  { intros Y. unfold fix_common_json_issues.
    change (strip_trailing_commas (lbrace :: dquote :: k :: Y))
      with (lbrace :: dquote :: strip_trailing_commas (k :: Y)).
    cbn [strip_trailing_commas]. rewrite K1. cbn [andb].
    cbn [escape_quotes]. rewrite Hk.
    eexists. reflexivity. }
  destruct (F rest) as [W EW]. exists W. split; [exact EW|].
  unfold parse_line_by_line_json, split.
  assert (K3 : (10 =? k) = false).
  { destruct (10 =? k) eqn:E; [|reflexivity]. apply N.eqb_eq in E. subst k.
    discriminate K2. }
  rewrite !split_go_newline_step by (reflexivity || exact K3).
  match goal with |- context [split_go ?sep 0 ?cur rest] =>
    destruct (split_go_head sep rest cur) as (p & r & ->)
  end.
  cbn [rev app]. cbn [accumulate_lines].
  destruct (strip_keeps_first lbrace (dquote :: k :: p) eq_refl) as [u ->].
  cbn [startswith]. rewrite N.eqb_refl, startswith_nil. cbn [andb orb].
  match goal with |- context [if ?b then [?l] else ?l :: ?t] => destruct b end;
    cbv beta iota;
    match goal with |- context [join ?sep (?x :: ?l)] =>
      destruct (join_cons sep x l) as [Y ->]
    end;
    cbn [app]; destruct (F (p ++ Y)) as [V ->];
  apply loads_brace_backslash.
Qed.

Lemma parse_line_by_line_json_first_key_witness :
  exists repaired,
    fix_common_json_issues (pyq "{'name': 'shop'}") =
      lbrace :: backslash :: dquote :: repaired /\
    parse_line_by_line_json (pyq "{'name': 'shop'}") = Raise JSONDecodeError.
Proof.
  apply (parse_line_by_line_json_first_key 110 (pyq "ame': 'shop'}")).
  reflexivity.
Defined.

End RepairPass.
(* ================================================================== *)
(** * Further properties of [call_api] *)
(* ================================================================== *)

(** X6: a role without a prompt (a name that is not one of the five) or
    without a model (fewer than five keys were given) is never sent to the
    remote producer: each of the three attempts fails on the missing key,
    the first two are followed by their waits of one and two seconds, and
    the call returns the default record of the name, which for an unknown
    name is the record of the unknown model. *)
Theorem call_api_without_model (self : GeminiAPIManager) (name : str) (st : State) :
  mem name role_names = false \/ mem name (models self) = false ->
  call_api self name st =
    (Ok (get_default_structure name),
     {| context := context st;
        trace := EvSleep 2 :: EvSleep 1 :: trace st;
        disk := disk st |}) /\
  (mem name role_names = false -> get_default_structure name = default_unknown).
Proof.
  intros H. split.
  - unfold call_api, max_retries. cbn [seq call_api_loop]. unfold attempt_body.
    destruct H as [H|H]; rewrite H; [|destruct (mem name role_names)];
      reflexivity.
  - intros N. unfold mem, role_names in N. cbn [existsb] in N.
    repeat (apply orb_false_iff in N; destruct N as [? N]).
    unfold get_default_structure.
    repeat match goal with H : str_eqb name _ = false |- _ => rewrite H; clear H end.
    reflexivity.
Qed.

Lemma call_api_without_model_witness :
  call_api {| models := [planner; architect]; producer := fun _ => Text (py "{}") |}
           reviewer fresh_state =
    (Ok default_reviewer,
     {| context := context fresh_state;
        trace := [EvSleep 2; EvSleep 1];
        disk := None |}).
Proof.
  apply (call_api_without_model
           {| models := [planner; architect]; producer := fun _ => Text (py "{}") |}
           reviewer fresh_state).
  right. reflexivity.
Defined.

(** X7: whatever the name and the remote producer, [call_api] returns, and
    what it returns is truthy (so the stage that stores it is not run
    again); it leaves the context and the context file as they were, and
    adds nothing to the trace but remote calls and waits. *)
Theorem call_api_frame (self : GeminiAPIManager) (name : str) (st : State) :
  (exists v, fst (call_api self name st) = Ok v /\ truthy v = true) /\
  context (snd (call_api self name st)) = context st /\
  disk (snd (call_api self name st)) = disk st /\
  (exists new, trace (snd (call_api self name st)) = new ++ trace st /\
               Forall api_event new).
Proof.
  destruct (call_api_spec self name st) as (v & new & E & Hv & Hev & _).
  rewrite E. cbn [fst snd context disk trace].
  split; [exists v; auto|]. split; [reflexivity|]. split; [reflexivity|].
  exists new. auto.
Qed.

(** X8: for a role that has a prompt and a model, [call_api] returns the
    first answer that parses among those of its three remote calls, and
    stops calling there; when none parses it returns the default record of
    the role, after three calls. *)
Theorem call_api_first_answer (self : GeminiAPIManager) (role : str) (st : State) :
  mem role role_names = true ->
  mem role (models self) = true ->
  let n := remote_calls (trace st) in
  fst (call_api self role st) =
    Ok match answer self n, answer self (n + 1), answer self (n + 2) with
       | Some v, _, _ => v
       | None, Some v, _ => v
       | None, None, Some v => v
       | None, None, None => get_default_structure role
       end /\
  remote_calls (trace (snd (call_api self role st))) =
    n + match answer self n, answer self (n + 1) with
        | Some _, _ => 1
        | None, Some _ => 2
        | None, None => 3
        end.
Proof.
  intros H1 H2 n. subst n.
  unfold call_api, max_retries, answer. simpl.
  unfold attempt_body. rewrite H1, H2. simpl.
  unfold bind, generate_content, ret, sleep, emit. simpl.
  rewrite !Nat.add_1_r.
  replace (remote_calls (trace st) + 2) with (S (S (remote_calls (trace st)))) by lia.
  repeat
    (match goal with
     | |- context [producer self ?i] => destruct (producer self i) eqn:?
     | |- context [parse_json_response ?t] =>
         let E := fresh "E" in
         destruct (parse_json_response t) eqn:E;
         [apply parse_json_response_truthy in E; rewrite E|]
     end; simpl; try (split; [reflexivity|lia])).
Qed.

Lemma call_api_first_answer_witness :
  fst (call_api list_manager planner fresh_state) =
    Ok (VDict [(vs "requirements", VList [vs "a shop"])]) /\
  remote_calls (trace (snd (call_api list_manager planner fresh_state))) = 0 + 1.
Proof.
  exact (call_api_first_answer list_manager planner fresh_state eq_refl eq_refl).
Defined.

(* ================================================================== *)
(** * Further properties of the stages and of the entry points *)
(* ================================================================== *)

(** ** What one stage does *)

Lemma stages_entered_app a b :
  stages_entered (a ++ b) = stages_entered b ++ stages_entered a.
Proof.
  induction a as [|e a IH]; simpl; [rewrite app_nil_r; reflexivity|].
  destruct e; rewrite IH; try reflexivity. rewrite app_assoc. reflexivity.
Qed.

Lemma stages_entered_api new : Forall api_event new -> stages_entered new = [].
Proof.
  induction 1 as [|e new He _ IH]; [reflexivity|].
  destruct e; simpl in *; try contradiction; exact IH.
Qed.

Lemma gather_call_api_count api names : forall st,
  exists rs new,
    gather (map (generate_module_code api) names) st =
      (Ok rs, {| context := context st; trace := new ++ trace st; disk := disk st |})
    /\ Forall api_event new /\ remote_calls new <= 3 * length names.
Proof.
  induction names as [|n names IH]; intros st; simpl.
  - exists [], []. destruct st; auto.
  - unfold generate_module_code at 1.
    destruct (call_api_spec api developer st) as (v & new & E & _ & Hev & Hn).
    rewrite E.
    destruct (IH {| context := context st; trace := new ++ trace st; disk := disk st |})
      as (rs & new' & E' & Hev' & Hn').
    rewrite E'. simpl. exists (Ok v :: rs), (new' ++ new).
    rewrite app_assoc. split; [reflexivity|]. split; [apply Forall_app; auto|].
    rewrite remote_calls_app. lia.
Qed.

Ltac other_fields :=
  let s' := fresh "s" in let N := fresh "N" in
  intros s' N; destruct s'; try reflexivity; contradiction N; reflexivity.

Lemma stage_1_requirements_effect api st :
  stage_effect Requirements st (fst (stage_1_requirements api st))
                                (snd (stage_1_requirements api st)).
Proof.
  unfold stage_1_requirements, enter, bind, get_context, emit, modify_context,
    save_stage_output, save_context, ret. cbn [context trace disk].
  match goal with |- context [call_api api planner ?s] =>
    destruct (call_api_spec api planner s) as (v & new & E & Hv & Hev & Hn)
  end.
  rewrite E. cbn [fst snd context trace disk]. split; cbn [context trace disk].
  - exists (EvSaveContext (set_requirements v (set_current_stage (vs "requirements")
                                                 (context st)))
            :: EvStageOutput Requirements v :: new).
    split; [reflexivity|]. cbn [stages_entered remote_calls call_budget].
    rewrite (stages_entered_api _ Hev). auto.
  - other_fields.
  - right. exact Hv.
  - intros v' [= <-]. auto.
  - discriminate.
Qed.

Lemma stage_2_architecture_effect api st :
  stage_effect Architecture st (fst (stage_2_architecture api st))
                                (snd (stage_2_architecture api st)).
Proof.
  unfold stage_2_architecture, enter, bind, get_context, emit, modify_context,
    save_stage_output, save_context, ret. cbn [context trace disk].
  match goal with |- context [call_api api architect ?s] =>
    destruct (call_api_spec api architect s) as (v & new & E & Hv & Hev & Hn)
  end.
  rewrite E. cbn [fst snd context trace disk]. split; cbn [context trace disk].
  - exists (EvSaveContext (set_architecture v (set_current_stage (vs "architecture")
                                                 (context st)))
            :: EvStageOutput Architecture v :: new).
    split; [reflexivity|]. cbn [stages_entered remote_calls call_budget].
    rewrite (stages_entered_api _ Hev). auto.
  - other_fields.
  - right. exact Hv.
  - intros v' [= <-]. auto.
  - discriminate.
Qed.

(** The trace a stage leaves: some events that are neither stage entries
    nor remote calls, on top of those of its remote calls. *)
Ltac stage_trace quiet new Hev :=
  exists (quiet ++ new); split; [reflexivity|];
  rewrite stages_entered_app, remote_calls_app, (stages_entered_api _ Hev);
  cbn [stages_entered remote_calls call_budget app]; split; [reflexivity|lia].

Lemma stage_4_review_and_test_effect api st :
  stage_effect Review st (fst (stage_4_review_and_test api st))
                          (snd (stage_4_review_and_test api st)).
Proof.
  unfold stage_4_review_and_test, enter, bind, get_context, emit, modify_context,
    save_stage_output, save_context, ret, lift. cbn [context trace disk].
  match goal with |- context [call_api api reviewer ?s] =>
    destruct (call_api_spec api reviewer s) as (v & new & E & Hv & Hev & Hn)
  end.
  rewrite E. cbn [fst snd context trace disk].
  destruct (py_in (py "test_files") v) as [[|]|e] eqn:I1;
    [destruct (py_getitem v (py "test_files")) as [tf|e] eqn:I2;
       [destruct (create_test_files tf) as [[]|e] eqn:Ct|]| |];
    cbn [fst snd context trace disk]; (split; cbn [context trace disk];
    [ first [ stage_trace [EvSaveContext (set_test_results v
                             (set_current_stage (vs "review") (context st)));
                           EvStageOutput Review v] new Hev
            | stage_trace [EvStageOutput Review v] new Hev ]
    | other_fields
    | right; exact Hv
    | intros v'; try discriminate; intros [= <-]; auto
    | intros e'; try discriminate; intros [= <-];
      eauto using py_in_nve, py_getitem_nve, create_test_files_nve,
        create_deployment_files_safe_nve ]).
Qed.

Lemma stage_5_deployment_effect api st :
  stage_effect Deployment st (fst (stage_5_deployment api st))
                              (snd (stage_5_deployment api st)).
Proof.
  unfold stage_5_deployment, enter, bind, get_context, emit, modify_context,
    save_stage_output, save_context, ret, lift. cbn [context trace disk].
  match goal with |- context [call_api api devops ?s] =>
    destruct (call_api_spec api devops s) as (v & new & E & Hv & Hev & Hn)
  end.
  rewrite E. cbn [fst snd context trace disk].
  destruct (create_deployment_files_safe v) as [[]|e] eqn:Cf;
    cbn [fst snd context trace disk]; (split; cbn [context trace disk];
    [ first [ stage_trace [EvSaveContext (set_deployment v
                             (set_current_stage (vs "deployment") (context st)));
                           EvStageOutput Deployment v] new Hev
            | stage_trace [EvStageOutput Deployment v] new Hev ]
    | other_fields
    | right; exact Hv
    | intros v'; try discriminate; intros [= <-]; auto
    | intros e'; try discriminate; intros [= <-];
      eauto using py_in_nve, py_getitem_nve, create_test_files_nve,
        create_deployment_files_safe_nve ]).
Qed.

Lemma stage_3_code_generation_effect api order st :
  stage_effect Code st (fst (stage_3_code_generation api order st))
                        (snd (stage_3_code_generation api order st)).
Proof.
  unfold stage_3_code_generation, stage_3_with, enter, bind, get_context, emit,
    modify_context, save_stage_output, save_context, ret, lift.
  cbn [context trace disk fst snd set_current_stage architecture].
  destruct (py_get (architecture (context st)) (py "modules") default_modules)
    as [modules|e] eqn:G; cbn [fst snd context trace disk].
  2: { split; cbn [context trace disk];
       [ exists []; repeat split; cbn; lia | other_fields | left; reflexivity
       | discriminate | intros e' [= <-]; eapply py_get_nve; eassumption ]. }
  destruct (py_iter modules) as [names|e] eqn:It; cbn [fst snd context trace disk].
  2: { split; cbn [context trace disk];
       [ exists []; repeat split; cbn; lia | other_fields | left; reflexivity
       | discriminate | intros e' [= <-]; eapply py_iter_nve; eassumption ]. }
  match goal with |- context [gather _ ?s] =>
    destruct (gather_call_api_count api names s) as (rs & new & E & Hev & Hn)
  end.
  unfold stage_3_code_generation in E. rewrite E. cbn [fst snd context trace disk].
  assert (B : call_budget Code (context st) = 3 * length names).
  { unfold call_budget, module_count. rewrite G, It. reflexivity. }
  pose proof (combine_post order names rs) as Hc.
  destruct (combine order names rs) as [combined|e]; cbn [fst snd context trace disk].
  2: { split; cbn [context trace disk];
       [ exists new; split; [reflexivity|]; rewrite (stages_entered_api _ Hev), B;
         split; [reflexivity|exact Hn]
       | other_fields | left; reflexivity | discriminate
       | intros e' [= <-]; exact Hc ]. }
  destruct (create_code_files combined) as [[]|e] eqn:Cf;
    cbn [fst snd context trace disk];
    (split; cbn [context trace disk];
    [ rewrite B;
      first [ stage_trace [EvSaveContext (set_codebase combined
                             (set_current_stage (vs "code") (context st)));
                           EvStageOutput Code combined] new Hev
            | stage_trace [EvStageOutput Code combined] new Hev ]
    | other_fields
    | right; exact Hc
    | intros v'; try discriminate; intros [= <-]; auto
    | intros e'; try discriminate; intros [= <-];
      eapply create_code_files_nve; eassumption ]).
Qed.

Lemma stage_method_effect_holds api order s st :
  stage_effect s st (fst (stage_method api order s st))
                    (snd (stage_method api order s st)).
Proof.
  destruct s; cbn [stage_method].
  - apply stage_1_requirements_effect.
  - apply stage_2_architecture_effect.
  - apply stage_3_code_generation_effect.
  - apply stage_4_review_and_test_effect.
  - apply stage_5_deployment_effect.
Qed.

(** ** What a run does *)

Lemma stage_eq_dec (a b : stage) : {a = b} + {a <> b}.
Proof. decide equality. Qed.

Lemma run_effect_refl st : run_effect [] st st.
Proof.
  split; auto. exists []. cbn. auto.
Qed.

Lemma call_budget_architecture s c c' :
  architecture c' = architecture c \/ s <> Code ->
  call_budget s c' = call_budget s c.
Proof.
  intros [H|H]; destruct s; try reflexivity.
  - cbn. rewrite H. reflexivity.
  - contradiction H. reflexivity.
Qed.

Lemma list_sum_budget l c c' :
  architecture c' = architecture c \/ ~ In Code l ->
  list_sum (map (fun s => call_budget s c') l) =
  list_sum (map (fun s => call_budget s c) l).
Proof.
  intros H. induction l as [|s l IH]; [reflexivity|].
  change (call_budget s c' + list_sum (map (fun s => call_budget s c') l) =
          call_budget s c + list_sum (map (fun s => call_budget s c) l)).
  f_equal.
  - apply call_budget_architecture.
    destruct H as [H|H]; [left; exact H|right]. intros ->. apply H. left. reflexivity.
  - apply IH.
    destruct H as [H|H]; [left; exact H|right]. intros I. apply H. right. exact I.
Qed.

(** A run followed by one more stage. *)
Lemma run_effect_stage l s st st1 r st2 :
  run_effect l st st1 -> stage_effect s st1 r st2 ->
  (s = Architecture -> ~ In Code l) ->
  run_effect (l ++ [s]) st st2.
Proof.
  intros [(new1 & T1 & L1 & B1) O1 F1] [(new2 & T2 & L2 & B2) O2 F2 _ _] HA.
  assert (A : architecture (context st2) = architecture (context st1) \/
              (~ In Code l /\ s <> Code)).
  { destruct (stage_eq_dec s Architecture) as [->|N].
    - right. split; [auto|discriminate].
    - left. apply (O2 Architecture). congruence. }
  split.
  - exists (new2 ++ EvStage s (context st1) :: new1). split; [|split].
    + rewrite T2, T1, <- app_assoc. reflexivity.
    + rewrite stages_entered_app. cbn [stages_entered]. rewrite L1, L2, app_nil_r.
      reflexivity.
    + rewrite remote_calls_app. cbn [remote_calls].
      rewrite map_app, list_sum_app.
      change (list_sum (map (fun s0 => call_budget s0 (context st2)) [s]))
        with (call_budget s (context st2) + 0).
      rewrite (list_sum_budget l (context st1) (context st2)) by tauto.
      rewrite (call_budget_architecture s (context st1) (context st2)) by tauto.
      lia.
  - intros s' N. rewrite O2; [apply O1|].
    + intros I. apply N, in_or_app. left. exact I.
    + intros ->. apply N, in_or_app. right. left. reflexivity.
  - intros s'. destruct (stage_eq_dec s' s) as [->|N].
    + destruct F2 as [F2|F2]; [rewrite F2; apply F1|right; exact F2].
    + rewrite (O2 s' N). apply F1.
Qed.

(** The end of a run: the stage is marked, the context saved. *)
Lemma run_effect_completed l st c t d :
  run_effect l st {| context := c; trace := t; disk := d |} ->
  run_effect l st
    {| context := set_current_stage (vs "completed") c;
       trace := EvSaveContext (set_current_stage (vs "completed") c) :: t;
       disk := Some (Holds (asdict (set_current_stage (vs "completed") c))) |}.
Proof.
  intros [(new & T & L & B) O F]. cbn [context trace disk] in *. split.
  - exists (EvSaveContext (set_current_stage (vs "completed") c) :: new).
    cbn [trace context]. rewrite T. split; [reflexivity|]. split; [exact L|].
    cbn [remote_calls].
    rewrite (list_sum_budget l c (set_current_stage (vs "completed") c))
      by (left; reflexivity).
    exact B.
  - intros s N. cbn [context]. rewrite <- (O s N). destruct s; reflexivity.
  - intros s. cbn [context].
    replace (field_of s (set_current_stage (vs "completed") c)) with (field_of s c)
      by (destruct s; reflexivity).
    apply F.
Qed.

Lemma filter_missing_snoc c P s :
  filter (missing c) (P ++ [s]) =
  filter (missing c) P ++ (if missing c s then [s] else []).
Proof. rewrite filter_app. cbn. destruct (missing c s); reflexivity. Qed.

(** One step of [resume_workflow]: the stage is run when its result was
    missing at the start of the run, and skipped otherwise. *)
Lemma unless_present_step {B} api order (s : stage) (P : list stage)
    (k : unit -> M B) st0 st (Q : result B -> State -> Prop) :
  run_effect (filter (missing (context st0)) P) st0 st ->
  ~ In s P ->
  (s = Architecture -> ~ In Code P) ->
  (forall e st', run_effect (filter (missing (context st0)) (P ++ [s])) st0 st' ->
                 Q (Raise e) st') ->
  (forall st', run_effect (filter (missing (context st0)) (P ++ [s])) st0 st' ->
               forall r st'', k tt st' = (r, st'') -> Q r st'') ->
  forall r st',
    bind (unless_present (field_of s) (stage_method api order s)) k st = (r, st') ->
    Q r st'.
Proof.
  intros R NP NA Hraise Hk r st'.
  assert (Same : field_of s (context st) = field_of s (context st0)).
  { apply (re_others _ _ _ R). intros I. apply filter_In in I. tauto. }
  unfold unless_present, bind, get_context. rewrite Same.
  change (negb (truthy (field_of s (context st0)))) with (missing (context st0) s).
  pose proof (filter_missing_snoc (context st0) P s) as Fs.
  destruct (missing (context st0) s).
  - pose proof (stage_method_effect_holds api order s st) as E.
    destruct (stage_method api order s st) as [[v|e] st1]; cbn [fst snd] in E.
    + unfold ret. apply Hk. rewrite Fs.
      eapply run_effect_stage; [exact R|exact E|].
      intros HA I. apply filter_In in I. apply (NA HA). tauto.
    + intros [= <- <-]. apply Hraise. rewrite Fs.
      eapply run_effect_stage; [exact R|exact E|].
      intros HA I. apply filter_In in I. apply (NA HA). tauto.
  - unfold ret. apply Hk. rewrite Fs, app_nil_r. exact R.
Qed.

Lemma resume_workflow_effect api order input st :
  resume_effect input st (fst (resume_workflow api order input st))
                         (snd (resume_workflow api order input st)).
Proof.
  destruct (resume_workflow api order input st) as [r st'] eqn:E. cbn [fst snd].
  revert r st' E.
  assert (Hraise : forall P rest e st',
            all_stages = P ++ rest ->
            run_effect (filter (missing (context st)) P) st st' ->
            resume_effect input st (Raise e) st').
  { intros P rest e st' HP R. right. exists P, rest.
    split; [exact HP|]. split; [exact R|]. discriminate. }
  assert (Hrest : forall st1,
            run_effect (filter (missing (context st)) [Requirements]) st st1 ->
            forall r st',
              (unless_present architecture (stage_2_architecture api) ;;;
               unless_present codebase (stage_3_code_generation api order) ;;;
               unless_present test_results (stage_4_review_and_test api) ;;;
               unless_present deployment (stage_5_deployment api) ;;;
               modify_context (set_current_stage (vs "completed")) ;;;
               save_context ;;; get_context) st1 = (r, st') ->
              resume_effect input st r st').
  { intros st1 R1.
    apply (unless_present_step api order Architecture [Requirements]
             _ st _ (resume_effect input st));
      [ exact R1 | cbn; intuition discriminate | cbn; intuition discriminate
      | intros e st2 R; apply (Hraise ([Requirements] ++ [Architecture]) [Code; Review; Deployment]
                                   e st2 eq_refl R) | ].
    intros st2 R2.
    apply (unless_present_step api order Code [Requirements; Architecture]
             _ st _ (resume_effect input st));
      [ exact R2 | cbn; intuition discriminate | discriminate
      | intros e st3 R; apply (Hraise ([Requirements; Architecture] ++ [Code]) [Review; Deployment]
                                   e st3 eq_refl R) | ].
    intros st3 R3.
    apply (unless_present_step api order Review [Requirements; Architecture; Code]
             _ st _ (resume_effect input st));
      [ exact R3 | cbn; intuition discriminate | discriminate
      | intros e st4 R; apply (Hraise ([Requirements; Architecture; Code] ++ [Review]) [Deployment]
                                   e st4 eq_refl R) | ].
    intros st4 R4.
    apply (unless_present_step api order Deployment
             [Requirements; Architecture; Code; Review]
             _ st _ (resume_effect input st));
      [ exact R4 | cbn; intuition discriminate | discriminate
      | intros e st5 R; apply (Hraise ([Requirements; Architecture; Code; Review] ++ [Deployment]) []
                                   e st5 eq_refl R) | ].
    intros [c5 t5 d5] R5 r st'.
    unfold bind, modify_context, save_context, get_context. cbn [context trace disk].
    intros [= <- <-]. right. exists all_stages, [].
    split; [reflexivity|]. split; [exact (run_effect_completed _ _ _ _ d5 R5)|].
    intros c [= <-]. cbn [context disk]. auto. }
  intros r st'. unfold resume_workflow at 1.
  unfold bind at 1. unfold get_context at 1.
  unfold bind at 1.
  destruct (truthy (requirements (context st))) eqn:T; cbn [negb].
  - unfold ret at 1. apply Hrest.
    cbn [filter]. unfold missing at 1. cbn [field_of]. rewrite T. cbn [negb].
    apply run_effect_refl.
  - destruct (no_input input) eqn:NI.
    + unfold raise. intros [= <- <-]. left.
      unfold missing. cbn [field_of]. rewrite T. auto.
    + unfold bind at 1.
      pose proof (stage_method_effect_holds api order Requirements st) as E1.
      cbn [stage_method] in E1.
      assert (R1 : run_effect (filter (missing (context st)) [Requirements]) st
                     (snd (stage_1_requirements api st))).
      { cbn [filter]. unfold missing at 1. cbn [field_of]. rewrite T. cbn [negb].
        apply (run_effect_stage [] Requirements st st _ _ (run_effect_refl st) E1).
        discriminate. }
      destruct (stage_1_requirements api st) as [[v|e] st1]; cbn [fst snd] in *.
      * unfold ret at 1. apply Hrest, R1.
      * intros [= <- <-].
        apply (Hraise [Requirements] [Architecture; Code; Review; Deployment]
                      e st1 eq_refl R1).
Qed.



(** X10: [resume_workflow] runs the stages whose results are missing at
    the start, in the order of the workflow and each once, and no other:
    the stages it enters are the missing stages, all of them when it
    returns, the first of them up to the one that raises when it raises.
    A result that was there is the same at the end: no run of
    [resume_workflow] overwrites it.  A result that was missing is as it
    was or truthy. *)
Theorem resume_runs_missing_stages (api : GeminiAPIManager)
    (order : list value -> list value) (input : option str) (st : State) :
  let r := fst (resume_workflow api order input st) in
  let st' := snd (resume_workflow api order input st) in
  (exists new rest,
     trace st' = new ++ trace st /\
     filter (missing (context st)) all_stages = stages_entered new ++ rest /\
     (forall c, r = Ok c -> rest = [])) /\
  (forall s, truthy (field_of s (context st)) = true ->
             field_of s (context st') = field_of s (context st)) /\
  (forall s, field_of s (context st') = field_of s (context st) \/
             truthy (field_of s (context st')) = true).
Proof.
  cbv zeta.
  destruct (resume_workflow_effect api order input st)
    as [(E & -> & _)|(P & rest & HP & [(new & T & L & _) O F] & K)].
  - rewrite E. split; [|split; auto].
    exists [], (filter (missing (context st)) all_stages).
    repeat split; auto. discriminate.
  - split; [|split; [|exact F]].
    + exists new, (filter (missing (context st)) rest).
      split; [exact T|]. split; [rewrite HP, filter_app, L; reflexivity|].
      intros c Hc. destruct (K c Hc) as [-> _]. reflexivity.
    + intros s Hs. apply O. intros I. apply filter_In in I.
      unfold missing in I. rewrite Hs in I. destruct I as [_ I]. discriminate I.
Qed.

Lemma resume_runs_missing_stages_witness :
  requirements (context (snd (resume_workflow silent_manager py_list_set None
                                three_modules_state))) = default_planner /\
  exists new,
    trace (snd (resume_workflow silent_manager py_list_set None three_modules_state)) =
      new ++ [] /\
    stages_entered new = [Code; Review; Deployment].
Proof.
  destruct (resume_runs_missing_stages silent_manager py_list_set None
              three_modules_state) as ((new & rest & T & Fm & K) & O & _).
  split.
  - apply (O Requirements). reflexivity.
  - exists new. split; [exact T|].
    assert (E : fst (resume_workflow silent_manager py_list_set None
                       three_modules_state) =
                Ok (context (snd (resume_workflow silent_manager py_list_set None
                                    three_modules_state))))
      by (vm_compute; reflexivity).
    rewrite (K _ E), app_nil_r in Fm.
    symmetry. exact Fm.
Defined.

Lemma list_sum_filter_le {A} (g : A -> nat) (f : A -> bool) l :
  list_sum (map g (filter f l)) <= list_sum (map g l).
Proof.
  induction l as [|x l IH]; [reflexivity|].
  cbn [filter map]. destruct (f x); simpl in *; lia.
Qed.

(** X11: the remote calls of one [resume_workflow]: at most three for each
    stage it enters, the code generation stage counting for as many stages
    as the architecture has modules; and so at most twelve, and three for
    each module of the architecture. *)
Theorem resume_workflow_call_budget (api : GeminiAPIManager)
    (order : list value -> list value) (input : option str) (st : State) :
  let st' := snd (resume_workflow api order input st) in
  exists new,
    trace st' = new ++ trace st /\
    remote_calls new <=
      list_sum (map (fun s => call_budget s (context st')) (stages_entered new)) /\
    remote_calls new <= 12 + 3 * module_count (architecture (context st')).
Proof.
  cbv zeta.
  destruct (resume_workflow_effect api order input st)
    as [(_ & -> & _)|(P & rest & HP & [(new & T & L & B) _ _] & _)].
  - exists []. split; [reflexivity|]. split; apply Nat.le_0_l.
  - exists new. split; [exact T|]. rewrite L. split; [exact B|].
    eapply Nat.le_trans; [exact B|].
    eapply Nat.le_trans; [apply list_sum_filter_le|].
    transitivity (list_sum (map (fun s => call_budget s
                     (context (snd (resume_workflow api order input st)))) all_stages)).
    + rewrite HP, map_app, list_sum_app. lia.
    + cbn. lia.
Qed.

(** ** [run_full_workflow] *)

(** One stage of the sequence of [run_full_workflow]. *)
Lemma stage_step {B} api order (s : stage) (P : list stage)
    (k : value -> M B) st0 st (Q : result B -> State -> Prop) :
  run_effect P st0 st ->
  (s = Architecture -> ~ In Code P) ->
  (forall e st', run_effect (P ++ [s]) st0 st' -> not_value_error e ->
                 Q (Raise e) st') ->
  (forall v st', run_effect (P ++ [s]) st0 st' ->
                 forall r st'', k v st' = (r, st'') -> Q r st'') ->
  forall r st', bind (stage_method api order s) k st = (r, st') -> Q r st'.
Proof.
  intros R NA Hraise Hk r st'. unfold bind.
  pose proof (stage_method_effect_holds api order s st) as E.
  destruct (stage_method api order s st) as [[v|e] st1]; cbn [fst snd] in E.
  - apply Hk. eapply run_effect_stage; eauto.
  - intros [= <- <-]. apply Hraise.
    + eapply run_effect_stage; eauto.
    + apply (se_raise _ _ _ _ E e eq_refl).
Qed.

Lemma first_run_effect_holds api order st :
  forall r st',
    (stage_1_requirements api ;;;
     stage_2_architecture api ;;;
     stage_3_code_generation api order ;;;
     stage_4_review_and_test api ;;;
     stage_5_deployment api ;;;
     modify_context (set_current_stage (vs "completed")) ;;;
     save_context ;;;
     get_context) st = (r, st') ->
    first_run_effect st r st'.
Proof.
  assert (Hraise : forall n e st', 1 <= n ->
            run_effect (firstn n all_stages) st st' -> not_value_error e ->
            first_run_effect st (Raise e) st').
  { intros n e st' Hn R Hv. exists n. split; [exact Hn|]. split; [exact R|].
    split; [intros e' [= <-]; exact Hv|discriminate]. }
  apply (stage_step api order Requirements [] _ st st (first_run_effect st));
    [ apply run_effect_refl | discriminate
    | intros e st1 R; apply (Hraise 1 e st1 (le_n _) R) | ].
  intros v1 st1 R1.
  apply (stage_step api order Architecture [Requirements] _ st st1 (first_run_effect st));
    [ exact R1 | cbn; intuition discriminate
    | intros e st2 R; apply (Hraise 2 e st2 ltac:(lia) R) | ].
  intros v2 st2 R2.
  apply (stage_step api order Code [Requirements; Architecture] _ st st2
           (first_run_effect st));
    [ exact R2 | discriminate
    | intros e st3 R; apply (Hraise 3 e st3 ltac:(lia) R) | ].
  intros v3 st3 R3.
  apply (stage_step api order Review [Requirements; Architecture; Code] _ st st3
           (first_run_effect st));
    [ exact R3 | discriminate
    | intros e st4 R; apply (Hraise 4 e st4 ltac:(lia) R) | ].
  intros v4 st4 R4.
  apply (stage_step api order Deployment [Requirements; Architecture; Code; Review]
           _ st st4 (first_run_effect st));
    [ exact R4 | discriminate
    | intros e st5 R; apply (Hraise 5 e st5 ltac:(lia) R) | ].
  intros v5 [c5 t5 d5] R5 r st'.
  unfold bind, modify_context, save_context, get_context. cbn [context trace disk].
  intros [= <- <-]. exists 5. split; [lia|].
  split; [exact (run_effect_completed _ _ _ _ d5 R5)|].
  split; [discriminate|]. intros c [= <-]. cbn [context disk]. auto.
Qed.

(** Saving the context changes nothing else. *)
Lemma run_effect_saved l st c t d :
  run_effect l st {| context := c; trace := t; disk := d |} ->
  run_effect l st
    {| context := c; trace := EvSaveContext c :: t;
       disk := Some (Holds (asdict c)) |}.
Proof.
  intros [(new & T & L & B) O F]. cbn [context trace disk] in *. split; auto.
  exists (EvSaveContext c :: new). cbn [trace context]. rewrite T. auto.
Qed.

(** X12: on a context that has not started, [run_full_workflow] asks for
    no input: it enters the requirements stage whatever the input is, also
    without one, and never raises the error for a missing input.  It
    enters the stages in the order of the workflow, all five when it
    returns, the first ones up to the one that raises otherwise, also those
    whose results are there already. *)
Theorem run_full_workflow_first_run (api : GeminiAPIManager)
    (order : list value -> list value) (input : option str) (st : State) :
  value_eqb (current_stage (context st)) (vs "not_started") = true ->
  let r := fst (run_full_workflow api order input st) in
  let st' := snd (run_full_workflow api order input st) in
  r <> Raise missing_input /\
  (exists new n, trace st' = new ++ trace st /\
                 stages_entered new = firstn n all_stages /\ 1 <= n /\
                 (forall c, r = Ok c -> n = 5)).
Proof.
  intros H. cbv zeta.
  destruct (run_full_workflow api order input st) as [r st'] eqn:E.
  cbn [fst snd]. revert E. unfold run_full_workflow, on_exception.
  unfold bind at 1. unfold get_context at 1. rewrite H. cbn [negb].
  match goal with |- context [match ?c st with _ => _ end] =>
    pose proof (first_run_effect_holds api order st (fst (c st)) (snd (c st))) as E;
    destruct (c st) as [[c1|e] st1]
  end; cbn [fst snd] in E; destruct (E eq_refl) as (n & Hn & R & Hr & Hk).
  - intros [= <- <-]. split; [discriminate|].
    destruct R as [(new & T & L & _) _ _]. exists new, n.
    split; [exact T|]. split; [exact L|]. split; [exact Hn|].
    intros c Hc. exact (proj1 (Hk c Hc)).
  - destruct st1 as [c1 t1 d1]. cbn [save_context context trace disk fst snd].
    intros [= <- <-].
    split; [intros [= ->]; exact (Hr _ eq_refl)|].
    destruct (run_effect_saved _ _ _ _ _ R) as [(new & T & L & _) _ _].
    exists new, n.
    split; [exact T|]. split; [exact L|]. split; [exact Hn|]. discriminate.
Qed.

Lemma run_full_workflow_first_run_witness :
  exists new n,
    trace (snd (run_full_workflow silent_manager py_list_set None fresh_state)) =
      new ++ [] /\
    stages_entered new = firstn n all_stages /\ 1 <= n /\ n = 5.
Proof.
  destruct (run_full_workflow_first_run silent_manager py_list_set None fresh_state
              eq_refl) as (_ & new & n & T & L & Hn & K).
  exists new, n.
  split; [exact T|]. split; [exact L|]. split; [exact Hn|].
  apply (K (context (snd (run_full_workflow silent_manager py_list_set None
                            fresh_state)))).
  vm_compute. reflexivity.
Defined.


(** ** The combined result of the code generation stage *)

Lemma module_record_dependencies r :
  module_record r = true ->
  py_get r (py "dependencies") (VList []) = Ok (VList (dependencies_of (Ok r))) /\
  forallb is_str (dependencies_of (Ok r)) = true.
Proof.
  destruct r; try discriminate. cbn [module_record py_get dependencies_of].
  intros H. apply andb_prop in H. destruct H as [Hd _].
  change (VStr (py "dependencies")) with (vs "dependencies").
  destruct (dict_lookup (vs "dependencies") d) as [deps|]; [|auto].
  destruct deps; try discriminate Hd. auto.
Qed.

(** The loop over the modules, for results that are well-formed records:
    each name gets the record kept for its task, the dependencies of the
    tasks that returned are added, and one task that raised marks the
    whole. *)
Lemma combine_loop_all names : forall rs mods deps status,
  length rs = length names ->
  forallb hashable names = true ->
  (forall r, In (Ok r) rs -> module_record r = true) ->
  combine_loop names rs mods deps status =
    Ok (fold_left (fun d kv => dict_set (fst kv) (snd kv) d)
                  (List.combine names (map settled rs)) mods,
        deps ++ flat_map dependencies_of rs,
        if existsb raised_task rs then vs "partial_failure" else status) /\
  forallb is_str (flat_map dependencies_of rs) = true.
Proof.
  induction names as [|m names IH]; intros rs mods deps status Hl Hh Hr.
  - destruct rs; [|discriminate Hl]. cbn. rewrite app_nil_r. auto.
  - destruct rs as [|r rs]; [discriminate Hl|].
    cbn [forallb] in Hh. apply andb_prop in Hh. destruct Hh as [Hm Hh].
    injection Hl as Hl.
    assert (Hr' : forall r', In (Ok r') rs -> module_record r' = true).
    { intros r' I. apply Hr. right. exact I. }
    cbn [combine_loop]. rewrite Hm.
    destruct r as [r|e].
    + destruct (module_record_dependencies r (Hr r (or_introl eq_refl))) as [G S].
      rewrite G. cbn [py_iter].
      destruct (IH rs (dict_set m r mods) (deps ++ dependencies_of (Ok r)) status
                  Hl Hh Hr') as [E F].
      rewrite E. cbn [map List.combine fold_left fst snd settled flat_map existsb
                      raised_task orb].
      rewrite <- app_assoc. split; [reflexivity|].
      rewrite forallb_app, S, F. reflexivity.
    + destruct (IH rs (dict_set m (get_default_structure developer) mods) deps
                  (vs "partial_failure") Hl Hh Hr') as [E F].
      rewrite E. cbn [map List.combine fold_left fst snd settled flat_map existsb
                      raised_task orb dependencies_of app].
      split; [|exact F]. destruct (existsb raised_task rs); reflexivity.
Qed.

(** [py_list_set] is one of the orders that [list(set(...))] can have. *)
Lemma py_list_set_order : set_order py_list_set.
Proof.
  intros l. induction l as [|x l IH]; intros Hl.
  - split; [constructor|tauto].
  - cbn [forallb] in Hl. apply andb_prop in Hl. destruct Hl as [Hx Hl].
    destruct (IH Hl) as [N I]. cbn [py_list_set].
    destruct x as [ | | | | | |s| | ]; try discriminate Hx.
    split.
    + constructor; [|apply NoDup_filter; exact N].
      intros F. apply filter_In in F. destruct F as [_ F].
      cbn [value_eqb] in F. rewrite str_eqb_refl in F. discriminate F.
    + intros y. cbn [In]. rewrite filter_In, I. split.
      * intros [E|[Iy _]]; [left; exact E|right; exact Iy].
      * intros [E|Iy]; [left; exact E|].
        destruct (value_eqb (VStr s) y) eqn:V; [left|right; auto].
        destruct y as [ | | | | | |s'| | ]; try discriminate V.
        cbn [value_eqb] in V. apply str_eqb_eq in V. rewrite V. reflexivity.
Qed.

(** X14: the combined result of the code generation stage, for any number
    of modules and whatever the order in which [list(set(...))] lists a
    set.  When the names are strings and every task that returned gave a
    record whose dependencies, if any, are a list of strings, the stage
    combines the results of the tasks into this record: each name is
    mapped to the result of its task, or to the default record of the
    developer role when its task raised (a name that occurs twice keeps its
    last record, at the place of the first); the dependencies are those of
    the tasks that returned, each of them once and nothing else; and the
    status is [partial_failure] exactly when a task raised. *)
Theorem combine_all_modules (order : list value -> list value)
    (names : list value) (rs : list (result value)) :
  set_order order ->
  length rs = length names ->
  forallb is_str names = true ->
  (forall r, In (Ok r) rs -> module_record r = true) ->
  exists deps,
    combine order names rs =
      Ok (VDict [ (vs "modules",
                   VDict (dict_of_pairs (List.combine names (map settled rs))));
                  (vs "file_structure", VDict []);
                  (vs "dependencies", VList deps);
                  (vs "status", if existsb raised_task rs
                                then vs "partial_failure" else vs "completed") ]) /\
    NoDup deps /\
    (forall x, In x deps <-> exists r, In r rs /\ In x (dependencies_of r)).
Proof.
  intros Ho Hl Hn Hr. unfold combine.
  destruct (combine_loop_all names rs [] [] (vs "completed") Hl
              (forallb_is_str_hashable _ Hn) Hr) as [E F].
  rewrite E. cbn [app]. rewrite (forallb_is_str_hashable _ F).
  destruct (Ho _ F) as [N I].
  exists (order (flat_map dependencies_of rs)).
  split; [reflexivity|]. split; [exact N|].
  intros x. rewrite I. apply in_flat_map.
Qed.

Lemma combine_all_modules_witness :
  exists deps,
    combine py_list_set [vs "api"; vs "web"; vs "api"]
            [Ok api_record; Raise RemoteError; Ok db_record] =
      Ok (VDict [ (vs "modules",
                   VDict [ (vs "api", db_record);
                           (vs "web", get_default_structure developer) ]);
                  (vs "file_structure", VDict []);
                  (vs "dependencies", VList deps);
                  (vs "status", vs "partial_failure") ]) /\
    NoDup deps /\
    (forall x, In x deps <->
               exists r, In r [Ok api_record; Raise RemoteError; Ok db_record] /\
                         In x (dependencies_of r)).
Proof.
  apply (combine_all_modules py_list_set [vs "api"; vs "web"; vs "api"]
           [Ok api_record; Raise RemoteError; Ok db_record]).
  - exact py_list_set_order.
  - reflexivity.
  - reflexivity.
  - intros r [H|[H|[H|[]]]]; try discriminate H; injection H as <-; reflexivity.
Defined.
(** ** File names of the deployment stage *)

(** X16: the file name [create_deployment_files_safe] writes to has the
    length of the name it was given and holds none of the nine characters
    of the pattern, so no slash and no backslash: the file lands in the
    folder of its kind.  A name that holds none of them is kept as it is,
    and so the substitution changes nothing when applied twice. *)
Theorem safe_file_name_safe (file_name : str) :
  length (safe_file_name file_name) = length file_name /\
  forallb (fun c => negb (unsafe_char c)) (safe_file_name file_name) = true /\
  (forallb (fun c => negb (unsafe_char c)) file_name = true ->
   safe_file_name file_name = file_name) /\
  safe_file_name (safe_file_name file_name) = safe_file_name file_name.
Proof.
  assert (Safe : forall s, forallb (fun c => negb (unsafe_char c)) (safe_file_name s)
                           = true).
  { induction s as [|c s IH]; [reflexivity|].
    cbn [safe_file_name map forallb]. fold (safe_file_name s). rewrite IH.
    destruct (unsafe_char c) eqn:U; [reflexivity|]. rewrite U. reflexivity. }
  assert (Id : forall s, forallb (fun c => negb (unsafe_char c)) s = true ->
                         safe_file_name s = s).
  { induction s as [|c s IH]; [reflexivity|].
    cbn [safe_file_name map forallb]. fold (safe_file_name s).
    intros H. apply andb_prop in H. destruct H as [H1 H2].
    rewrite (IH H2). destruct (unsafe_char c); [discriminate H1|reflexivity]. }
  split; [apply length_map|]. split; [apply Safe|]. split; [apply Id|].
  apply Id, Safe.
Qed.

Lemma safe_file_name_safe_witness :
  safe_file_name (py "../.github/workflows/deploy.yml") =
    py ".._.github_workflows_deploy.yml" /\
  safe_file_name (py "docker-compose.yml") = py "docker-compose.yml".
Proof.
  split; [reflexivity|].
  apply (proj1 (proj2 (proj2 (safe_file_name_safe (py "docker-compose.yml"))))).
  reflexivity.
Defined.

(** ** Values of the decoder *)

Section ProperValues.

Import Json.
Local Open Scope N_scope.

Lemma dict_set_items k v d :
  is_str k = true -> proper v = true -> proper_items d = true ->
  proper_items (dict_set k v d) = true.
Proof.
  intros Hk Hv. induction d as [|[k' v'] d IH]; cbn [dict_set proper_items forallb fst snd].
  - rewrite Hk, Hv. reflexivity.
  - intros H. apply andb_prop in H. destruct H as [H1 H2].
    apply andb_prop in H1. destruct H1 as [Hk' Hv'].
    destruct (value_eqb k' k); cbn [proper_items forallb fst snd].
    + rewrite Hk', Hv. exact H2.
    + rewrite Hk', Hv'. exact (IH H2).
Qed.

Lemma existsb_dict_set x k v d :
  value_eqb x k = false ->
  existsb (value_eqb x) (map fst (dict_set k v d)) = existsb (value_eqb x) (map fst d).
Proof.
  intros H. induction d as [|[k' v'] d IH]; cbn [dict_set map existsb fst].
  - rewrite H. reflexivity.
  - destruct (value_eqb k' k); cbn [map existsb fst]; [reflexivity|].
    rewrite IH. reflexivity.
Qed.

Lemma dict_set_distinct k v d :
  distinct (map fst d) = true -> distinct (map fst (dict_set k v d)) = true.
Proof.
  induction d as [|[k' v'] d IH]; cbn [dict_set map distinct fst]; [reflexivity|].
  intros H. apply andb_prop in H. destruct H as [H1 H2].
  destruct (value_eqb k' k) eqn:E; cbn [map distinct fst].
  - rewrite H1. exact H2.
  - rewrite (existsb_dict_set _ _ _ _ E), H1. exact (IH H2).
Qed.

Lemma dict_of_pairs_proper pairs :
  proper_items pairs = true -> proper (VDict (dict_of_pairs pairs)) = true.
Proof.
  assert (G : forall d, proper_items d = true -> distinct (map fst d) = true ->
                        proper_items pairs = true ->
                        proper_items (fold_left (fun d kv => dict_set (fst kv) (snd kv) d)
                                                pairs d) = true /\
                        distinct (map fst (fold_left
                                    (fun d kv => dict_set (fst kv) (snd kv) d)
                                    pairs d)) = true).
  { induction pairs as [|[k v] pairs IH]; intros d Hd Hn Hp; [auto|].
    cbn [proper_items forallb fst snd] in Hp.
    apply andb_prop in Hp. destruct Hp as [H1 H2].
    apply andb_prop in H1. destruct H1 as [Hk Hv].
    cbn [fold_left fst snd]. apply IH.
    - apply dict_set_items; assumption.
    - apply dict_set_distinct; assumption.
    - exact H2. }
  intros H. destruct (G [] eq_refl eq_refl H) as [G1 G2].
  change (proper_items (dict_of_pairs pairs) &&
          distinct (map fst (dict_of_pairs pairs)) = true).
  unfold dict_of_pairs. rewrite G1, G2. reflexivity.
Qed.

Lemma object_loop_proper scan : scans_proper scan ->
  forall fuel pairs s v r,
    proper_items pairs = true ->
    object_loop scan fuel pairs s = Some (v, r) -> proper v = true.
Proof.
  intros P. induction fuel as [|fuel IH]; intros pairs s v r Hp; [discriminate|].
  cbn [object_loop].
  destruct (scanstring [] s) as [[key s1]|]; [|discriminate].
  destruct (skip_ws s1) as [|c s2]; [discriminate|].
  destruct (c =? 58); [|discriminate].
  destruct (scan (skip_ws s2)) as [[x s3]|] eqn:V; [|discriminate].
  apply P in V.
  assert (Hp' : proper_items (pairs ++ [(VStr key, x)]) = true).
  { unfold proper_items. rewrite forallb_app. fold (proper_items pairs).
    rewrite Hp. cbn. rewrite V. reflexivity. }
  destruct (skip_ws s3) as [|d0 s4]; [discriminate|].
  destruct (d0 =? 125).
  { intros [= <- <-]. apply dict_of_pairs_proper, Hp'. }
  destruct (d0 =? 44); [|discriminate].
  destruct (skip_ws s4) as [|q s5]; [discriminate|].
  destruct (q =? 34); [|discriminate].
  apply IH. exact Hp'.
Qed.

Lemma array_loop_proper scan : scans_proper scan ->
  forall fuel values s v r,
    forallb proper values = true ->
    array_loop scan fuel values s = Some (v, r) -> proper v = true.
Proof.
  intros P. induction fuel as [|fuel IH]; intros values s v r Hp; [discriminate|].
  cbn [array_loop].
  destruct (scan s) as [[x s1]|] eqn:V; [|discriminate].
  apply P in V.
  assert (Hp' : forallb proper (values ++ [x]) = true).
  { rewrite forallb_app, Hp. cbn. rewrite V. reflexivity. }
  destruct (skip_ws s1) as [|d0 s2]; [discriminate|].
  destruct (d0 =? 93).
  { intros [= <- <-]. exact Hp'. }
  destruct (d0 =? 44); [|discriminate].
  apply IH. exact Hp'.
Qed.

Lemma match_number_proper s v r : match_number s = Some (v, r) -> proper v = true.
Proof.
  unfold match_number.
  destruct (match s with
            | [] => (false, s)
            | c :: t => if c =? 45 then (true, t) else (false, s)
            end) as [neg s0].
  destruct (scan_int_part s0) as [[ip s1]|]; [|discriminate].
  destruct (scan_frac s1) as [[ds r1]|]; destruct (scan_exp _) as [[e r2]|];
    intros [= <- <-]; reflexivity.
Qed.

Lemma scan_once_proper depth : scans_proper (scan_once depth).
Proof.
  induction depth as [|depth IH]; intros s v r; [discriminate|].
  cbn [scan_once]. destruct s as [|c s1]; [discriminate|].
  destruct (c =? 34).
  { destruct (scanstring [] s1) as [[x r0]|]; [|discriminate].
    intros [= <- <-]. reflexivity. }
  destruct (c =? 123).
  { unfold JSONObject. destruct (skip_ws s1) as [|b t]; [discriminate|].
    destruct (b =? 125); [intros [= <- <-]; reflexivity|].
    destruct (b =? 34); [|discriminate].
    apply (object_loop_proper _ IH). reflexivity. }
  destruct (c =? 91).
  { unfold JSONArray. destruct (skip_ws s1) as [|b t]; [discriminate|].
    destruct (b =? 93); [intros [= <- <-]; reflexivity|].
    apply (array_loop_proper _ IH). reflexivity. }
  destruct (startswith (c :: s1) (py "null")); [intros [= <- <-]; reflexivity|].
  destruct (startswith (c :: s1) (py "true")); [intros [= <- <-]; reflexivity|].
  destruct (startswith (c :: s1) (py "false")); [intros [= <- <-]; reflexivity|].
  destruct (match_number (c :: s1)) as [[x r0]|] eqn:N.
  { intros [= <- <-]. exact (match_number_proper _ _ _ N). }
  destruct (startswith (c :: s1) (py "NaN")); [intros [= <- <-]; reflexivity|].
  destruct (startswith (c :: s1) (py "Infinity")); [intros [= <- <-]; reflexivity|].
  destruct (startswith (c :: s1) (py "-Infinity")); [intros [= <- <-]; reflexivity|].
  discriminate.
Qed.

Lemma loads_proper_holds s v : loads s = Ok v -> proper v = true.
Proof.
  unfold loads.
  assert (G : match scan_once (S (length s)) (skip_ws s) with
              | Some (v0, r) => match skip_ws r with
                                | [] => Ok v0
                                | _ :: _ => Raise JSONDecodeError
                                end
              | None => Raise JSONDecodeError
              end = Ok v -> proper v = true).
  { destruct (scan_once (S (length s)) (skip_ws s)) as [[v0 r]|] eqn:E; [|discriminate].
    destruct (skip_ws r); [|discriminate]. intros [= <-].
    exact (scan_once_proper _ _ _ _ E). }
  destruct s as [|c s']; [exact G|].
  intros H. apply G. rewrite <- H.
  destruct c as [|p]; [reflexivity|].
  repeat (destruct p as [p|p|]; try reflexivity).
Qed.

Lemma strategies_proper text v :
  In (Ok v) (map (fun strategy => strategy text) parsing_strategies) ->
  proper v = true.
Proof.
  cbn [map parsing_strategies In].
  unfold parse_clean_json, parse_markdown_json, parse_partial_json,
    parse_line_by_line_json.
  intros [H|[H|[H|[H|[]]]]]; revert H;
    repeat match goal with
           | |- context [match ?x with _ => _ end] => destruct x
           | |- context [if ?x then _ else _] => destruct x
           end;
    try discriminate; apply loads_proper_holds.
Qed.

End ProperValues.
Lemma try_strategies_in strategies text v :
  try_strategies strategies text = Some v ->
  In (Ok v) (map (fun strategy => strategy text) strategies).
Proof.
  induction strategies as [|f l IH]; cbn [try_strategies map In]; [discriminate|].
  destruct (f text) as [x|e]; [|intros H; right; exact (IH H)].
  destruct (truthy x); [intros [= <-]; left; reflexivity|intros H; right; exact (IH H)].
Qed.

Lemma parse_json_response_proper text v :
  parse_json_response text = Some v -> proper v = true.
Proof. intros H. apply (strategies_proper text), try_strategies_in, H. Qed.

Lemma default_proper name : proper (get_default_structure name) = true.
Proof.
  unfold get_default_structure.
  repeat match goal with |- context [if ?b then _ else _] => destruct b end;
    vm_compute; reflexivity.
Qed.

Lemma call_api_loop_proper self name mr attempts : forall st v,
  fst (call_api_loop self name mr attempts st) = Ok v -> proper v = true.
Proof.
  induction attempts as [|a rest IH]; intros st v; cbn [call_api_loop].
  - intros [= <-]. apply default_proper.
  - assert (R : forall st1,
              fst (if (a <? mr - 1)%nat
                   then (sleep (2 ^ N.of_nat a) ;;;
                         call_api_loop self name mr rest) st1
                   else (Ok (get_default_structure name), st1)) = Ok v ->
              proper v = true).
    { intros st1. destruct (a <? mr - 1)%nat.
      - unfold bind, sleep, emit. apply IH.
      - intros [= <-]. apply default_proper. }
    unfold attempt_body.
    destruct (negb (mem name role_names)); [apply R|].
    destruct (negb (mem name (models self))); [apply R|].
    unfold bind, generate_content, ret.
    destruct (producer self (remote_calls (trace st))) as [t|]; [|apply R].
    destruct (parse_json_response (strip t)) as [x|] eqn:P; [|apply IH].
    destruct (truthy x); [|apply IH].
    intros [= <-]. exact (parse_json_response_proper _ _ P).
Qed.

(** X17: the values the decoder builds are proper: in what [json.loads]
    returns, in what [parse_json_response] returns, and in what [call_api]
    returns (a parsed response or a default record), the keys of every
    dictionary are strings and no dictionary holds a key twice. *)
Theorem decoded_values_proper :
  (forall s v, Json.loads s = Ok v -> proper v = true) /\
  (forall text v, parse_json_response text = Some v -> proper v = true) /\
  (forall self name st v, fst (call_api self name st) = Ok v -> proper v = true).
Proof.
  split; [exact loads_proper_holds|]. split; [exact parse_json_response_proper|].
  intros self name st v. apply call_api_loop_proper.
Qed.

Lemma decoded_values_proper_witness :
  proper (VDict [(vs "a", VInt 2); (vs "b", VDict [])]) = true /\
  proper (VDict [(vs "requirements", VList [vs "a shop"])]) = true /\
  proper default_planner = true.
Proof.
  destruct decoded_values_proper as (L & P & C).
  split; [|split].
  - apply (L (pyq "{'a': 1, 'b': {}, 'a': 2}")). vm_compute. reflexivity.
  - apply (P (pyq "Sure: {'requirements': ['a shop']} ")). vm_compute. reflexivity.
  - apply (C silent_manager planner fresh_state). vm_compute. reflexivity.
Defined.

(* ================================================================== *)
(** * The encoder and the decoder *)
(* ================================================================== *)

Section RoundTrip.

Import Json JsonEncoder.
Local Open Scope N_scope.

(** ** Integers *)












(** ** Strings *)



(** ** Blanks *)




(** ** Dictionaries *)





(** ** Induction on values, through the lists and dictionaries in them *)


(** ** Lists *)

Section Loops.

Variable scan : str -> option (value * str).





End Loops.






(** ** Dictionaries *)





Local Opaque newline_indent.



(** ** Brackets *)






(** ** Scalars *)







(** ** The encoder and the scanner *)

Section Texts.

Variable float_repr : bool -> N -> Z -> str.




End Texts.



End RoundTrip.

(* ================================================================== *)
(** * The characters of an encoded text *)
(* ================================================================== *)

Section Characters.

Import JsonEncoder.
Local Open Scope N_scope.










Variable float_repr : bool -> N -> Z -> str.




End Characters.

(** The layout of an encoded text: [indent=2], a comma at the end of a
    line, a colon and a space after a key. *)
Example dumps_layout :
  JsonEncoder.dumps (fun _ _ _ => []) (VDict [(vs "a", VList [VInt 1; vs "x"])]) =
  Ok (pyq "{" ++ 10%N :: pyq "  'a': [" ++ 10%N :: pyq "    1," ++ 10%N ::
      pyq "    'x'" ++ 10%N :: pyq "  ]" ++ 10%N :: pyq "}").
Proof. vm_compute. reflexivity. Qed.

(* ================================================================== *)
(** * The context file: written, then read *)
(* ================================================================== *)




